(** * Employee tracker: the geofenced attendance state machine of [HRApp]

    A shallow embedding of the class [HRApp] (the browser script of the
    employee tracker) and the properties of its attendance state machine,
    geofence evaluation, bounded buffers and distance calculator.

    Conventions of the embedding.

    - JavaScript numbers holding coordinates and distances are IEEE 754
      binary64 numbers, Rocq's primitive [float]: [+], [-], [*], [/],
      [Math.sqrt], [Math.abs] and the comparisons are the operations of
      the standard, so a comparison with [NaN] on either side is false.
      [Math.sin], [Math.cos] and [Math.atan2] are left to the engine by
      ECMA-262 ("implementation-approximated"); they are the members of
      the class [JSMath], with the results ECMA-262 does fix and the range
      of the cosine as its laws, and every statement holds for every such
      library.  Timestamps ([Date.now()]) are integers.
    - A field that is [null] or absent ([undefined]) is [None]; the code
      tests such fields by truthiness or against [null], and the records it
      builds never distinguish the two for the fields read here.  Every
      record the script builds has the field [companyId], so for that
      field [None] is [null].
    - [this.mockDB.users] and [this.mockDB.companies] are plain objects
      used as maps keyed by strings: finite maps of their own properties.
      Where a method looks up a name that was typed into a form,
      [users[name]] is the own property or, for the names every object
      inherits from [Object.prototype], the inherited function or object
      ([js_get]).  The session's and the pending user's names are names
      under which the methods found a record of the store, and company
      ids are "DEMO" or the ids generated at registration (upper case,
      ending in four digits); for those the lookup is the lookup in the
      map.  Objects
      held in the maps are mutated in place by the script
      ([user.status = ...]); here the mutation is an update of the map at
      the key through which the object was reached.
    - [this.currentUser] is the copy [{ username, ...user }] made at login:
      a pair of the user name and the record as it was then.  Only its
      [username], [role] and [companyId] are ever read.
    - A method is a function from the application state to an [Outcome]:
      the effects it emitted (alerts, view switches, a one-shot position
      request) and the state it left, either on normal return or when a
      [TypeError] (property read on [undefined] or [null]) stopped it.  An
      uncaught error reaches [window.onerror], which alerts the text
      "CRITICAL ERROR" with the engine's message: [shown] adds that alert
      to the effects of the method.
    - The source holds two versions of the script.  The embedding follows
      the first, fuller one (location history, passcodes, low-accuracy
      fallback, strict 100 m geofence with the reason "Geofence Exit").
    - Values typed into forms, the answers of [confirm], the random
      verification codes and identifiers, and the clock are parameters of
      the methods; form values are taken after [trim()] and case
      normalisation.  DOM updates and [localStorage] writes are not part of
      the state; the handler of storage events, which replaces the whole
      store by what another tab wrote, and the migration run once on load
      are outside the embedding.
    - The sampler armed by [checkIn] ([setInterval] around
      [trackLocation]) is the flag [trackingInterval]; each of its ticks is
      a call of [trackLocation]. *)

From Stdlib Require Import Reals Lra Machin ZArith Lia Ascii String Floats.
From stdpp Require Import base option list gmap strings.

(** Decimal literals denote the nearest binary64 number, as in the script. *)
Set Warnings "-inexact-float".

(* ================================================================== *)
(** * Part I. Definitions *)
(* ================================================================== *)

(** ** Numbers *)

(** The functions of [Math] whose results ECMA-262 leaves to the engine.
    The laws are the results it does fix (sec. 21.3.2: the sine of [+0] is
    [+0] and of [NaN] is [NaN]; [atan2] of a [NaN] is [NaN]; [atan2(+0, x)]
    is [+0] for [x > 0]) and, for the cosine of a finite number, the range
    from -1 to 1, which the standard does not state and the libraries in
    use (fdlibm and its ports in V8 and SpiderMonkey) keep. *)
Class JSMath := {
  Math_sin : float -> float;
  Math_cos : float -> float;
  Math_atan2 : float -> float -> float;
  Math_sin_zero : Math_sin 0 = 0%float;
  Math_sin_nan : Math_sin nan = nan;
  Math_cos_range :
    forall x, is_finite x = true -> (abs (Math_cos x) <=? 1)%float = true;
  Math_atan2_nan_y : forall x, Math_atan2 nan x = nan;
  Math_atan2_nan_x : forall y, Math_atan2 y nan = nan;
  Math_atan2_zero :
    forall x, (0 <? x)%float = true -> Math_atan2 0 x = 0%float }.

(** [Math.PI]. *)
Definition Math_PI : float := 3.141592653589793%float.

(** [x > y]. *)
Definition gt (x y : float) : bool := (y <? x)%float.

(** [this.MAX_DISTANCE_METERS = 100]. *)
Definition MAX_DISTANCE_METERS : float := 100%float.

(** A zero or a finite number, and a zero or a finite number whose
    exponent is at most [E], in the representation of [SpecFloat]. *)
Definition finite_SF (x : spec_float) : Prop :=
  match x with
  | S754_zero _ | S754_finite _ _ _ => True
  | _ => False
  end.

Definition below_SF (E : Z) (x : spec_float) : Prop :=
  match x with
  | S754_zero _ => True
  | S754_finite _ _ e => (e <= E)%Z
  | _ => False
  end.

(** ** The distance calculator *)

Section DistanceCalculator.
Context {M : JSMath}.

(** [deg2rad(deg)]: [deg * (Math.PI / 180)]. *)
Definition deg2rad (deg : float) : float := (deg * (Math_PI / 180))%float.

(** The quantity [a] of [getDistanceFromLatLonInMeters]. *)
Definition haversine_a (lat1 lon1 lat2 lon2 : float) : float :=
  let dLat := deg2rad (lat2 - lat1) in
  let dLon := deg2rad (lon2 - lon1) in
  (Math_sin (dLat / 2) * Math_sin (dLat / 2) +
   Math_cos (deg2rad lat1) * Math_cos (deg2rad lat2) *
   Math_sin (dLon / 2) * Math_sin (dLon / 2))%float.

(** [getDistanceFromLatLonInMeters(lat1, lon1, lat2, lon2)]. *)
Definition getDistanceFromLatLonInMeters (lat1 lon1 lat2 lon2 : float) : float :=
  let R_km := 6371%float in
  let a := haversine_a lat1 lon1 lat2 lon2 in
  let c := (2 * Math_atan2 (sqrt a) (sqrt (1 - a)))%float in
  let d := (R_km * c)%float in
  (d * 1000)%float.

End DistanceCalculator.

(** The haversine great-circle distance as the specification words it:
    Earth radius 6371 km, angles converted by [deg * pi / 180], the result
    in meters, [d = 2 r asin (sqrt h)]; over the real numbers. *)
Definition spec_haversine_meters (lat1 lon1 lat2 lon2 : R) : R :=
  let phi1 := (lat1 * PI / 180)%R in
  let phi2 := (lat2 * PI / 180)%R in
  let dphi := ((lat2 - lat1) * PI / 180)%R in
  let dlam := ((lon2 - lon1) * PI / 180)%R in
  let h := ((sin (dphi / 2))² + cos phi1 * cos phi2 * (sin (dlam / 2))²)%R in
  (2 * (6371 * 1000) * asin (R_sqrt.sqrt h))%R.

(** ** Data model *)

Inductive Role := manager | employee.

Inductive Status := checked_in | checked_out.

#[global] Instance Role_eq_dec : EqDecision Role.
Proof. solve_decision. Defined.

#[global] Instance Status_eq_dec : EqDecision Status.
Proof. solve_decision. Defined.

Module Position.
Record t := mk { lat : float; lng : float }.
End Position.

Module Site.
Record t := mk { id : string; name : string; lat : float; lng : float }.
End Site.

Module HistoryPoint.
Record t := mk { lat : float; lng : float; time : string; siteId : string }.
End HistoryPoint.

Module Employee.
Record t := mk { username : string; contact : string; assignedSiteId : string }.
End Employee.

Module LogEntry.
Record t := mk { username : string; action : string; time : string }.
End LogEntry.

Module Company.
Record t := mk {
  name : option string;
  sites : list Site.t;
  employees : list Employee.t;
  logs : list LogEntry.t }.
End Company.

Module User.
Record t := mk {
  role : Role;
  companyId : option string;
  email : option string;
  phone : option string;
  passcode : option string;
  assignedSiteId : option string;
  status : option Status;
  checkInTime : option Z;
  lastPing : option Z;
  verified : bool;
  verifyCode : option string;
  history : option (list HistoryPoint.t) }.
End User.

Record DB := mkDB {
  companies : gmap string Company.t;
  users : gmap string User.t }.

Record HRApp := mkApp {
  mockDB : DB;
  currentUser : option (string * User.t);
  currentPosition : option Position.t;
  pendingUser : option (string * User.t);
  trackingInterval : bool }.

(** The clock readings a method takes: [Date.now()],
    [new Date().toLocaleTimeString()] and [new Date().toLocaleString()]. *)
Record Clock := mkClock {
  Date_now : Z;
  toLocaleTimeString : string;
  toLocaleString : string }.

(** ** Effects *)

Inductive View := view_auth | view_verify | view_manager | view_employee.

(** The texts passed to [alert]; a number shown rounded in the text is
    carried as it was computed.  [msg_critical_error] is the text of
    [window.onerror]. *)
Inductive Msg :=
| msg_fill_all_fields
| msg_manager_name_taken
| msg_manager_code (code : string)
| msg_company_created
| msg_enter_a_username
| msg_email_or_phone
| msg_username_taken
| msg_code_sent (contact code : string)
| msg_account_created
| msg_invalid_code
| msg_verified
| msg_enter_username
| msg_user_not_found
| msg_found_company (companyId : string)
| msg_no_company_id
| msg_incorrect_company (companyId : string)
| msg_passcode_required
| msg_invalid_passcode
| msg_not_linked (username : string)
| msg_detecting_location
| msg_worksite_not_found
| msg_access_denied (dist : float) (siteName : string)
| msg_mock_location
| msg_geofence_alert (dist : float)
| msg_enter_site_name
| msg_waiting_gps_signal
| msg_null_island
| msg_site_created (siteName : string)
| msg_waiting_gps
| msg_location_updated (siteName : string)
| msg_fill_all
| msg_other_company (username : string)
| msg_updated_site (username : string)
| msg_linked (username : string)
| msg_employee_removed
| msg_gps_not_available
| msg_site_deleted
| msg_too_far (siteName : string) (dist : float)
| msg_debug_logout (siteName : string)
| msg_teleported (lat lng : float)
| msg_critical_error.

Inductive Effect :=
| alert (m : Msg)
| showView (v : View)
| getCurrentPosition.

(** How a method call ended. *)
Inductive Outcome :=
| Returned (out : list Effect) (app : HRApp)
| Threw (out : list Effect) (app : HRApp).

Definition Method := HRApp -> Outcome.

Definition effects_of (o : Outcome) : list Effect :=
  match o with Returned out _ | Threw out _ => out end.

Definition state_of (o : Outcome) : HRApp :=
  match o with Returned _ app | Threw _ app => app end.



(** Effects emitted before the rest of a method body. *)
Definition after (out0 : list Effect) (o : Outcome) : Outcome :=
  match o with
  | Returned out app => Returned (out0 ++ out) app
  | Threw out app => Threw (out0 ++ out) app
  end.

(** One call after another; a [TypeError] stops the sequence. *)
Definition andThen (m1 m2 : Method) : Method := fun app =>
  match m1 app with
  | Returned out app1 => after out (m2 app1)
  | Threw out app1 => Threw out app1
  end.

Notation "m1 ;> m2" := (andThen m1 m2) (at level 62, right associativity).

Definition done : Method := fun app => Returned [] app.

Definition emit (e : Effect) : Method := fun app => Returned [e] app.

(** ** Small helpers for JavaScript idioms *)

(** Truthiness of a string. *)
Definition truthy (s : string) : bool := negb (bool_decide (s = "")).

(** Truthiness of a field that holds a string, [null] or nothing. *)
Definition truthy_opt (o : option string) : bool :=
  match o with Some s => truthy s | None => false end.

(** [x || null] for a string [x]. *)
Definition or_null (s : string) : option string :=
  if truthy s then Some s else None.

(** The property key a value is converted to in [obj[key]]. *)
Definition key_of (o : option string) : string := default "null" o.

(** The property names that every plain object inherits from
    [Object.prototype]. *)
Definition Object_prototype_keys : list string :=
  ["constructor"; "__defineGetter__"; "__defineSetter__"; "hasOwnProperty";
   "__lookupGetter__"; "__lookupSetter__"; "isPrototypeOf";
   "propertyIsEnumerable"; "toString"; "valueOf"; "__proto__";
   "toLocaleString"].

Definition inherited (key : string) : bool :=
  bool_decide (key ∈ Object_prototype_keys).

(** What [obj[key]] is for a plain object [obj] that holds records: a
    record of its own, one of the functions and objects that
    [Object.prototype] lends to every object (truthy, with none of the
    fields of a record), or [undefined]. *)
Inductive Property (A : Type) :=
| own (a : A)
| from_prototype
| undefined.

Arguments own {A} a.
Arguments from_prototype {A}.
Arguments undefined {A}.

(** [obj[key]]. *)
Definition js_get {A} (obj : gmap string A) (key : string) : Property A :=
  match obj !! key with
  | Some a => own a
  | None => if inherited key then from_prototype else undefined
  end.

(** [contact.includes('@')]. *)
Fixpoint includes_at (s : string) : bool :=
  match s with
  | EmptyString => false
  | String c s' => if Ascii.eqb c "@"%char then true else includes_at s'
  end.

(** [sites.find(s => s.id === assignedSiteId)]. *)
Definition find_site (assignedSiteId : option string) (sites : list Site.t)
  : option Site.t :=
  List.find (fun s => bool_decide (Some (Site.id s) = assignedSiteId)) sites.

(** [arr.pop()] and [arr.shift()] leave these behind. *)
Definition pop {A} (l : list A) : list A := removelast l.

Definition shift {A} (l : list A) : list A := tail l.

(** Field updates. *)
Definition set_users (f : gmap string User.t -> gmap string User.t) (app : HRApp) : HRApp :=
  mkApp (mkDB (companies (mockDB app)) (f (users (mockDB app))))
        (currentUser app) (currentPosition app) (pendingUser app)
        (trackingInterval app).

Definition set_companies (f : gmap string Company.t -> gmap string Company.t) (app : HRApp) : HRApp :=
  mkApp (mkDB (f (companies (mockDB app))) (users (mockDB app)))
        (currentUser app) (currentPosition app) (pendingUser app)
        (trackingInterval app).

Definition set_currentUser (cu : option (string * User.t)) (app : HRApp) : HRApp :=
  mkApp (mockDB app) cu (currentPosition app) (pendingUser app)
        (trackingInterval app).

Definition set_currentPosition (p : option Position.t) (app : HRApp) : HRApp :=
  mkApp (mockDB app) (currentUser app) p (pendingUser app)
        (trackingInterval app).

Definition set_pendingUser (pu : option (string * User.t)) (app : HRApp) : HRApp :=
  mkApp (mockDB app) (currentUser app) (currentPosition app) pu
        (trackingInterval app).

Definition set_trackingInterval (b : bool) (app : HRApp) : HRApp :=
  mkApp (mockDB app) (currentUser app) (currentPosition app) (pendingUser app) b.

Definition with_status (s : option Status) (u : User.t) : User.t :=
  User.mk (User.role u) (User.companyId u) (User.email u) (User.phone u)
    (User.passcode u) (User.assignedSiteId u) s (User.checkInTime u)
    (User.lastPing u) (User.verified u) (User.verifyCode u) (User.history u).

Definition with_checkInTime (t : option Z) (u : User.t) : User.t :=
  User.mk (User.role u) (User.companyId u) (User.email u) (User.phone u)
    (User.passcode u) (User.assignedSiteId u) (User.status u) t
    (User.lastPing u) (User.verified u) (User.verifyCode u) (User.history u).

Definition with_lastPing (t : option Z) (u : User.t) : User.t :=
  User.mk (User.role u) (User.companyId u) (User.email u) (User.phone u)
    (User.passcode u) (User.assignedSiteId u) (User.status u)
    (User.checkInTime u) t (User.verified u) (User.verifyCode u)
    (User.history u).

Definition with_verified (b : bool) (u : User.t) : User.t :=
  User.mk (User.role u) (User.companyId u) (User.email u) (User.phone u)
    (User.passcode u) (User.assignedSiteId u) (User.status u)
    (User.checkInTime u) (User.lastPing u) b (User.verifyCode u)
    (User.history u).

Definition with_history (h : option (list HistoryPoint.t)) (u : User.t) : User.t :=
  User.mk (User.role u) (User.companyId u) (User.email u) (User.phone u)
    (User.passcode u) (User.assignedSiteId u) (User.status u)
    (User.checkInTime u) (User.lastPing u) (User.verified u)
    (User.verifyCode u) h.

Definition with_assignedSiteId (s : option string) (u : User.t) : User.t :=
  User.mk (User.role u) (User.companyId u) (User.email u) (User.phone u)
    (User.passcode u) s (User.status u) (User.checkInTime u)
    (User.lastPing u) (User.verified u) (User.verifyCode u) (User.history u).

(** The linking of an unassigned account by [registerEmployee]: the four
    assignments to [companyId], [assignedSiteId], [email] and [phone]. *)
Definition link_user (cid : option string) (siteId : string)
    (em ph : option string) (u : User.t) : User.t :=
  User.mk (User.role u) cid em ph (User.passcode u) (Some siteId)
    (User.status u) (User.checkInTime u) (User.lastPing u) (User.verified u)
    (User.verifyCode u) (User.history u).

Definition with_logs (l : list LogEntry.t) (c : Company.t) : Company.t :=
  Company.mk (Company.name c) (Company.sites c) (Company.employees c) l.

Definition with_employees (l : list Employee.t) (c : Company.t) : Company.t :=
  Company.mk (Company.name c) (Company.sites c) l (Company.logs c).

Definition with_sites (l : list Site.t) (c : Company.t) : Company.t :=
  Company.mk (Company.name c) l (Company.employees c) (Company.logs c).

(** [this.mockDB.companies[companyId]]. *)
Definition company_of (app : HRApp) (companyId : option string) : option Company.t :=
  companies (mockDB app) !! key_of companyId.

(** A position whose coordinates are numbers: neither [NaN] nor an
    infinity. *)
Definition numeric (pos : Position.t) : bool :=
  is_finite (Position.lat pos) && is_finite (Position.lng pos).

Section Operations.
Context {M : JSMath}.

(** The distance from a position to a site, as every caller computes it. *)
Definition distance_to (pos : Position.t) (site : Site.t) : float :=
  getDistanceFromLatLonInMeters (Position.lat pos) (Position.lng pos)
    (Site.lat site) (Site.lng site).

Definition view_of (r : Role) : View :=
  match r with manager => view_manager | employee => view_employee end.

(** The "null island" guard of [createSite] and [updateSiteLocation]. *)
Definition null_island (pos : Position.t) : bool :=
  (abs (Position.lat pos) <? 0.0001)%float &&
  (abs (Position.lng pos) <? 0.0001)%float.

(** The first element satisfying [p] replaced by its image under [f]: an
    assignment to a field of the object that [find] returned. *)
Fixpoint update_first {A} (p : A -> bool) (f : A -> A) (l : list A) : list A :=
  match l with
  | [] => []
  | x :: l' => if p x then f x :: l' else x :: update_first p f l'
  end.

(** ** Logs, history and the dashboard *)

(** [logs.unshift(entry); if (logs.length > 20) logs.pop();] *)
Definition unshift_capped (entry : LogEntry.t) (logs : list LogEntry.t)
  : list LogEntry.t :=
  let logs1 := entry :: logs in
  if Nat.ltb 20 (length logs1) then pop logs1 else logs1.

(** [history.push(point); if (history.length > 50) history.shift();] *)
Definition push_capped (point : HistoryPoint.t) (history : list HistoryPoint.t)
  : list HistoryPoint.t :=
  let history1 := history ++ [point] in
  if Nat.ltb 50 (length history1) then shift history1 else history1.

(** [addLog(companyId, username, action, time)]: [unshift] the entry, then
    [pop] once when the length exceeds 20. *)
Definition addLog (companyId : option string) (username action time : string)
  : Method := fun app =>
  match company_of app companyId with
  | None => Threw [] app
  | Some company =>
    let logs' :=
      unshift_capped (LogEntry.mk username action time) (Company.logs company) in
    Returned []
      (set_companies <[key_of companyId := with_logs logs' company]> app)
  end.

(** [trackLocation(siteId)]: [push] the sample, then [shift] once when
    the length exceeds 50. *)
Definition trackLocation (clk : Clock) (siteId : string) : Method := fun app =>
  match currentPosition app, currentUser app with
  | Some pos, Some (username, _) =>
    match users (mockDB app) !! username with
    | None => Returned [] app
    | Some user =>
      (* if (!user.history) user.history = []; *)
      let history0 := default [] (User.history user) in
      let point := HistoryPoint.mk (Position.lat pos) (Position.lng pos)
                     (toLocaleString clk) siteId in
      Returned []
        (set_users
           <[username := with_history (Some (push_capped point history0)) user]>
           app)
    end
  | _, _ => Returned [] app
  end.

(** [refreshDashboard()]: rendering only; the manager branch reads
    [company.sites] and [company.logs] of the session's company, a
    [TypeError] when that record is missing. *)
Definition refreshDashboard : Method := fun app =>
  match currentUser app with
  | None => Returned [] app
  | Some (_, cu) =>
    match User.role cu with
    | manager =>
      match company_of app (User.companyId cu) with
      | None => Threw [] app
      | Some _ => Returned [] app
      end
    | employee => Returned [] app
    end
  end.

(** ** Attendance *)

(** [checkOut(reason)]. *)
Definition checkOut (clk : Clock) (reason : string) : Method := fun app =>
  match currentUser app with
  | None => Returned [] app
  | Some (username, cu) =>
    match users (mockDB app) !! username with
    | None => Returned [] app
    | Some user =>
      let user' := with_checkInTime None (with_status (Some checked_out) user) in
      (addLog (User.companyId cu) username reason (toLocaleTimeString clk) ;>
       refreshDashboard)
        (set_trackingInterval false (set_users <[username := user']> app))
    end
  end.

(** [checkIn()]. *)
Definition checkIn (clk : Clock) : Method := fun app =>
  match currentPosition app with
  | None => Returned [alert msg_gps_not_available] app
  | Some pos =>
    match currentUser app with
    | None => Threw [] app
    | Some (username, cu) =>
      let user := users (mockDB app) !! username in
      let company := company_of app (User.companyId cu) in
      (* company?.sites.find(s => s.id === user.assignedSiteId): the
         callback reads [user] only when there is a site to test *)
      let found : option (option Site.t) :=
        match company with
        | None => Some None
        | Some c =>
          match Company.sites c, user with
          | [], _ => Some None
          | _ :: _, None => None
          | sites, Some u => Some (find_site (User.assignedSiteId u) sites)
          end
        end in
      match found with
      | None => Threw [] app
      | Some None => Returned [alert msg_site_deleted] app
      | Some (Some site) =>
        let dist := distance_to pos site in
        if gt dist MAX_DISTANCE_METERS
        then Returned [alert (msg_too_far (Site.name site) dist)] app
        else
          match user with
          | None => Threw [] app
          | Some u =>
            let u' := with_lastPing (Some (Date_now clk))
                        (with_checkInTime (Some (Date_now clk))
                           (with_status (Some checked_in) u)) in
            (trackLocation clk (Site.id site) ;>
             (fun a => Returned [] (set_trackingInterval true a)) ;>
             addLog (User.companyId cu) username
               ("Check-In @ " +:+ Site.name site) (toLocaleTimeString clk) ;>
             refreshDashboard)
              (set_users <[username := u']> app)
          end
      end
    end
  end.

(** ** Geofence monitoring *)

(** [monitorGeofence()]. *)
Definition monitorGeofence (clk : Clock) : Method := fun app =>
  match currentUser app with
  | None => Threw [] app
  | Some (username, cu) =>
    match users (mockDB app) !! username with
    | None => Threw [] app
    | Some user =>
      if negb (bool_decide (User.status user = Some checked_in))
      then Returned [] app
      else
        match company_of app (User.companyId cu) with
        | None => Threw [] app
        | Some company =>
          match find_site (User.assignedSiteId user) (Company.sites company) with
          | None => Returned [] app
          | Some site =>
            match currentPosition app with
            | None => Returned [] app
            | Some pos =>
              let dist := distance_to pos site in
              if gt dist MAX_DISTANCE_METERS
              then (emit (alert (msg_geofence_alert dist)) ;>
                    checkOut clk "Geofence Exit") app
              else Returned [] app
            end
          end
        end
    end
  end.

(** The body shared by the position handlers: after [currentPosition] is
    assigned, [monitorGeofence] runs when an employee is logged in. *)
Definition monitor_if_employee (clk : Clock) : Method := fun app =>
  match currentUser app with
  | Some (_, cu) =>
    match User.role cu with
    | employee => monitorGeofence clk app
    | manager => Returned [] app
    end
  | None => Returned [] app
  end.

(** The success callback of [watchPosition] in [watchLocation()], for a
    sample with the given coordinates; the high-accuracy watcher and its
    low-accuracy fallback have the same callback body. *)
Definition watchPosition_success (clk : Clock) (lat lng : float) : Method := fun app =>
  monitor_if_employee clk
    (set_currentPosition (Some (Position.mk lat lng)) app).

(** [useMockLocation()]. *)
Definition useMockLocation (clk : Clock) : Method := fun app =>
  (emit (alert msg_mock_location) ;> monitor_if_employee clk)
    (set_currentPosition (Some (Position.mk 40.7128 (-74.0060))) app).

(** [logout()]. *)
Definition logout : Method := fun app =>
  Returned [showView view_auth] (set_currentUser None app).

(** [checkGeofence()], the check behind the debug teleport. *)
Definition checkGeofence : Method := fun app =>
  match currentUser app with
  | None => Returned [] app
  | Some (username, cu) =>
    match User.role cu with
    | manager => Returned [] app
    | employee =>
      match users (mockDB app) !! username with
      | None => Returned [] app
      | Some user =>
        if negb (bool_decide (User.status user = Some checked_in))
        then Returned [] app
        else
          match company_of app (User.companyId cu) with
          | None => Threw [] app
          | Some company =>
            match find_site (User.assignedSiteId user) (Company.sites company) with
            | None => Returned [] app
            | Some site =>
              match currentPosition app with
              | None => Returned [] app
              | Some pos =>
                if gt (distance_to pos site) MAX_DISTANCE_METERS
                then (emit (alert (msg_debug_logout (Site.name site))) ;>
                      logout) app
                else Returned [] app
              end
            end
          end
      end
    end
  end.

(** [debugSetLocation(lat, lng)]. *)
Definition debugSetLocation (lat lng : float) : Method := fun app =>
  (checkGeofence ;> emit (alert (msg_teleported lat lng)))
    (set_currentPosition (Some (Position.mk lat lng)) app).

(** ** Authentication *)

(** [registerNewCompany()]; [companyId] and [verifyCode] are the values
    the method generates from the company name and [Math.random()]. *)
Definition registerNewCompany (companyName managerName companyId verifyCode : string)
  : Method := fun app =>
  if negb (truthy companyName) || negb (truthy managerName)
  then Returned [alert msg_fill_all_fields] app
  else
    match js_get (users (mockDB app)) managerName with
    | own _ | from_prototype => Returned [alert msg_manager_name_taken] app
    | undefined =>
      let company := Company.mk (Some companyName) [] [] [] in
      let mgr := User.mk manager (Some companyId) None None None None None
                   None None false (Some verifyCode) (Some []) in
      Returned [alert (msg_manager_code verifyCode); alert msg_company_created;
                showView view_auth]
        (set_users <[managerName := mgr]>
           (set_companies <[companyId := company]> app))
    end.

(** [registerNewEmployeeUser()]. *)
Definition registerNewEmployeeUser (username email phone passcode verifyCode : string)
  : Method := fun app =>
  if negb (truthy username) then Returned [alert msg_enter_a_username] app
  else if negb (truthy email) && negb (truthy phone)
  then Returned [alert msg_email_or_phone] app
  else
    match js_get (users (mockDB app)) username with
    | own _ | from_prototype => Returned [alert msg_username_taken] app
    | undefined =>
      let user := User.mk employee None (Some email) (Some phone)
                    (or_null passcode) None (Some checked_out) None None
                    false (Some verifyCode) (Some []) in
      let contact := if truthy email then email else phone in
      Returned [alert (msg_code_sent contact verifyCode);
                alert msg_account_created; showView view_auth]
        (set_users <[username := user]> app)
    end.

(** [verifyAccount()]. *)
Definition verifyAccount (codeInput : string) : Method := fun app =>
  match pendingUser app with
  | None => Returned [showView view_auth] app
  | Some (pname, _) =>
    match users (mockDB app) !! pname with
    | None => Threw [] app
    | Some user =>
      if negb (bool_decide (Some codeInput = User.verifyCode user))
         && negb (bool_decide (codeInput = "1234"))
      then Returned [alert msg_invalid_code] app
      else
        let user' := with_verified true user in
        let app1 := set_users <[pname := user']> app in
        let app2 := set_pendingUser None
                      (set_currentUser (Some (pname, user')) app1) in
        let app3 :=
          match company_of app2 (User.companyId user'), User.role user' with
          | None, manager =>
            set_companies
              <[key_of (User.companyId user') := Company.mk None [] [] []]> app2
          | _, _ => app2
          end in
        after [alert msg_verified; showView (view_of (User.role user'))]
          (refreshDashboard app3)
    end
  end.

(** [login()]. *)
Definition login (username companyInput passInput : string) : Method := fun app =>
  if negb (truthy username) then Returned [alert msg_enter_username] app
  else
    match js_get (users (mockDB app)) username with
    | undefined => Returned [alert msg_user_not_found] app
    | from_prototype =>
      (* [user.companyId], [user.passcode] and [user.verified] are all
         [undefined] *)
      if truthy companyInput
      then Returned [alert (msg_not_linked username)] app
      else Returned [alert msg_no_company_id] app
    | own user =>
      (* the company id, typed in or found in the user record *)
      let detected : option (string * list Effect) :=
        if truthy companyInput then Some (companyInput, [])
        else
          match User.companyId user with
          | Some c =>
            if truthy c then Some (c, [alert (msg_found_company c)]) else None
          | None => None
          end in
      match detected with
      | None => Returned [alert msg_no_company_id] app
      | Some (companyId, out0) =>
        after out0
          (if truthy_opt (User.companyId user)
              && negb (bool_decide (User.companyId user = Some companyId))
           then Returned [alert (msg_incorrect_company
                                   (key_of (User.companyId user)))] app
           else if truthy_opt (User.passcode user) && negb (truthy passInput)
           then Returned [alert msg_passcode_required] app
           else if truthy_opt (User.passcode user)
                   && negb (bool_decide (Some passInput = User.passcode user))
           then Returned [alert msg_invalid_passcode] app
           else if negb (User.verified user)
           then Returned [showView view_verify]
                  (set_pendingUser (Some (username, user)) app)
           else if negb (truthy_opt (User.companyId user))
           then Returned [alert (msg_not_linked username)] app
           else
             let success :=
               after [showView (view_of (User.role user))]
                 (refreshDashboard
                    (set_currentUser (Some (username, user)) app)) in
             match User.role user with
             | manager => success
             | employee =>
               match currentPosition app with
               | None =>
                 Returned [alert msg_detecting_location; getCurrentPosition] app
               | Some pos =>
                 match company_of app (User.companyId user) with
                 | None => Threw [] app
                 | Some company =>
                   match find_site (User.assignedSiteId user)
                           (Company.sites company) with
                   | None => Returned [alert msg_worksite_not_found] app
                   | Some site =>
                     let dist := distance_to pos site in
                     if gt dist MAX_DISTANCE_METERS
                     then Returned [alert (msg_access_denied dist
                                             (Site.name site))] app
                     else success
                   end
                 end
               end
             end)
      end
    end.

(** ** Manager features *)

(** [createSite()]; [newId] is the identifier built from [Date.now()]. *)
Definition createSite (siteName newId : string) : Method := fun app =>
  if negb (truthy siteName) then Returned [alert msg_enter_site_name] app
  else
    match currentPosition app with
    | None => Returned [alert msg_waiting_gps_signal] app
    | Some pos =>
      if null_island pos then Returned [alert msg_null_island] app
      else
        match currentUser app with
        | None => Threw [] app
        | Some (_, cu) =>
          match company_of app (User.companyId cu) with
          | None => Threw [] app
          | Some company =>
            let newSite := Site.mk newId siteName (Position.lat pos)
                             (Position.lng pos) in
            after [alert (msg_site_created siteName)]
              (refreshDashboard
                 (set_companies
                    <[key_of (User.companyId cu) :=
                        with_sites (Company.sites company ++ [newSite]) company]>
                    app))
          end
        end
    end.

(** [updateSiteLocation(siteId)]; [confirmed] is the answer of [confirm]. *)
Definition updateSiteLocation (siteId : string) (confirmed : bool) : Method := fun app =>
  match currentPosition app with
  | None => Returned [alert msg_waiting_gps] app
  | Some pos =>
    if null_island pos then Returned [alert msg_null_island] app
    else
      match currentUser app with
      | None => Threw [] app
      | Some (_, cu) =>
        match company_of app (User.companyId cu) with
        | None => Threw [] app
        | Some company =>
          match find_site (Some siteId) (Company.sites company) with
          | None => Returned [] app
          | Some site =>
            if negb confirmed then Returned [] app
            else
              let moved (s : Site.t) :=
                Site.mk (Site.id s) (Site.name s) (Position.lat pos)
                  (Position.lng pos) in
              let sites' :=
                update_first
                  (fun s => bool_decide (Some (Site.id s) = Some siteId))
                  moved (Company.sites company) in
              (refreshDashboard ;>
               emit (alert (msg_location_updated (Site.name site))))
                (set_companies
                   <[key_of (User.companyId cu) := with_sites sites' company]>
                   app)
          end
        end
      end
  end.

(** [registerEmployee()]. *)
Definition registerEmployee (username contact siteId passcode : string)
  : Method := fun app =>
  match currentUser app with
  | None => Threw [] app
  | Some (_, cu) =>
    let cid := User.companyId cu in
    let company := company_of app cid in
    if negb (truthy username) || negb (truthy contact) || negb (truthy siteId)
    then Returned [alert msg_fill_all] app
    else
      let em := if includes_at contact then Some contact else None in
      let ph := if includes_at contact then None else Some contact in
      let named (e : Employee.t) := bool_decide (Employee.username e = username) in
      (* the roster update that follows the creation or the linking *)
      let enlist (app1 : HRApp) : Outcome :=
        match company with
        | None => Threw [] app1
        | Some c =>
          let roster :=
            match List.find named (Company.employees c) with
            | Some _ => Company.employees c
            | None => Company.employees c ++ [Employee.mk username contact siteId]
            end in
          after [alert (msg_linked username)]
            (refreshDashboard
               (set_companies <[key_of cid := with_employees roster c]> app1))
        end in
      match js_get (users (mockDB app)) username with
      | undefined =>
        let user := User.mk employee cid em ph (or_null passcode) (Some siteId)
                      (Some checked_out) None None true None None in
        enlist (set_users <[username := user]> app)
      | from_prototype =>
        (* [user.companyId] is [undefined]: neither [null] nor the id of
           the session *)
        Returned [alert (msg_other_company username)] app
      | own user =>
        match User.companyId user with
        | None =>
          enlist (set_users <[username := link_user cid siteId em ph user]> app)
        | Some _ =>
          if negb (bool_decide (User.companyId user = cid))
          then Returned [alert (msg_other_company username)] app
          else
            let app1 :=
              set_users <[username := with_assignedSiteId (Some siteId) user]> app in
            match company with
            | None => Threw [] app1
            | Some c =>
              let roster :=
                update_first named
                  (fun e => Employee.mk (Employee.username e)
                              (Employee.contact e) siteId)
                  (Company.employees c) in
              (refreshDashboard ;> emit (alert (msg_updated_site username)))
                (set_companies <[key_of cid := with_employees roster c]> app1)
            end
        end
      end
  end.

(** [removeEmployee(username)]; [confirmed] is the answer of [confirm]. *)
Definition removeEmployee (username : string) (confirmed : bool) : Method := fun app =>
  if negb confirmed then Returned [] app
  else
    match currentUser app with
    | None => Threw [] app
    | Some (_, cu) =>
      match company_of app (User.companyId cu) with
      | None => Threw [] app
      | Some company =>
        let roster :=
          List.filter
            (fun e => negb (bool_decide (Employee.username e = username)))
            (Company.employees company) in
        (refreshDashboard ;> emit (alert msg_employee_removed))
          (set_users (delete username)
             (set_companies
                <[key_of (User.companyId cu) := with_employees roster company]>
                app))
      end
    end.

(** ** The operations of the system *)

Inductive Op :=
| op_registerNewCompany (companyName managerName companyId verifyCode : string)
| op_registerNewEmployeeUser (username email phone passcode verifyCode : string)
| op_verifyAccount (codeInput : string)
| op_login (username companyInput passInput : string)
| op_logout
| op_position (clk : Clock) (lat lng : float)
| op_useMockLocation (clk : Clock)
| op_debugSetLocation (lat lng : float)
| op_createSite (siteName newId : string)
| op_updateSiteLocation (siteId : string) (confirmed : bool)
| op_registerEmployee (username contact siteId passcode : string)
| op_removeEmployee (username : string) (confirmed : bool)
| op_checkIn (clk : Clock)
| op_trackLocation (clk : Clock) (siteId : string)
| op_checkOut (clk : Clock).

Definition run (op : Op) : Method :=
  match op with
  | op_registerNewCompany c m i v => registerNewCompany c m i v
  | op_registerNewEmployeeUser u e p c v => registerNewEmployeeUser u e p c v
  | op_verifyAccount c => verifyAccount c
  | op_login u c p => login u c p
  | op_logout => logout
  | op_position clk lat lng => watchPosition_success clk lat lng
  | op_useMockLocation clk => useMockLocation clk
  | op_debugSetLocation lat lng => debugSetLocation lat lng
  | op_createSite n i => createSite n i
  | op_updateSiteLocation s c => updateSiteLocation s c
  | op_registerEmployee u c s p => registerEmployee u c s p
  | op_removeEmployee u c => removeEmployee u c
  | op_checkIn clk => checkIn clk
  | op_trackLocation clk s => trackLocation clk s
  | op_checkOut clk => checkOut clk "Check-Out"
  end.

(** The store the constructor starts from when nothing was persisted, as
    [migrateData] leaves it (the legacy manager is marked verified; his
    [password] field is read nowhere). *)
Definition defaultDB : DB :=
  mkDB
    {[ "DEMO" := Company.mk None [Site.mk "site_1" "Main HQ" 31.9686 99.9018] [] [] ]}
    {[ "manager" := User.mk manager (Some "DEMO") None None None None None
                      None None true None None ]}.

Definition initial_app : HRApp := mkApp defaultDB None None None false.

(** ** Successive calls *)

(** [addLog] called once per entry, in the order of the list. *)
Fixpoint addLog_each (companyId : option string) (entries : list LogEntry.t)
  : Method :=
  match entries with
  | [] => done
  | e :: rest =>
    addLog companyId (LogEntry.username e) (LogEntry.action e) (LogEntry.time e) ;>
    addLog_each companyId rest
  end.

(** What the outside world holds when [trackLocation] is called: the
    latest position delivered, the clock, and the site passed in. *)
Record Sample := mkSample {
  sample_position : Position.t;
  sample_clock : Clock;
  sample_siteId : string }.

(** The history point that [trackLocation] builds from a sample. *)
Definition point_of (s : Sample) : HistoryPoint.t :=
  HistoryPoint.mk (Position.lat (sample_position s))
    (Position.lng (sample_position s))
    (toLocaleString (sample_clock s)) (sample_siteId s).

(** [trackLocation] called once per sample, in the order of the list,
    [currentPosition] holding the sample's position at each call. *)
Fixpoint trackLocation_each (samples : list Sample) : Method :=
  match samples with
  | [] => done
  | s :: rest =>
    (fun app =>
       trackLocation (sample_clock s) (sample_siteId s)
         (set_currentPosition (Some (sample_position s)) app)) ;>
    trackLocation_each rest
  end.

(** ** Predicates used in the statements *)

(** The site a user is assigned to, looked up in the site list of the
    company the session belongs to. *)
Definition assigned_site (app : HRApp) (cu u : User.t) : option Site.t :=
  c ← company_of app (User.companyId cu);
  find_site (User.assignedSiteId u) (Company.sites c).

(** The attendance invariant of a user record. *)
Definition user_inv (u : User.t) : Prop :=
  (User.status u = Some checked_in -> is_Some (User.checkInTime u)) /\
  (User.status u = Some checked_out -> User.checkInTime u = None).

Definition db_inv (app : HRApp) : Prop :=
  forall k u, users (mockDB app) !! k = Some u -> user_inv u.

(** The state a successful check-in leaves. *)
Definition checked_in_state (clk : Clock) (app : HRApp) (username : string)
    (cu u : User.t) (pos : Position.t) (c : Company.t) (site : Site.t) : HRApp :=
  let u1 := with_lastPing (Some (Date_now clk))
              (with_checkInTime (Some (Date_now clk))
                 (with_status (Some checked_in) u)) in
  let point := HistoryPoint.mk (Position.lat pos) (Position.lng pos)
                 (toLocaleString clk) (Site.id site) in
  let u2 := with_history
              (Some (push_capped point (default [] (User.history u1)))) u1 in
  let entry := LogEntry.mk username ("Check-In @ " +:+ Site.name site)
                 (toLocaleTimeString clk) in
  set_companies
    <[key_of (User.companyId cu) :=
        with_logs (unshift_capped entry (Company.logs c)) c]>
    (set_trackingInterval true
       (set_users <[username := u2]> (set_users <[username := u1]> app))).

(** A method preserves the invariant, however it ends. *)
Definition preserves (m : Method) : Prop :=
  forall app, db_inv app -> db_inv (state_of (m app)).

(** The states the system can reach from the initial one: each operation
    runs on the state the one before it left, whether it returned or
    stopped on a [TypeError]. *)
Fixpoint run_all (ops : list Op) (app : HRApp) : HRApp :=
  match ops with
  | [] => app
  | op :: rest => run_all rest (state_of (run op app))
  end.

End Operations.

(** ** Example states *)

Definition demo_site : Site.t := Site.mk "site_s" "S" 0 0.

Definition demo_company : Company.t :=
  Company.mk (Some "Acme") [demo_site]
    [Employee.mk "bob" "bob@acme.test" "site_s"] [].

Definition other_company : Company.t :=
  Company.mk (Some "Other") [] [Employee.mk "eve" "eve@other.test" "site_o"] [].

Definition bob : User.t :=
  User.mk employee (Some "ACME1234") (Some "bob@acme.test") None None
    (Some "site_s") (Some checked_out) None None true None None.

Definition boss : User.t :=
  User.mk manager (Some "ACME1234") None None None None None None None
    true (Some "4321") (Some []).

(** An employee of another company. *)
Definition eve : User.t :=
  User.mk employee (Some "OTHR5678") (Some "eve@other.test") None None
    (Some "site_o") (Some checked_out) None None true None None.

(** An employee whose company record does not exist. *)
Definition dan : User.t :=
  User.mk employee (Some "GONE0000") (Some "dan@gone.test") None None
    (Some "site_g") (Some checked_out) None None true None None.

Definition demo_db : DB :=
  mkDB
    (<["OTHR5678" := other_company]> {[ "ACME1234" := demo_company ]})
    (<["dan" := dan]> (<["eve" := eve]> (<["boss" := boss]> {[ "bob" := bob ]}))).

Definition demo_clock : Clock := mkClock 1767258000000 "09:00:00" "1/1/2026, 09:00:00".

(** The position of the demo site, and a position one degree of
    longitude east of it. *)
Definition at_site : Position.t := Position.mk 0 0.

Definition one_degree_east : Position.t := Position.mk 0 1.

Definition demo_app (cu : option (string * User.t)) (pos : option Position.t)
  : HRApp :=
  mkApp demo_db cu pos None false.

(** Bob checked in at his site since the clock reading. *)
Definition bob_checked_in : User.t :=
  with_checkInTime (Some (Date_now demo_clock))
    (with_status (Some checked_in) bob).

Definition demo_app_checked_in : HRApp :=
  set_users <["bob" := bob_checked_in]>
    (demo_app (Some ("bob", bob)) (Some at_site)).

(** Sixty samples taken at sixty latitudes, and twenty-five log entries
    with the actions "A", "B", ... *)
Definition demo_samples : list Sample :=
  map (fun n => mkSample (Position.mk (of_uint63 (Uint63.of_Z (Z.of_nat n))) 0) demo_clock "site_s") (seq 0 60).

Definition demo_entries : list LogEntry.t :=
  map (fun n => LogEntry.mk "bob" (String (ascii_of_nat (65 + n)) "") "09:00:00")
    (seq 0 25).

(** ** A site and its antipode *)

(** A site at 8 degrees south on the antimeridian, and the position
    opposite to it on the globe. *)
Definition antipode_site : Site.t := Site.mk "site_s" "S" (-8) 180.

Definition antipode_position : Position.t := Position.mk 8 0.

(** The demo store with the site moved there. *)
Definition antipode_db : DB :=
  mkDB
    (<["ACME1234" := with_sites [antipode_site] demo_company]>
       (companies demo_db))
    (users demo_db).

Definition antipode_app (cu : option (string * User.t)) (pos : option Position.t)
  : HRApp :=
  mkApp antipode_db cu pos None false.

(** Bob checked in at the site. *)
Definition antipode_app_checked_in : HRApp :=
  set_users <["bob" := bob_checked_in]>
    (antipode_app (Some ("bob", bob)) (Some (Position.mk (-8) 180))).

(** The four results of [Math.sin] and [Math.cos] that the distance from
    (8, 0) to (-8, 180) is computed from: each is the binary64
    number nearest to the exact value, and what the C library returns. *)
Definition antipode_values `{JSMath} : Prop :=
  Math_sin (-0.13962634015954636) = (-0.13917310096006544)%float /\
  Math_sin 1.5707963267948966 = 1%float /\
  Math_cos 0.13962634015954636 = 0.9902680687415704%float /\
  Math_cos (-0.13962634015954636) = 0.9902680687415704%float.

(** The three results that the distance from (0, 0) to (0, 1) is
    computed from, likewise. *)
Definition one_degree_values `{JSMath} : Prop :=
  Math_cos 0 = 1%float /\
  Math_sin 0.008726646259971648 = 0.008726535498373935%float /\
  Math_atan2 0.008726535498373935 0.9999619230641713 =
    0.008726646259971648%float.

(** ** A library of recorded results *)

(** The recorded result for the argument [x], or [default]. *)
Definition table (entries : list (float * float)) (default x : float) : float :=
  match List.find (fun e => Leibniz.eqb (fst e) x) entries with
  | Some e => snd e
  | None => default
  end.

(** Results of [Math.sin], [Math.cos] and [Math.atan2] at the arguments
    that the examples of this file reach: the binary64 numbers nearest to
    the exact values. *)
Definition recorded_sin : list (float * float) :=
  [(0, 0); (-0, -0);
   (0.008726646259971648, 0.008726535498373935);
   (-0.008726646259971648, -0.008726535498373935);
   (-0.13962634015954636, -0.13917310096006544);
   (1.5707963267948966, 1)]%float.

Definition recorded_cos : list (float * float) :=
  [(0, 1); (-0, 1);
   (0.13962634015954636, 0.9902680687415704);
   (-0.13962634015954636, 0.9902680687415704)]%float.

Definition recorded_atan2 (y x : float) : float :=
  if Leibniz.eqb y 0.008726535498373935 && Leibniz.eqb x 0.9999619230641713
  then 0.008726646259971648%float
  else nan.

(** A library that answers with the recorded results; at the other
    arguments it answers as ECMA-262 prescribes where it does, and else
    [NaN] for the sine and the arc tangent and 1 for the cosine of a
    finite number.  The examples never take it there. *)
Definition recorded_math : JSMath.
Proof.
  refine {|
    Math_sin := table recorded_sin nan;
    Math_cos := fun x => if is_finite x then table recorded_cos 1 x else nan;
    Math_atan2 := fun y x =>
      if Leibniz.eqb y 0 && (0 <? x)%float then 0%float
      else if is_nan y || is_nan x then nan
      else recorded_atan2 y x |}.
  - reflexivity.
  - reflexivity.
  - intros x ->. unfold table, recorded_cos. simpl.
    repeat case_match; simplify_eq; reflexivity.
  - reflexivity.
  - intros y. change (0 <? nan)%float with false.
    rewrite andb_false_r. change (is_nan nan) with true.
    rewrite orb_true_r. reflexivity.
  - intros x ->. reflexivity.
Defined.

#[global] Existing Instance recorded_math.

(** ** Properties of the whole store *)

Definition keeps (I : HRApp -> Prop) (m : Method) : Prop :=
  forall app, I app -> I (state_of (m app)).

Definition caps_inv (app : HRApp) : Prop :=
  (forall k u h, users (mockDB app) !! k = Some u ->
                 User.history u = Some h -> length h <= 50) /\
  (forall k c, companies (mockDB app) !! k = Some c ->
               length (Company.logs c) <= 20).

(** A company id held by a record names a company of the store. *)
Definition company_known (app : HRApp) (companyId : option string) : Prop :=
  forall c, companyId = Some c -> is_Some (companies (mockDB app) !! c).

(** Referential integrity of the store and the session: the company ids
    of all user records and of the session name companies of the store. *)
Definition intact (app : HRApp) : Prop :=
  (forall k u, users (mockDB app) !! k = Some u ->
               company_known app (User.companyId u)) /\
  (forall name cu, currentUser app = Some (name, cu) ->
                   company_known app (User.companyId cu)).

(** No roster lists a user name twice. *)
Definition rosters_distinct (app : HRApp) : Prop :=
  forall k c, companies (mockDB app) !! k = Some c ->
              NoDup (map Employee.username (Company.employees c)).

(** What stays of a user record while it exists: its role, its company
    once it has one, and its verification once it is verified. *)
Definition same_account (u u' : User.t) : Prop :=
  User.role u' = User.role u /\
  (User.verified u = true -> User.verified u' = true) /\
  (forall c, User.companyId u = Some c -> User.companyId u' = Some c).

(** Every record of [app0] is still in [app], as the same account. *)
Definition accounts_kept (app0 app : HRApp) : Prop :=
  forall k u, users (mockDB app0) !! k = Some u ->
              exists u', users (mockDB app) !! k = Some u' /\ same_account u u'.

(** Every company of [app0] is still in [app]. *)
Definition companies_kept (app0 app : HRApp) : Prop :=
  forall k, is_Some (companies (mockDB app0) !! k) ->
            is_Some (companies (mockDB app) !! k).

(** Bob's manager checked in nobody yet: the demo store with the session
    of the manager. *)
Definition boss_app : HRApp := demo_app (Some ("boss", boss)) (Some at_site).

(** Ann registered herself with a passcode and was linked to "ACME1234"
    by the manager; she has not verified her account. *)
Definition ann : User.t :=
  User.mk employee (Some "ACME1234") (Some "ann@acme.test") None (Some "s3cret")
    (Some "site_s") (Some checked_out) None None false (Some "7788") (Some []).

Definition ann_app (pos : option Position.t) : HRApp :=
  set_users <["ann" := ann]> (demo_app None pos).

(** Dan checked in, in a session whose company record is missing. *)
Definition dan_checked_in : User.t :=
  with_checkInTime (Some (Date_now demo_clock)) (with_status (Some checked_in) dan).

Definition dan_app : HRApp :=
  set_users <["dan" := dan_checked_in]> (demo_app (Some ("dan", dan)) None).

(** The site [updateSiteLocation] writes back, and the test by which it
    finds the site. *)
Definition moved_to (lat lng : float) (s : Site.t) : Site.t :=
  Site.mk (Site.id s) (Site.name s) lat lng.

Definition has_site_id (siteId : string) (s : Site.t) : bool :=
  bool_decide (Some (Site.id s) = Some siteId).



(** ** The shift timer *)

(** The three numbers [startTimer] shows each second, from the elapsed
    milliseconds [diff = Date.now() - startTime]: [Math.floor] of a
    quotient is the floor division, [%] the remainder that takes the sign
    of the dividend. *)
Definition timer_hours (diff : Z) : Z := (diff / (1000 * 60 * 60))%Z.

Definition timer_minutes (diff : Z) : Z :=
  (Z.rem diff (1000 * 60 * 60) / (1000 * 60))%Z.

Definition timer_seconds (diff : Z) : Z := (Z.rem diff (1000 * 60) / 1000)%Z.

(** Whether the text gets the suffix " (RE-CHECK REQUIRED)". *)
Definition timer_recheck (diff : Z) : bool := (2 <=? timer_hours diff)%Z.

(** ** The history view *)

(** What [viewEmployeeHistory(username)] shows: the notice that there is
    no history, or the points of the history, last recorded first. *)
Inductive HistoryView :=
| no_history_found (username : string)
| history_listing (username : string) (points : list HistoryPoint.t).

Definition viewEmployeeHistory (username : string) (app : HRApp) : HistoryView :=
  match users (mockDB app) !! username with
  | None => no_history_found username
  | Some user =>
    match User.history user with
    | None | Some [] => no_history_found username
    | Some history => history_listing username (rev history)
    end
  end.


(* ================================================================== *)
(** * Part II. Properties *)
(* ================================================================== *)

(** ** Binary64 arithmetic *)

Section Rounding.
Local Open Scope Z_scope.

Lemma digits2_pos_size p : digits2_pos p = Pos.size p.
Proof. induction p; simpl; congruence. Qed.

Lemma Zdigits2_bound z k : 0 <= z < 2 ^ k -> 0 <= k -> Zdigits2 z <= k.
Proof.
  intros [Hz Hlt] Hk. destruct z as [|p|p]; simpl; [lia | | lia].
  rewrite digits2_pos_size.
  pose proof (Pos.size_le p) as Hs.
  apply Pos2Z.pos_le_pos in Hs. rewrite Pos2Z.inj_pow in Hs.
  change (Z.pos p~0) with (2 * Z.pos p) in Hs.
  assert (2 ^ Z.pos (Pos.size p) < 2 ^ (k + 1)) as H.
  { rewrite Z.pow_add_r by lia. lia. }
  apply Z.pow_lt_mono_r_iff in H; lia.
Qed.

Lemma iter_pos_inv {A} (P : A -> Prop) (f : A -> A) :
  (forall x, P x -> P (f x)) ->
  forall n x, P x -> P (SpecFloat.iter_pos f n x).
Proof.
  intros Hf. induction n; intros x Hx; simpl; auto.
Qed.

Lemma shr_1_bounds B r : 0 <= shr_m r <= B -> 0 <= shr_m (shr_1 r) <= B.
Proof.
  destruct r as [m r s]. simpl. intros H.
  destruct m as [|[p|p|]|[p|p|]]; simpl; lia.
Qed.

Lemma Zdigits2_gt m : 0 <= m -> m < 2 ^ Zdigits2 m.
Proof.
  destruct m as [|p|p]; simpl; [lia | | lia]. intros _.
  rewrite digits2_pos_size.
  pose proof (Pos.size_gt p) as Hs.
  apply Pos2Z.pos_lt_pos in Hs. now rewrite Pos2Z.inj_pow in Hs.
Qed.

Lemma shr_1_half r :
  0 <= shr_m r -> 0 <= shr_m (shr_1 r) /\ 2 * shr_m (shr_1 r) <= shr_m r.
Proof.
  destruct r as [m r s]. simpl. intros H.
  destruct m as [|[p|p|]|[p|p|]]; simpl; lia.
Qed.

(** [n] right shifts divide the mantissa by [2 ^ n]. *)
Lemma iter_shr_1_half n :
  forall r, 0 <= shr_m r ->
    0 <= shr_m (SpecFloat.iter_pos shr_1 n r) /\
    2 ^ Z.pos n * shr_m (SpecFloat.iter_pos shr_1 n r) <= shr_m r.
Proof.
  induction n as [n IH|n IH|]; intros r Hr; simpl SpecFloat.iter_pos.
  - destruct (shr_1_half _ Hr) as [H1 H2].
    destruct (IH _ H1) as [H3 H4].
    destruct (IH _ H3) as [H5 H6].
    split; [exact H5|].
    replace (Z.pos n~1) with (Z.pos n + Z.pos n + 1) by lia.
    rewrite !Z.pow_add_r by lia. change (2 ^ 1) with 2.
    assert (0 < 2 ^ Z.pos n) by (apply Z.pow_pos_nonneg; lia). nia.
  - destruct (IH r Hr) as [H1 H2].
    destruct (IH _ H1) as [H3 H4].
    split; [exact H3|].
    replace (Z.pos n~0) with (Z.pos n + Z.pos n) by lia.
    rewrite Z.pow_add_r by lia.
    assert (0 < 2 ^ Z.pos n) by (apply Z.pow_pos_nonneg; lia). nia.
  - destruct (shr_1_half _ Hr) as [H1 H2]. split; [exact H1|].
    change (2 ^ 1) with 2. exact H2.
Qed.

(** One rounding step leaves a mantissa of at most 53 bits. *)
Lemma shr_fexp_mantissa m e l :
  0 <= m -> 0 <= shr_m (fst (shr_fexp prec emax m e l)) < 2 ^ 53.
Proof.
  intros Hm. unfold shr_fexp, shr.
  assert (shr_m (shr_record_of_loc m l) = m) as Hrec.
  { destruct l as [|[| |]]; reflexivity. }
  pose proof (Zdigits2_gt m Hm) as Hd.
  assert (0 <= Zdigits2 m) as Hd0 by (destruct m; simpl; lia).
  assert (forall k, Zdigits2 m <= k + 53 -> 0 <= k -> m < 2 ^ k * 2 ^ 53) as Hk.
  { intros k Hle Hk0. rewrite <- Z.pow_add_r by lia.
    eapply Z.lt_le_trans; [exact Hd|]. apply Z.pow_le_mono_r; lia. }
  destruct (fexp prec emax (Zdigits2 m + e) - e) as [|p|p] eqn:En; simpl.
  - rewrite Hrec. split; [lia|].
    specialize (Hk 0). rewrite Z.mul_1_l in Hk. apply Hk; [|lia].
    unfold fexp, prec in En. lia.
  - destruct (iter_shr_1_half p (shr_record_of_loc m l)) as [H1 H2];
      [rewrite Hrec; lia|].
    rewrite Hrec in H2. split; [exact H1|].
    assert (m < 2 ^ Z.pos p * 2 ^ 53) as Hlt.
    { apply Hk; [|lia]. unfold fexp, prec in En. lia. }
    assert (0 < 2 ^ Z.pos p) by (apply Z.pow_pos_nonneg; lia). nia.
  - rewrite Hrec. split; [lia|].
    specialize (Hk 0). rewrite Z.mul_1_l in Hk. apply Hk; [|lia].
    unfold fexp, prec in En. lia.
Qed.

(** One rounding step leaves a mantissa between 0 and the one it was
    given, and an exponent that is the given one or the canonical one. *)
Lemma shr_fexp_bounds m e l :
  0 <= m ->
  0 <= shr_m (fst (shr_fexp prec emax m e l)) <= m /\
  (snd (shr_fexp prec emax m e l) = e \/
   snd (shr_fexp prec emax m e l) = fexp prec emax (Zdigits2 m + e)).
Proof.
  intros Hm. unfold shr_fexp, shr.
  assert (shr_m (shr_record_of_loc m l) = m) as Hrec.
  { destruct l as [|[| |]]; reflexivity. }
  destruct (fexp prec emax (Zdigits2 m + e) - e) as [|p|p] eqn:En; simpl.
  - rewrite Hrec. split; [lia | auto].
  - split.
    + apply (iter_pos_inv (fun r => 0 <= shr_m r <= m)).
      * intros x. apply shr_1_bounds.
      * rewrite Hrec. lia.
    + right. lia.
  - rewrite Hrec. split; [lia | auto].
Qed.

Lemma round_nearest_even_bounds m l :
  m <= round_nearest_even m l <= m + 1.
Proof.
  unfold round_nearest_even.
  destruct l as [|[| |]]; try lia. destruct (Z.even m); lia.
Qed.

(** A product of two mantissas with an exponent far enough from the
    largest is rounded to a zero or to a finite number: no overflow. *)
Lemma binary_round_aux_finite s m e :
  0 <= m < 2 ^ 106 -> e <= 917 ->
  finite_SF (binary_round_aux prec emax s m e loc_Exact).
Proof.
  intros Hm He. unfold binary_round_aux.
  pose proof (shr_fexp_bounds m e loc_Exact ltac:(lia)) as [Hm1 He1].
  pose proof (shr_fexp_mantissa m e loc_Exact ltac:(lia)) as Hm1'.
  destruct (shr_fexp prec emax m e loc_Exact) as [mrs' e'] eqn:E1.
  simpl in Hm1, He1, Hm1'.
  set (m2 := round_nearest_even (shr_m mrs') (loc_of_shr_record mrs')).
  pose proof (round_nearest_even_bounds (shr_m mrs') (loc_of_shr_record mrs'))
    as Hm2.
  fold m2 in Hm2.
  pose proof (shr_fexp_bounds m2 e' loc_Exact ltac:(lia)) as [Hm3 He3].
  destruct (shr_fexp prec emax m2 e' loc_Exact) as [mrs'' e''] eqn:E2.
  simpl in Hm3, He3.
  assert (Zdigits2 m <= 106) as Hd by (apply Zdigits2_bound; lia).
  assert (Zdigits2 m2 <= 54) as Hd2.
  { apply Zdigits2_bound; [|lia]. change (2 ^ 54) with (2 * 2 ^ 53). lia. }
  assert (0 <= Zdigits2 m) as Hd0 by (destruct m; simpl; lia).
  assert (0 <= Zdigits2 m2) as Hd20 by (destruct m2; simpl; lia).
  assert (e'' <= 971) as Hle.
  { unfold fexp, SpecFloat.emin, prec, emax in *. lia. }
  destruct (shr_m mrs'') as [|p|p]; [exact I | | lia].
  change (emax - prec) with 971.
  apply Z.leb_le in Hle. rewrite Hle. exact I.
Qed.

Lemma valid_digits m e : bounded prec emax m e = true -> Z.pos m < 2 ^ 53.
Proof.
  unfold bounded, canonical_mantissa. intros H.
  apply andb_prop in H as [H _]. apply Z.eqb_eq in H.
  rewrite digits2_pos_size in H.
  pose proof (Pos.size_gt m) as Hs.
  apply Pos2Z.pos_lt_pos in Hs. rewrite Pos2Z.inj_pow in Hs.
  assert (Z.pos (Pos.size m) <= 53) as Hle.
  { unfold fexp, SpecFloat.emin, prec, emax in H. lia. }
  eapply Z.lt_le_trans; [exact Hs|].
  apply Z.pow_le_mono_r; lia.
Qed.

End Rounding.

Section Binary64.

Lemma is_finite_SF x : is_finite x = true <-> finite_SF (Prim2SF x).
Proof.
  unfold is_finite, is_nan, is_infinity.
  rewrite !FloatAxioms.eqb_spec, FloatAxioms.abs_spec.
  change (Prim2SF infinity) with (S754_infinity false).
  destruct (Prim2SF x) as [[]|[]| |[] m e]; simpl;
    try tauto; try (split; [discriminate | tauto]);
    unfold SFeqb, SFcompare; rewrite Z.compare_refl, Pos.compare_cont_refl;
    simpl; tauto.
Qed.

Lemma below_finite E x : below_SF E x -> finite_SF x.
Proof. destruct x; simpl; auto. Qed.

(** A number of absolute value at most [b] has at most the exponent of
    [b]. *)
Lemma leb_abs_below x b mb eb :
  Prim2SF b = S754_finite false mb eb ->
  (abs x <=? b)%float = true -> below_SF eb (Prim2SF x).
Proof.
  intros Hb. rewrite FloatAxioms.leb_spec, FloatAxioms.abs_spec, Hb.
  destruct (Prim2SF x) as [s|s| |s m e]; simpl; try discriminate; auto.
  unfold SFleb, SFcompare.
  destruct (Z.compare_spec e eb); try lia; discriminate.
Qed.

(** A number has at most the largest exponent. *)
Lemma finite_below x : is_finite x = true -> below_SF 971 (Prim2SF x).
Proof.
  intros H. apply is_finite_SF in H. pose proof (Prim2SF_valid x) as V.
  destruct (Prim2SF x) as [s|s| |s m e]; simpl in *; try tauto.
  unfold bounded in V. apply andb_prop in V as [_ V].
  apply Z.leb_le in V. exact V.
Qed.

(** The product of two numbers of moderate size is a number. *)
Lemma mul_below Ex Ey x y :
  below_SF Ex (Prim2SF x) -> below_SF Ey (Prim2SF y) -> (Ex + Ey <= 917)%Z ->
  is_finite (x * y) = true.
Proof.
  intros Hx Hy HE. apply is_finite_SF. rewrite FloatAxioms.mul_spec.
  pose proof (Prim2SF_valid x) as Vx. pose proof (Prim2SF_valid y) as Vy.
  destruct (Prim2SF x) as [sx|sx| |sx mx ex], (Prim2SF y) as [sy|sy| |sy my ey];
    simpl in *; try tauto.
  pose proof (valid_digits _ _ Vx). pose proof (valid_digits _ _ Vy).
  apply binary_round_aux_finite; [|lia].
  split; [lia|]. rewrite Pos2Z.inj_mul.
  change (2 ^ 106)%Z with (2 ^ 53 * 2 ^ 53)%Z. nia.
Qed.

Lemma mul_zero_cases p :
  (p * 0)%float = 0%float \/ (p * 0)%float = (-0)%float \/ (p * 0)%float = nan.
Proof.
  destruct (Prim2SF p) as [s|s| |s m e] eqn:E.
  - destruct s; [right; left | left]; apply Prim2SF_inj;
      rewrite FloatAxioms.mul_spec, E; reflexivity.
  - right; right. apply Prim2SF_inj; rewrite FloatAxioms.mul_spec, E; reflexivity.
  - right; right. apply Prim2SF_inj; rewrite FloatAxioms.mul_spec, E; reflexivity.
  - destruct s; [right; left | left]; apply Prim2SF_inj;
      rewrite FloatAxioms.mul_spec, E; reflexivity.
Qed.

Lemma mul_finite_zero p :
  is_finite p = true ->
  (p * 0)%float = 0%float \/ (p * 0)%float = (-0)%float.
Proof.
  intros H. apply is_finite_SF in H.
  destruct (Prim2SF p) as [s|s| |s m e] eqn:E; simpl in H; try tauto.
  - destruct s; [right | left]; apply Prim2SF_inj;
      rewrite FloatAxioms.mul_spec, E; reflexivity.
  - destruct s; [right | left]; apply Prim2SF_inj;
      rewrite FloatAxioms.mul_spec, E; reflexivity.
Qed.

Lemma mul_nan_r x : (x * nan)%float = nan.
Proof.
  apply Prim2SF_inj. rewrite FloatAxioms.mul_spec.
  change (Prim2SF nan) with S754_nan.
  destruct (Prim2SF x); reflexivity.
Qed.

Lemma add_nan_l y : (nan + y)%float = nan.
Proof.
  apply Prim2SF_inj. rewrite FloatAxioms.add_spec.
  change (Prim2SF nan) with S754_nan. reflexivity.
Qed.

Lemma eqb_nan_l y : (nan =? y)%float = false.
Proof.
  rewrite FloatAxioms.eqb_spec. change (Prim2SF nan) with S754_nan.
  reflexivity.
Qed.

Lemma sub_self_cases x : (x - x)%float = 0%float \/ (x - x)%float = nan.
Proof.
  destruct (Prim2SF x) as [s|s| |s m e] eqn:E.
  - left. apply Prim2SF_inj. rewrite FloatAxioms.sub_spec, E.
    destruct s; reflexivity.
  - right. apply Prim2SF_inj. rewrite FloatAxioms.sub_spec, E.
    destruct s; reflexivity.
  - right. apply Prim2SF_inj. rewrite FloatAxioms.sub_spec, E. reflexivity.
  - left. apply Prim2SF_inj. rewrite FloatAxioms.sub_spec, E.
    unfold SF64sub, SFsub. rewrite Z.sub_diag. reflexivity.
Qed.

Lemma sub_self x : is_finite x = true -> (x - x)%float = 0%float.
Proof.
  intros H. apply is_finite_SF in H.
  apply Prim2SF_inj. rewrite FloatAxioms.sub_spec.
  destruct (Prim2SF x) as [s|s| |s m e]; simpl in H; try tauto.
  - destruct s; reflexivity.
  - unfold SF64sub, SFsub. rewrite Z.sub_diag. reflexivity.
Qed.

End Binary64.

(** ** The distance calculator *)

Section Distance.
Context {M : JSMath}.

(** Degrees that are a number convert to an angle that is a number. *)
Lemma deg2rad_finite deg :
  is_finite deg = true -> is_finite (deg2rad deg) = true.
Proof.
  intros H. unfold deg2rad.
  eapply (mul_below 971 (-58)); [| |lia].
  - apply finite_below, H.
  - change (Prim2SF (Math_PI / 180))
      with (S754_finite false 5030569068109113 (-58)).
    simpl. lia.
Qed.

Lemma cos_deg2rad_squared_finite deg :
  is_finite deg = true ->
  is_finite (Math_cos (deg2rad deg) * Math_cos (deg2rad deg)) = true.
Proof.
  intros H. pose proof (Math_cos_range _ (deg2rad_finite _ H)) as Hc.
  eapply (mul_below (-52) (-52)); [| |lia];
    (eapply leb_abs_below; [|exact Hc]; reflexivity).
Qed.

(** From a point to itself the quantity [a] is [+0], or [NaN] when a
    coordinate or the product of the cosines is not a number. *)
Lemma haversine_a_self lat lng :
  haversine_a lat lng lat lng = 0%float \/ haversine_a lat lng lat lng = nan.
Proof.
  unfold haversine_a, deg2rad.
  destruct (sub_self_cases lat) as [-> | ->].
  - change (0 * (Math_PI / 180) / 2)%float with 0%float.
    rewrite Math_sin_zero.
    change (0 * 0)%float with 0%float.
    destruct (sub_self_cases lng) as [-> | ->].
    + change (0 * (Math_PI / 180) / 2)%float with 0%float.
      rewrite Math_sin_zero.
      destruct (mul_zero_cases (Math_cos (lat * (Math_PI / 180)) *
                                Math_cos (lat * (Math_PI / 180))))
        as [-> | [-> | ->]]; vm_compute; auto.
    + change (nan * (Math_PI / 180) / 2)%float with nan.
      rewrite Math_sin_nan, !mul_nan_r. right. reflexivity.
  - change (nan * (Math_PI / 180) / 2)%float with nan.
    rewrite Math_sin_nan. change (nan * nan)%float with nan.
    rewrite add_nan_l. now right.
Qed.

Lemma distance_of_a_zero lat1 lon1 lat2 lon2 :
  haversine_a lat1 lon1 lat2 lon2 = 0%float ->
  getDistanceFromLatLonInMeters lat1 lon1 lat2 lon2 = 0%float.
Proof.
  intros Ha. unfold getDistanceFromLatLonInMeters. rewrite Ha.
  change (sqrt 0) with 0%float. change (sqrt (1 - 0)) with 1%float.
  rewrite Math_atan2_zero by reflexivity. reflexivity.
Qed.

Lemma distance_of_a_nan lat1 lon1 lat2 lon2 :
  haversine_a lat1 lon1 lat2 lon2 = nan ->
  getDistanceFromLatLonInMeters lat1 lon1 lat2 lon2 = nan.
Proof.
  intros Ha. unfold getDistanceFromLatLonInMeters. rewrite Ha.
  change (sqrt nan) with nan.
  rewrite Math_atan2_nan_y. reflexivity.
Qed.

(** The distance from a point to itself is never found greater than the
    geofence radius, whatever the coordinates are. *)
Lemma distance_self_not_far lat lng :
  gt (getDistanceFromLatLonInMeters lat lng lat lng) MAX_DISTANCE_METERS = false.
Proof.
  destruct (haversine_a_self lat lng) as [Ha | Ha].
  - rewrite (distance_of_a_zero _ _ _ _ Ha). reflexivity.
  - rewrite (distance_of_a_nan _ _ _ _ Ha). reflexivity.
Qed.

(** When the coordinates are numbers it is exactly 0. *)
Lemma distance_self lat lng :
  is_finite lat = true -> is_finite lng = true ->
  getDistanceFromLatLonInMeters lat lng lat lng = 0%float.
Proof.
  intros Flat Flng. apply distance_of_a_zero.
  unfold haversine_a, deg2rad.
  rewrite (sub_self lat Flat), (sub_self lng Flng).
  change (0 * (Math_PI / 180) / 2)%float with 0%float.
  rewrite Math_sin_zero.
  destruct (mul_finite_zero _ (cos_deg2rad_squared_finite lat Flat)) as [E | E];
    unfold deg2rad in E; rewrite E; reflexivity.
Qed.

(** At the antipode, with the four results the libraries return, the
    quantity [a] is rounded above 1, the square root of [1 - a] is [NaN],
    and so is the distance. *)
Lemma distance_antipode_nan :
  antipode_values ->
  getDistanceFromLatLonInMeters 8 0 (-8) 180 = nan.
Proof.
  intros (Hs1 & Hs2 & Hc1 & Hc2).
  unfold getDistanceFromLatLonInMeters, haversine_a, deg2rad.
  change ((-8 - 8) * (Math_PI / 180) / 2)%float
    with (-0.13962634015954636)%float.
  change ((180 - 0) * (Math_PI / 180) / 2)%float
    with (1.5707963267948966)%float.
  change (8 * (Math_PI / 180))%float with (0.13962634015954636)%float.
  change (-8 * (Math_PI / 180))%float with (-0.13962634015954636)%float.
  rewrite Hs1, Hs2, Hc1, Hc2.
  change (sqrt (1 - (-0.13917310096006544 * -0.13917310096006544 +
                     0.9902680687415704 * 0.9902680687415704 * 1 * 1)))%float
    with nan.
  rewrite Math_atan2_nan_x. reflexivity.
Qed.

(** From (0, 0) to (0, 1), with the results the libraries return. *)
Lemma distance_one_degree :
  one_degree_values ->
  getDistanceFromLatLonInMeters 0 0 0 1 = 111194.92664455873%float.
Proof.
  intros (Hc & Hs & Ht).
  unfold getDistanceFromLatLonInMeters, haversine_a, deg2rad.
  change ((0 - 0) * (Math_PI / 180) / 2)%float with 0%float.
  change ((1 - 0) * (Math_PI / 180) / 2)%float
    with (0.008726646259971648)%float.
  change (0 * (Math_PI / 180))%float with 0%float.
  rewrite Math_sin_zero, Hc, Hs.
  change (sqrt (0 * 0 + 1 * 1 * 0.008726535498373935 * 0.008726535498373935))%float
    with (0.008726535498373935)%float.
  change (sqrt (1 - (0 * 0 + 1 * 1 * 0.008726535498373935 *
                     0.008726535498373935)))%float
    with (0.9999619230641713)%float.
  rewrite Ht. reflexivity.
Qed.

(** C7. The distance is computed from the four arguments alone, and from
    a point whose coordinates are numbers to itself it is exactly 0.  It is
    not symmetric under [==]: from (8, 0) to (-8, 180), the antipode, the
    libraries' sines and cosines make the quantity [a] 1.0000000000000002,
    the distance is [NaN], and [distance(a, b) == distance(b, a)] is
    false. *)
Theorem distance_antipode_not_symmetric :
  antipode_values ->
  (forall lat lng,
      is_finite lat = true -> is_finite lng = true ->
      getDistanceFromLatLonInMeters lat lng lat lng = 0%float) /\
  is_nan (getDistanceFromLatLonInMeters 8 0 (-8) 180) = true /\
  (getDistanceFromLatLonInMeters 8 0 (-8) 180 =?
   getDistanceFromLatLonInMeters (-8) 180 8 0)%float = false.
Proof.
  intros Hv. split; [exact distance_self|].
  rewrite (distance_antipode_nan Hv). split; [reflexivity|apply eqb_nan_l].
Qed.

End Distance.

Section SpecifiedDistance.
Local Open Scope R_scope.

(** Two terms of each side of the Machin-like series for [PI / 4]. *)
Lemma PI_bounds : 3.141 < PI < 3.143.
Proof.
  pose proof (PI_2_3_7_ineq 1) as [Hlo Hhi].
  unfold PI_2_3_7_tg, tg_alt, Ratan_seq in Hlo, Hhi.
  simpl in Hlo, Hhi.
  split; lra.
Qed.

(** The haversine formula gives half the circumference of the Earth
    between (8, 0) and (-8, 180). *)
Lemma spec_haversine_antipode :
  spec_haversine_meters 8 0 (-8) 180 = 6371000 * PI.
Proof.
  unfold spec_haversine_meters. cbv zeta.
  replace ((-8 - 8) * PI / 180 / 2) with (- (8 * PI / 180)) by lra.
  replace ((180 - 0) * PI / 180 / 2) with (PI / 2) by lra.
  replace (-8 * PI / 180) with (- (8 * PI / 180)) by lra.
  rewrite sin_neg, cos_neg, sin_PI2.
  replace ((- sin (8 * PI / 180))² + cos (8 * PI / 180) * cos (8 * PI / 180) * 1²)
    with ((sin (8 * PI / 180))² + (cos (8 * PI / 180))²)
    by (unfold Rsqr; ring).
  rewrite sin2_cos2, sqrt_1, asin_1. lra.
Qed.

End SpecifiedDistance.

Section DistanceAgainstFormula.
Context {M : JSMath}.

(** C8. The code follows the haversine formula with radius 6371 km and
    angles [deg * (Math.PI / 180)], and returns meters: from (0, 0) to
    (0, 1) it returns 111194.92664455873, within 1% of 111195.  From
    (8, 0) to (-8, 180), where the formula gives half the circumference,
    6371000 pi meters, it returns [NaN]: [a] comes out above 1 and is
    used unclamped under the square root of [1 - a]. *)
Theorem distance_antipode_not_haversine :
  one_degree_values ->
  antipode_values ->
  getDistanceFromLatLonInMeters 0 0 0 1 = 111194.92664455873%float /\
  (111195 * 0.99 <? 111194.92664455873)%float = true /\
  (111194.92664455873 <? 111195 * 1.01)%float = true /\
  is_nan (getDistanceFromLatLonInMeters 8 0 (-8) 180) = true /\
  spec_haversine_meters 8 0 (-8) 180 = (6371000 * PI)%R.
Proof.
  intros H1 Hv.
  split; [exact (distance_one_degree H1)|].
  split; [reflexivity|]. split; [reflexivity|].
  rewrite (distance_antipode_nan Hv).
  split; [reflexivity|exact spec_haversine_antipode].
Qed.

End DistanceAgainstFormula.

(** The two theorems with the recorded library. *)
Lemma distance_antipode_not_symmetric_witness :
  antipode_values /\
  (getDistanceFromLatLonInMeters 8 0 (-8) 180 =?
   getDistanceFromLatLonInMeters (-8) 180 8 0)%float = false.
Proof.
  split; [repeat split; reflexivity|].
  apply distance_antipode_not_symmetric.
  repeat split; reflexivity.
Defined.

Lemma distance_antipode_not_haversine_witness :
  one_degree_values /\ antipode_values /\
  getDistanceFromLatLonInMeters 0 0 0 1 = 111194.92664455873%float /\
  is_nan (getDistanceFromLatLonInMeters 8 0 (-8) 180) = true.
Proof.
  split; [repeat split; reflexivity|].
  split; [repeat split; reflexivity|].
  destruct (distance_antipode_not_haversine) as (H1 & _ & _ & H2 & _);
    [repeat split; reflexivity..|].
  split; [exact H1|exact H2].
Defined.

(** ** Property lookup *)

Section PropertyLookup.
Context {A : Type}.
Implicit Types (obj : gmap string A) (key : string).

Lemma js_get_own obj key a : obj !! key = Some a -> js_get obj key = own a.
Proof. intros H. unfold js_get. now rewrite H. Qed.

Lemma js_get_own_inv obj key a : js_get obj key = own a -> obj !! key = Some a.
Proof.
  unfold js_get. destruct (obj !! key); [congruence|].
  destruct (inherited key); discriminate.
Qed.

Lemma js_get_undefined obj key :
  js_get obj key = undefined <-> obj !! key = None /\ inherited key = false.
Proof.
  unfold js_get. destruct (obj !! key);
    [split; [discriminate | intros [? _]; discriminate]|].
  destruct (inherited key); split; try discriminate; auto.
  intros [_ ?]; discriminate.
Qed.

Lemma js_get_undefined_inv obj key :
  js_get obj key = undefined -> obj !! key = None.
Proof. intros H. now apply js_get_undefined in H. Qed.

Lemma js_get_from_prototype obj key :
  js_get obj key = from_prototype <->
  obj !! key = None /\ inherited key = true.
Proof.
  unfold js_get. destruct (obj !! key);
    [split; [discriminate | intros [? _]; discriminate]|].
  destruct (inherited key); split; try discriminate; auto.
  intros [_ ?]; discriminate.
Qed.

End PropertyLookup.

(** Hypotheses about [obj[key]] as hypotheses about the map. *)
Ltac map_lookups :=
  repeat match goal with
         | H : js_get _ _ = own _ |- _ => apply js_get_own_inv in H
         | H : js_get _ _ = undefined |- _ => apply js_get_undefined_inv in H
         | H : js_get _ _ = from_prototype |- _ =>
           apply js_get_from_prototype in H; destruct H as [H _]
         end.

(** ** Bounded buffers *)

Section Buffers.
Context {M : JSMath}.

Lemma pop_take {A} (l : list A) : pop l = take (length l - 1) l.
Proof.
  unfold pop. rewrite removelast_firstn_len.
  f_equal. lia.
Qed.

Lemma unshift_capped_take e logs :
  length logs <= 20 -> unshift_capped e logs = take 20 (e :: logs).
Proof.
  intros Hlen. unfold unshift_capped. cbv zeta.
  destruct (Nat.ltb_spec 20 (length (e :: logs))) as [Hlt|Hle].
  - rewrite pop_take. f_equal. simpl in *. lia.
  - rewrite take_ge; [reflexivity|]. simpl in *. lia.
Qed.

Lemma unshift_capped_length e logs :
  length logs <= 20 -> length (unshift_capped e logs) <= 20.
Proof.
  intros Hlen. rewrite unshift_capped_take by assumption.
  rewrite length_take. lia.
Qed.

Lemma take_app_take {A} (a b : list A) n m :
  n <= m -> take n (a ++ take m b) = take n (a ++ b).
Proof.
  revert n m. induction a as [|x a IH]; intros n m Hnm; simpl.
  - rewrite take_take. f_equal. lia.
  - destruct n as [|n]; [reflexivity|]. simpl. f_equal.
    apply IH. lia.
Qed.

Lemma push_capped_drop p h :
  length h <= 50 ->
  push_capped p h = drop (length (h ++ [p]) - 50) (h ++ [p]).
Proof.
  intros Hlen. unfold push_capped. cbv zeta.
  rewrite length_app. simpl.
  destruct (Nat.ltb_spec 50 (length h + 1)) as [Hlt|Hle].
  - replace (length h + 1 - 50) with 1 by lia.
    unfold shift. destruct (h ++ [p]); reflexivity.
  - replace (length h + 1 - 50) with 0 by lia. reflexivity.
Qed.

Lemma push_capped_length p h :
  length h <= 50 -> length (push_capped p h) <= 50.
Proof.
  intros Hlen. rewrite push_capped_drop by assumption.
  rewrite length_drop, length_app. simpl. lia.
Qed.

Lemma drop_app_drop {A} (h pts : list A) k :
  k <= length h ->
  drop (length (drop k h ++ pts) - 50) (drop k h ++ pts) =
  drop (k + (length (drop k h ++ pts) - 50)) (h ++ pts).
Proof.
  intros Hk.
  rewrite <- (drop_drop (h ++ pts)).
  rewrite (drop_app_le h pts k) by assumption.
  reflexivity.
Qed.

End Buffers.

(** ** The company log *)

Section CompanyLog.
Context {M : JSMath}.

Lemma with_logs_logs l c : Company.logs (with_logs l c) = l.
Proof. reflexivity. Qed.

Lemma with_logs_twice l1 l2 c : with_logs l1 (with_logs l2 c) = with_logs l1 c.
Proof. reflexivity. Qed.

Lemma with_logs_same c : with_logs (Company.logs c) c = c.
Proof. destruct c; reflexivity. Qed.

Lemma company_of_set_companies_eq app cid c :
  company_of (set_companies <[key_of cid := c]> app) cid = Some c.
Proof. unfold company_of, set_companies; simpl. apply lookup_insert_eq. Qed.

Lemma addLog_returns app cid c username action time :
  company_of app cid = Some c ->
  addLog cid username action time app =
  Returned []
    (set_companies
       <[key_of cid :=
           with_logs (unshift_capped (LogEntry.mk username action time)
                        (Company.logs c)) c]> app).
Proof. intros Hc. unfold addLog. rewrite Hc. reflexivity. Qed.

Lemma addLog_throws app cid username action time :
  company_of app cid = None ->
  addLog cid username action time app = Threw [] app.
Proof. intros Hc. unfold addLog. rewrite Hc. reflexivity. Qed.

(** After the calls, the log holds the 20 newest of the entries added and
    the ones it had, newest first. *)
Lemma addLog_each_logs entries : forall app cid c,
  company_of app cid = Some c ->
  length (Company.logs c) <= 20 ->
  exists app',
    addLog_each cid entries app = Returned [] app' /\
    company_of app' cid =
      Some (with_logs (take 20 (rev entries ++ Company.logs c)) c) /\
    users (mockDB app') = users (mockDB app) /\
    currentUser app' = currentUser app.
Proof.
  induction entries as [|e es IH]; intros app cid c Hc Hlen.
  - exists app. simpl. rewrite take_ge by assumption.
    rewrite with_logs_same. auto.
  - simpl. unfold andThen.
    rewrite (addLog_returns _ _ c) by assumption.
    destruct e as [u a t]; simpl.
    set (c1 := with_logs (unshift_capped (LogEntry.mk u a t) (Company.logs c)) c).
    destruct (IH (set_companies <[key_of cid := c1]> app) cid c1)
      as (app' & Hrun & Hlogs & Husers & Hcu).
    { apply company_of_set_companies_eq. }
    { subst c1. rewrite with_logs_logs. now apply unshift_capped_length. }
    exists app'. rewrite Hrun. simpl. split; [reflexivity|].
    split; [|split; assumption].
    rewrite Hlogs. subst c1.
    rewrite with_logs_logs, with_logs_twice.
    rewrite unshift_capped_take by assumption.
    rewrite take_app_take by lia.
    now rewrite <- app_assoc.
Qed.

(** C6. From an empty company log, 25 calls of [addLog] all return and
    leave a log of length exactly 20 that lists the 20 newest entries,
    newest first (the five oldest are gone); and after any number of the
    calls the log has at most 20 entries. *)
Theorem addLog_25_calls app cid c (entries : list LogEntry.t) :
  company_of app cid = Some c ->
  Company.logs c = [] ->
  length entries = 25 ->
  (exists app' c',
      addLog_each cid entries app = Returned [] app' /\
      company_of app' cid = Some c' /\
      Company.logs c' = rev (drop 5 entries) /\
      length (Company.logs c') = 20) /\
  (forall n, exists app_n c_n,
      addLog_each cid (take n entries) app = Returned [] app_n /\
      company_of app_n cid = Some c_n /\
      Company.logs c_n = take 20 (rev (take n entries)) /\
      length (Company.logs c_n) <= 20).
Proof.
  intros Hc Hempty Hlen.
  assert (Hlen0 : length (Company.logs c) <= 20) by (rewrite Hempty; simpl; lia).
  split.
  - destruct (addLog_each_logs entries app cid c Hc Hlen0)
      as (app' & Hrun & Hlogs & _).
    eexists app', _. split; [exact Hrun|]. split; [exact Hlogs|].
    rewrite with_logs_logs, Hempty, app_nil_r.
    assert (Heq : take 20 (rev entries) = rev (drop 5 entries)).
    { rewrite <- (take_drop 5 entries) at 1.
      rewrite rev_app_distr.
      rewrite take_app_le by (rewrite length_rev, length_drop; lia).
      apply take_ge. rewrite length_rev, length_drop. lia. }
    rewrite Heq. split; [reflexivity|].
    rewrite length_rev, length_drop. lia.
  - intros n.
    destruct (addLog_each_logs (take n entries) app cid c Hc Hlen0)
      as (app' & Hrun & Hlogs & _).
    eexists app', _. split; [exact Hrun|]. split; [exact Hlogs|].
    rewrite with_logs_logs, Hempty, app_nil_r.
    split; [reflexivity|]. rewrite length_take. lia.
Qed.

End CompanyLog.

(** The theorem at the demo state: twenty-five entries go into the empty
    log of "ACME1234". *)
Lemma addLog_25_calls_witness :
  exists app' c',
    addLog_each (Some "ACME1234") demo_entries (demo_app None None) =
      Returned [] app' /\
    company_of app' (Some "ACME1234") = Some c' /\
    Company.logs c' = rev (drop 5 demo_entries) /\
    length (Company.logs c') = 20.
Proof.
  exact (proj1 (addLog_25_calls (demo_app None None) (Some "ACME1234")
                  demo_company demo_entries eq_refl eq_refl eq_refl)).
Defined.

(** ** The location history *)

Section History.
Context {M : JSMath}.

Lemma push_capped_then_drop p h (pts : list HistoryPoint.t) :
  length h <= 50 ->
  drop (length (push_capped p h ++ pts) - 50) (push_capped p h ++ pts) =
  drop (length (h ++ p :: pts) - 50) (h ++ p :: pts).
Proof.
  intros Hlen. rewrite push_capped_drop by assumption.
  set (k := length (h ++ [p]) - 50).
  assert (Hk : k <= length (h ++ [p])) by (subst k; lia).
  rewrite drop_app_drop by assumption.
  rewrite <- app_assoc. simpl. f_equal.
  subst k. rewrite !length_app, length_drop, !length_app. simpl. lia.
Qed.

Lemma with_history_twice h1 h2 u :
  with_history h1 (with_history h2 u) = with_history h1 u.
Proof. reflexivity. Qed.

Lemma with_history_same u : with_history (User.history u) u = u.
Proof. destruct u; reflexivity. Qed.

Lemma trackLocation_returns clk siteId app pos username cu u :
  currentPosition app = Some pos ->
  currentUser app = Some (username, cu) ->
  users (mockDB app) !! username = Some u ->
  trackLocation clk siteId app =
  Returned []
    (set_users
       <[username :=
           with_history
             (Some (push_capped
                      (HistoryPoint.mk (Position.lat pos) (Position.lng pos)
                         (toLocaleString clk) siteId)
                      (default [] (User.history u)))) u]> app).
Proof.
  intros Hpos Hcu Hu. unfold trackLocation. rewrite Hpos, Hcu, Hu. reflexivity.
Qed.

(** After the calls, the history holds the 50 newest of the points it had
    and the points recorded, oldest first. *)
Lemma trackLocation_each_history samples : forall app username cu u,
  currentUser app = Some (username, cu) ->
  users (mockDB app) !! username = Some u ->
  length (default [] (User.history u)) <= 50 ->
  exists app',
    trackLocation_each samples app = Returned [] app' /\
    currentUser app' = currentUser app /\
    users (mockDB app') !! username =
      Some (with_history
              (match samples with
               | [] => User.history u
               | _ :: _ =>
                 let all := default [] (User.history u) ++ map point_of samples in
                 Some (drop (length all - 50) all)
               end) u).
Proof.
  induction samples as [|s rest IH]; intros app username cu u Hcu Hu Hlen.
  - exists app. simpl. rewrite with_history_same. auto.
  - simpl. unfold andThen.
    rewrite (trackLocation_returns _ _ _ (sample_position s) username cu u)
      by (assumption || reflexivity).
    set (h := default [] (User.history u)) in *.
    set (p := HistoryPoint.mk _ _ _ _).
    set (u1 := with_history (Some (push_capped p h)) u).
    set (app1 := set_users _ _).
    destruct (IH app1 username cu u1) as (app' & Hrun & Hcu' & Hu').
    { exact Hcu. }
    { subst app1. unfold set_users; simpl. apply lookup_insert_eq. }
    { subst u1. simpl. now apply push_capped_length. }
    exists app'. rewrite Hrun. simpl. split; [reflexivity|].
    split; [exact Hcu'|].
    rewrite Hu'. f_equal. subst u1. rewrite with_history_twice. f_equal.
    destruct rest as [|s' rest'].
    + simpl. f_equal. fold p. now apply push_capped_drop.
    + cbv zeta. f_equal. simpl User.history. simpl default.
      change (map point_of (s :: s' :: rest'))
        with (p :: map point_of (s' :: rest')).
      now apply push_capped_then_drop.
Qed.

(** C5. From an empty history, 60 calls of [trackLocation] with the
    position known all return and leave a history of length exactly 50
    that holds the 50 most recent points in the order they were recorded
    (the ten oldest are gone from the front). *)
Theorem trackLocation_60_calls app username cu u (samples : list Sample) :
  currentUser app = Some (username, cu) ->
  users (mockDB app) !! username = Some u ->
  default [] (User.history u) = [] ->
  length samples = 60 ->
  exists app' u',
    trackLocation_each samples app = Returned [] app' /\
    users (mockDB app') !! username = Some u' /\
    User.history u' = Some (drop 10 (map point_of samples)) /\
    length (drop 10 (map point_of samples)) = 50.
Proof.
  intros Hcu Hu Hempty Hlen.
  destruct (trackLocation_each_history samples app username cu u Hcu Hu)
    as (app' & Hrun & _ & Hu').
  { rewrite Hempty. simpl. lia. }
  destruct samples as [|s rest]; [discriminate|].
  cbv zeta in Hu'. rewrite Hempty, app_nil_l, length_map, Hlen in Hu'.
  change (60 - 50) with 10 in Hu'.
  eexists app', _. split; [exact Hrun|]. split; [exact Hu'|].
  split; [reflexivity|].
  rewrite length_drop, length_map. lia.
Qed.

End History.

(** The theorem at the demo state: sixty samples are recorded for bob,
    whose history was empty. *)
Lemma trackLocation_60_calls_witness :
  exists app' u',
    trackLocation_each demo_samples (demo_app (Some ("bob", bob)) None) =
      Returned [] app' /\
    users (mockDB app') !! "bob" = Some u' /\
    User.history u' = Some (drop 10 (map point_of demo_samples)) /\
    length (drop 10 (map point_of demo_samples)) = 50.
Proof.
  exact (trackLocation_60_calls (demo_app (Some ("bob", bob)) None) "bob" bob bob
           demo_samples eq_refl eq_refl eq_refl eq_refl).
Defined.

(** ** Check-in *)

Section CheckIn.
Context {M : JSMath}.

Lemma head_unshift_capped e logs : head (unshift_capped e logs) = Some e.
Proof.
  unfold unshift_capped. cbv zeta.
  destruct (Nat.ltb_spec 20 (length (e :: logs))) as [Hlt|Hle]; [|reflexivity].
  destruct logs; [simpl in Hlt; lia|]. reflexivity.
Qed.

Lemma refreshDashboard_employee app username cu :
  currentUser app = Some (username, cu) ->
  User.role cu = employee ->
  refreshDashboard app = Returned [] app.
Proof. intros Hcu Hr. unfold refreshDashboard. now rewrite Hcu, Hr. Qed.

Lemma refreshDashboard_company app username cu c :
  currentUser app = Some (username, cu) ->
  company_of app (User.companyId cu) = Some c ->
  refreshDashboard app = Returned [] app.
Proof.
  intros Hcu Hc. unfold refreshDashboard. rewrite Hcu, Hc.
  now destruct (User.role cu).
Qed.

(** [refreshDashboard] leaves the state as it found it. *)
Lemma refreshDashboard_state app : state_of (refreshDashboard app) = app.
Proof.
  unfold refreshDashboard.
  destruct (currentUser app) as [[? cu]|]; [|reflexivity].
  destruct (User.role cu); [|reflexivity].
  now destruct (company_of app (User.companyId cu)).
Qed.

Lemma refreshDashboard_effects app : effects_of (refreshDashboard app) = [].
Proof.
  unfold refreshDashboard.
  destruct (currentUser app) as [[? cu]|]; [|reflexivity].
  destruct (User.role cu); [|reflexivity].
  now destruct (company_of app (User.companyId cu)).
Qed.

(** What [checkIn] does for a logged-in user whose record exists. *)
Lemma checkIn_cases clk app username cu u :
  currentUser app = Some (username, cu) ->
  users (mockDB app) !! username = Some u ->
  checkIn clk app =
  match currentPosition app with
  | None => Returned [alert msg_gps_not_available] app
  | Some pos =>
    match company_of app (User.companyId cu) with
    | None => Returned [alert msg_site_deleted] app
    | Some c =>
      match find_site (User.assignedSiteId u) (Company.sites c) with
      | None => Returned [alert msg_site_deleted] app
      | Some site =>
        if gt (distance_to pos site) MAX_DISTANCE_METERS
        then Returned [alert (msg_too_far (Site.name site)
                                (distance_to pos site))] app
        else Returned [] (checked_in_state clk app username cu u pos c site)
      end
    end
  end.
Proof.
  intros Hcu Hu. unfold checkIn. rewrite Hcu, Hu.
  destruct (currentPosition app) as [pos|] eqn:Hpos; [|reflexivity].
  destruct (company_of app (User.companyId cu)) as [c|] eqn:Hc; [|reflexivity].
  assert (Hfound :
    match Company.sites c, Some u with
    | [], _ => Some None
    | _ :: _, None => None
    | sites, Some u0 => Some (find_site (User.assignedSiteId u0) sites)
    end = Some (find_site (User.assignedSiteId u) (Company.sites c))).
  { destruct (Company.sites c); reflexivity. }
  rewrite Hfound. clear Hfound.
  destruct (find_site (User.assignedSiteId u) (Company.sites c))
    as [site|] eqn:Hsite; [|reflexivity].
  destruct (gt (distance_to pos site) MAX_DISTANCE_METERS); [reflexivity|].
  set (u1 := with_lastPing _ _).
  set (app0 := set_users <[username := u1]> app).
  unfold andThen.
  rewrite (trackLocation_returns clk (Site.id site) app0 pos username cu u1);
    [| exact Hpos | exact Hcu | apply lookup_insert_eq ].
  cbn [after].
  set (app2 := set_trackingInterval true _).
  rewrite (addLog_returns app2 (User.companyId cu) c) by exact Hc.
  cbn [after].
  set (app3 := set_companies _ app2).
  rewrite (refreshDashboard_company app3 username cu
             (with_logs (unshift_capped
                (LogEntry.mk username ("Check-In @ " +:+ Site.name site)
                   (toLocaleTimeString clk)) (Company.logs c)) c));
    [ reflexivity | exact Hcu | apply company_of_set_companies_eq ].
Qed.

Lemma checkIn_success clk app username cu u pos c site :
  currentUser app = Some (username, cu) ->
  users (mockDB app) !! username = Some u ->
  currentPosition app = Some pos ->
  company_of app (User.companyId cu) = Some c ->
  find_site (User.assignedSiteId u) (Company.sites c) = Some site ->
  gt (distance_to pos site) MAX_DISTANCE_METERS = false ->
  checkIn clk app =
  Returned [] (checked_in_state clk app username cu u pos c site).
Proof.
  intros Hcu Hu Hpos Hc Hsite Hnear.
  rewrite (checkIn_cases clk app username cu u Hcu Hu), Hpos, Hc, Hsite.
  now rewrite Hnear.
Qed.

End CheckIn.

Section CheckInOutcome.
Context {M : JSMath}.

(** On the site itself the test of the geofence fails, whatever the
    library. *)
Lemma at_site_not_far :
  gt (distance_to at_site demo_site) MAX_DISTANCE_METERS = false.
Proof. apply distance_self_not_far. Qed.

(** X30. For a logged-in user whose record exists, [checkIn] succeeds
    (returns without an alert) exactly when the position is known, the
    assigned site is in the site list of the session's company, and the
    test [dist > MAX_DISTANCE_METERS] on the computed distance is false (as
    it is for a distance of at most 100 and for [NaN]); a success sets the
    status to checked-in and [checkInTime] to the current time and puts
    the entry "Check-In @ <site name>" at the head of the company log;
    each failure leaves the state as it was and alerts its own reason. *)
Theorem checkIn_by_the_test clk app username cu u :
  currentUser app = Some (username, cu) ->
  users (mockDB app) !! username = Some u ->
  ((exists app', checkIn clk app = Returned [] app') <->
   (exists pos site,
       currentPosition app = Some pos /\
       assigned_site app cu u = Some site /\
       gt (distance_to pos site) MAX_DISTANCE_METERS = false)) /\
  (forall pos site,
      currentPosition app = Some pos ->
      assigned_site app cu u = Some site ->
      gt (distance_to pos site) MAX_DISTANCE_METERS = false ->
      exists app' u' c',
        checkIn clk app = Returned [] app' /\
        users (mockDB app') !! username = Some u' /\
        User.status u' = Some checked_in /\
        User.checkInTime u' = Some (Date_now clk) /\
        company_of app' (User.companyId cu) = Some c' /\
        head (Company.logs c') =
          Some (LogEntry.mk username ("Check-In @ " +:+ Site.name site)
                  (toLocaleTimeString clk))) /\
  (currentPosition app = None ->
   checkIn clk app = Returned [alert msg_gps_not_available] app) /\
  (forall pos,
      currentPosition app = Some pos ->
      assigned_site app cu u = None ->
      checkIn clk app = Returned [alert msg_site_deleted] app) /\
  (forall pos site,
      currentPosition app = Some pos ->
      assigned_site app cu u = Some site ->
      gt (distance_to pos site) MAX_DISTANCE_METERS = true ->
      checkIn clk app =
      Returned [alert (msg_too_far (Site.name site) (distance_to pos site))] app).
Proof.
  intros Hcu Hu.
  pose proof (checkIn_cases clk app username cu u Hcu Hu) as Heq.
  unfold assigned_site.
  destruct (currentPosition app) as [pos|] eqn:Hpos.
  2:{ split; [|repeat split; intros; try discriminate; assumption].
      rewrite Heq. split.
      - intros [app' H]; discriminate.
      - intros (p & s & H & _); discriminate. }
  destruct (company_of app (User.companyId cu)) as [c|] eqn:Hc; simpl.
  2:{ split; [|repeat split; intros; try discriminate; assumption].
      rewrite Heq. split.
      - intros [app' H]; discriminate.
      - intros (p & s & _ & H & _); discriminate. }
  destruct (find_site (User.assignedSiteId u) (Company.sites c))
    as [site|] eqn:Hsite.
  2:{ split; [|repeat split; intros; try discriminate; assumption].
      rewrite Heq. split.
      - intros [app' H]; discriminate.
      - intros (p & s & _ & H & _); discriminate. }
  destruct (gt (distance_to pos site) MAX_DISTANCE_METERS) eqn:Hfar.
  - split; [|repeat split; intros; try discriminate].
    + rewrite Heq. split.
      * intros [app' H]; discriminate.
      * intros (p & s & Hp & Hs & Hd). simplify_eq. congruence.
    + simplify_eq. congruence.
    + simplify_eq. exact Heq.
  - assert (Hpost : exists app' u' c',
        checkIn clk app = Returned [] app' /\
        users (mockDB app') !! username = Some u' /\
        User.status u' = Some checked_in /\
        User.checkInTime u' = Some (Date_now clk) /\
        company_of app' (User.companyId cu) = Some c' /\
        head (Company.logs c') =
          Some (LogEntry.mk username ("Check-In @ " +:+ Site.name site)
                  (toLocaleTimeString clk))).
    { eexists _, _, _. split; [exact Heq|].
      split; [unfold checked_in_state, set_companies, set_users; simpl;
              apply lookup_insert_eq|].
      split; [reflexivity|]. split; [reflexivity|].
      split; [apply company_of_set_companies_eq|].
      apply head_unshift_capped. }
    split; [|repeat split; intros; try discriminate].
    + split.
      * intros _. exists pos, site. repeat split; try reflexivity. exact Hfar.
      * intros _. destruct Hpost as (app' & _ & _ & H & _). now exists app'.
    + simplify_eq. exact Hpost.
    + simplify_eq. congruence.
Qed.

(** C1. At the antipode of the assigned site, where the great-circle
    distance is half the circumference of the Earth, the distance is
    computed as [NaN], the test [dist > MAX_DISTANCE_METERS] is false and
    [checkIn] checks the employee in. *)
Theorem checkIn_admits_antipode clk :
  antipode_values ->
  (spec_haversine_meters 8 0 (-8) 180 > 100)%R /\
  exists app' u',
    checkIn clk (antipode_app (Some ("bob", bob)) (Some antipode_position)) =
      Returned [] app' /\
    users (mockDB app') !! "bob" = Some u' /\
    User.status u' = Some checked_in.
Proof.
  intros Hv. split.
  { rewrite spec_haversine_antipode. pose proof PI_bounds. lra. }
  eexists _, _. split.
  - apply (checkIn_success clk _ "bob" bob bob antipode_position
             (with_sites [antipode_site] demo_company) antipode_site);
      try reflexivity.
    unfold distance_to, antipode_position, antipode_site. simpl.
    rewrite (distance_antipode_nan Hv). reflexivity.
  - split.
    + unfold checked_in_state, set_companies, set_users. simpl.
      apply lookup_insert_eq.
    + reflexivity.
Qed.

End CheckInOutcome.

(** The values of the recorded library are the four results. *)
Lemma recorded_antipode_values : antipode_values.
Proof. repeat split; reflexivity. Qed.

(** One degree east of the demo site the recorded library gives
    111194.92664455873 meters. *)
Lemma one_degree_east_far :
  gt (distance_to one_degree_east demo_site) MAX_DISTANCE_METERS = true.
Proof. reflexivity. Qed.

(** The theorem with the recorded library. *)
Lemma checkIn_admits_antipode_witness :
  antipode_values /\
  exists app' u',
    checkIn demo_clock
      (antipode_app (Some ("bob", bob)) (Some antipode_position)) =
      Returned [] app' /\
    users (mockDB app') !! "bob" = Some u' /\
    User.status u' = Some checked_in.
Proof.
  split; [repeat split; reflexivity|].
  apply (checkIn_admits_antipode demo_clock).
  repeat split; reflexivity.
Defined.

(** The theorem at the demo state: bob, at his site, checks in; one
    degree east he is told he is too far and nothing changes. *)
Lemma checkIn_by_the_test_witness :
  (exists app',
      checkIn demo_clock (demo_app (Some ("bob", bob)) (Some at_site)) =
      Returned [] app') /\
  checkIn demo_clock (demo_app (Some ("bob", bob)) (Some one_degree_east)) =
  Returned [alert (msg_too_far "S" (distance_to one_degree_east demo_site))]
    (demo_app (Some ("bob", bob)) (Some one_degree_east)).
Proof.
  split.
  - destruct (checkIn_by_the_test demo_clock
                (demo_app (Some ("bob", bob)) (Some at_site)) "bob" bob bob
                eq_refl eq_refl) as (_ & Hok & _).
    destruct (Hok at_site demo_site eq_refl eq_refl eq_refl)
      as (app' & _ & _ & H & _).
    exists app'. exact H.
  - destruct (checkIn_by_the_test demo_clock
                (demo_app (Some ("bob", bob)) (Some one_degree_east))
                "bob" bob bob eq_refl eq_refl) as (_ & _ & _ & _ & Hfar).
    apply (Hfar one_degree_east demo_site eq_refl eq_refl eq_refl).
Defined.

(** ** Geofence exit *)

Section GeofenceExit.
Context {M : JSMath}.

(** What [checkOut] does for a logged-in employee whose record and
    company exist. *)
Lemma checkOut_returns clk reason app username cu u c :
  currentUser app = Some (username, cu) ->
  users (mockDB app) !! username = Some u ->
  company_of app (User.companyId cu) = Some c ->
  checkOut clk reason app =
  Returned []
    (set_companies
       <[key_of (User.companyId cu) :=
           with_logs (unshift_capped
                        (LogEntry.mk username reason (toLocaleTimeString clk))
                        (Company.logs c)) c]>
       (set_trackingInterval false
          (set_users
             <[username := with_checkInTime None
                             (with_status (Some checked_out) u)]> app))).
Proof.
  intros Hcu Hu Hc. unfold checkOut. rewrite Hcu, Hu. unfold andThen.
  set (app1 := set_trackingInterval false _).
  rewrite (addLog_returns app1 (User.companyId cu) c) by exact Hc.
  cbn [after].
  set (c' := with_logs _ c).
  rewrite (refreshDashboard_company _ username cu c');
    [ reflexivity | exact Hcu | apply company_of_set_companies_eq ].
Qed.

(** When a position sample arrives for a logged-in employee who is
    checked in and the test [dist > MAX_DISTANCE_METERS] holds of the
    computed distance to the assigned site, that one sample makes the
    handler alert and run [checkOut("Geofence Exit")]: the user is checked
    out, [checkInTime] is cleared, the log gets the entry "Geofence Exit",
    and the session stays ([currentUser] is as before). *)
Lemma geofence_exit_forces_checkout clk lat lng app username cu u site :
  currentUser app = Some (username, cu) ->
  User.role cu = employee ->
  users (mockDB app) !! username = Some u ->
  User.status u = Some checked_in ->
  assigned_site app cu u = Some site ->
  gt (distance_to (Position.mk lat lng) site) MAX_DISTANCE_METERS = true ->
  exists app' c',
    watchPosition_success clk lat lng app =
      Returned [alert (msg_geofence_alert
                         (distance_to (Position.mk lat lng) site))] app' /\
    checkOut clk "Geofence Exit"
      (set_currentPosition (Some (Position.mk lat lng)) app) =
      Returned [] app' /\
    currentUser app' = Some (username, cu) /\
    users (mockDB app') !! username =
      Some (with_checkInTime None (with_status (Some checked_out) u)) /\
    company_of app' (User.companyId cu) = Some c' /\
    head (Company.logs c') =
      Some (LogEntry.mk username "Geofence Exit" (toLocaleTimeString clk)).
Proof.
  intros Hcu Hrole Hu Hstatus Hsite Hfar.
  unfold assigned_site in Hsite.
  destruct (company_of app (User.companyId cu)) as [c|] eqn:Hc;
    [simpl in Hsite|discriminate].
  set (app0 := set_currentPosition (Some (Position.mk lat lng)) app).
  pose proof (checkOut_returns clk "Geofence Exit" app0 username cu u c
                Hcu Hu Hc) as Hout.
  eexists _, _. split; [|split; [exact Hout|]].
  - unfold watchPosition_success, monitor_if_employee. fold app0.
    replace (currentUser app0) with (Some (username, cu)) by (symmetry; exact Hcu).
    rewrite Hrole. unfold monitorGeofence.
    replace (currentUser app0) with (Some (username, cu)) by (symmetry; exact Hcu).
    replace (users (mockDB app0) !! username) with (Some u) by (symmetry; exact Hu).
    rewrite Hstatus.
    rewrite bool_decide_eq_true_2 by reflexivity. cbn [negb].
    replace (company_of app0 (User.companyId cu)) with (Some c)
      by (symmetry; exact Hc).
    rewrite Hsite. cbn [currentPosition app0 set_currentPosition].
    rewrite Hfar.
    unfold andThen, emit. fold app0. rewrite Hout. reflexivity.
  - split; [exact Hcu|].
    split; [unfold set_companies, set_users; simpl; apply lookup_insert_eq|].
    split; [apply company_of_set_companies_eq|].
    apply head_unshift_capped.
Qed.

(** The debug teleport takes another path: [checkGeofence] answers the
    same situation by logging the user out, and the record stays
    checked in. *)
Lemma debugSetLocation_logs_out lat lng app username cu u site :
  currentUser app = Some (username, cu) ->
  User.role cu = employee ->
  users (mockDB app) !! username = Some u ->
  User.status u = Some checked_in ->
  assigned_site app cu u = Some site ->
  gt (distance_to (Position.mk lat lng) site) MAX_DISTANCE_METERS = true ->
  debugSetLocation lat lng app =
  Returned [alert (msg_debug_logout (Site.name site)); showView view_auth;
            alert (msg_teleported lat lng)]
    (set_currentUser None
       (set_currentPosition (Some (Position.mk lat lng)) app)).
Proof.
  intros Hcu Hrole Hu Hstatus Hsite Hfar.
  unfold assigned_site in Hsite.
  destruct (company_of app (User.companyId cu)) as [c|] eqn:Hc;
    [simpl in Hsite|discriminate].
  unfold debugSetLocation, andThen.
  set (app0 := set_currentPosition (Some (Position.mk lat lng)) app).
  assert (Hgeo : checkGeofence app0 =
                 Returned [alert (msg_debug_logout (Site.name site));
                           showView view_auth] (set_currentUser None app0)).
  { unfold checkGeofence.
    replace (currentUser app0) with (Some (username, cu)) by (symmetry; exact Hcu).
    rewrite Hrole.
    replace (users (mockDB app0) !! username) with (Some u) by (symmetry; exact Hu).
    rewrite Hstatus.
    rewrite bool_decide_eq_true_2 by reflexivity. cbn [negb].
    replace (company_of app0 (User.companyId cu)) with (Some c)
      by (symmetry; exact Hc).
    rewrite Hsite. cbn [currentPosition app0 set_currentPosition].
    rewrite Hfar.
    reflexivity. }
  rewrite Hgeo. reflexivity.
Qed.

(** A sample for which the test [dist > MAX_DISTANCE_METERS] is false
    changes nothing but the current position. *)
Lemma sample_passes_the_test clk lat lng app username cu u site :
  currentUser app = Some (username, cu) ->
  User.role cu = employee ->
  users (mockDB app) !! username = Some u ->
  User.status u = Some checked_in ->
  assigned_site app cu u = Some site ->
  gt (distance_to (Position.mk lat lng) site) MAX_DISTANCE_METERS = false ->
  watchPosition_success clk lat lng app =
  Returned [] (set_currentPosition (Some (Position.mk lat lng)) app).
Proof.
  intros Hcu Hrole Hu Hstatus Hsite Hnear.
  unfold assigned_site in Hsite.
  destruct (company_of app (User.companyId cu)) as [c|] eqn:Hc;
    [simpl in Hsite|discriminate].
  set (app0 := set_currentPosition (Some (Position.mk lat lng)) app).
  unfold watchPosition_success, monitor_if_employee. fold app0.
  replace (currentUser app0) with (Some (username, cu)) by (symmetry; exact Hcu).
  rewrite Hrole. unfold monitorGeofence.
  replace (currentUser app0) with (Some (username, cu)) by (symmetry; exact Hcu).
  replace (users (mockDB app0) !! username) with (Some u) by (symmetry; exact Hu).
  rewrite Hstatus.
  rewrite bool_decide_eq_true_2 by reflexivity. cbn [negb].
  replace (company_of app0 (User.companyId cu)) with (Some c)
    by (symmetry; exact Hc).
  rewrite Hsite. cbn [currentPosition app0 set_currentPosition].
  rewrite Hnear. reflexivity.
Qed.

(** C2. A position sample at the antipode of the assigned site, half the
    circumference of the Earth away, arrives for a logged-in employee who
    is checked in: the distance is computed as [NaN], the test
    [dist > MAX_DISTANCE_METERS] is false, and the handler neither alerts
    nor checks out.  The record stays checked in. *)
Theorem geofence_exit_missed_at_antipode clk :
  antipode_values ->
  (spec_haversine_meters 8 0 (-8) 180 > 100)%R /\
  watchPosition_success clk 8 0 antipode_app_checked_in =
    Returned [] (set_currentPosition (Some antipode_position)
                   antipode_app_checked_in) /\
  users (mockDB antipode_app_checked_in) !! "bob" = Some bob_checked_in /\
  User.status bob_checked_in = Some checked_in.
Proof.
  intros Hv. split.
  { rewrite spec_haversine_antipode. pose proof PI_bounds. lra. }
  split; [|split; reflexivity].
  apply (sample_passes_the_test clk 8 0 antipode_app_checked_in "bob" bob
           bob_checked_in antipode_site); try reflexivity.
  unfold distance_to. simpl.
  rewrite (distance_antipode_nan Hv). reflexivity.
Qed.

End GeofenceExit.

(** The theorem with the recorded library. *)
Lemma geofence_exit_missed_at_antipode_witness :
  antipode_values /\
  watchPosition_success demo_clock 8 0 antipode_app_checked_in =
    Returned [] (set_currentPosition (Some antipode_position)
                   antipode_app_checked_in).
Proof.
  split; [repeat split; reflexivity|].
  apply (geofence_exit_missed_at_antipode demo_clock).
  repeat split; reflexivity.
Defined.

(** ** Login gating *)

Section LoginGate.
Context {M : JSMath}.

(** What [login] does for a verified employee linked to company [c], when
    the company field is empty or holds [c] and the passcode, if the
    account has one, is the one typed. *)
Lemma login_employee_cases username companyInput passInput app u c :
  truthy username = true ->
  users (mockDB app) !! username = Some u ->
  User.role u = employee ->
  User.verified u = true ->
  User.companyId u = Some c ->
  truthy c = true ->
  companyInput = "" \/ companyInput = c ->
  (truthy_opt (User.passcode u) = true -> Some passInput = User.passcode u) ->
  login username companyInput passInput app =
  after (if truthy companyInput then [] else [alert (msg_found_company c)])
    match currentPosition app with
    | None => Returned [alert msg_detecting_location; getCurrentPosition] app
    | Some pos =>
      match company_of app (Some c) with
      | None => Threw [] app
      | Some company =>
        match find_site (User.assignedSiteId u) (Company.sites company) with
        | None => Returned [alert msg_worksite_not_found] app
        | Some site =>
          if gt (distance_to pos site) MAX_DISTANCE_METERS
          then Returned [alert (msg_access_denied (distance_to pos site)
                                  (Site.name site))] app
          else Returned [showView view_employee]
                 (set_currentUser (Some (username, u)) app)
        end
      end
    end.
Proof.
  intros Hname Hu Hrole Hver Hcid Hc Hinput Hpass.
  unfold login. rewrite Hname, (js_get_own _ _ _ Hu). cbn [negb].
  assert (Hdet :
    (if truthy companyInput then Some (companyInput, [])
     else match User.companyId u with
          | Some c0 =>
            if truthy c0 then Some (c0, [alert (msg_found_company c0)]) else None
          | None => None
          end) =
    Some (c, if truthy companyInput then [] else [alert (msg_found_company c)])).
  { rewrite Hcid, Hc. destruct Hinput as [->| ->].
    - reflexivity.
    - now rewrite Hc. }
  rewrite Hdet. clear Hdet. f_equal.
  rewrite Hcid. cbn [truthy_opt]. rewrite Hc.
  rewrite bool_decide_eq_true_2 by reflexivity. cbn [negb andb].
  assert (Hp1 : truthy_opt (User.passcode u) && negb (truthy passInput) = false).
  { destruct (truthy_opt (User.passcode u)) eqn:Hp; [|reflexivity].
    specialize (Hpass eq_refl). rewrite <- Hpass in Hp. simpl in Hp.
    now rewrite Hp. }
  assert (Hp2 : truthy_opt (User.passcode u)
                && negb (bool_decide (Some passInput = User.passcode u)) = false).
  { destruct (truthy_opt (User.passcode u)) eqn:Hp; [|reflexivity].
    specialize (Hpass eq_refl).
    now rewrite bool_decide_eq_true_2 by exact Hpass. }
  rewrite Hp1, Hp2, Hver, Hrole. cbn [negb].
  destruct (currentPosition app) as [pos|]; [|reflexivity].
  destruct (company_of app (Some c)) as [company|]; [|reflexivity].
  destruct (find_site _ _) as [site|]; [|reflexivity].
  destruct (gt _ _); [reflexivity|].
  rewrite (refreshDashboard_employee _ username u) by (reflexivity || assumption).
  reflexivity.
Qed.

End LoginGate.

Section LoginGateOutcome.
Context {M : JSMath}.

(** For a verified employee linked to a company, [login] needs a
    position: with none it alerts that the location is being detected,
    asks for one, and stops with the state as it was (no denial).  With a
    position it computes the distance to the assigned site by the function
    [checkIn] uses and makes the same test [dist > MAX_DISTANCE_METERS]:
    where it holds the login is denied and [checkIn] in that session would
    be refused for the same site and distance; where it fails the login
    succeeds and [checkIn] in the session it opens succeeds as well. *)
Lemma login_gate_matches_checkIn clk username companyInput passInput app u c :
  truthy username = true ->
  users (mockDB app) !! username = Some u ->
  User.role u = employee ->
  User.verified u = true ->
  User.companyId u = Some c ->
  truthy c = true ->
  companyInput = "" \/ companyInput = c ->
  (truthy_opt (User.passcode u) = true -> Some passInput = User.passcode u) ->
  let pre := if truthy companyInput then [] else [alert (msg_found_company c)] in
  let session := set_currentUser (Some (username, u)) app in
  (currentPosition app = None ->
   login username companyInput passInput app =
   Returned (pre ++ [alert msg_detecting_location; getCurrentPosition]) app) /\
  (forall pos site,
      currentPosition app = Some pos ->
      assigned_site app u u = Some site ->
      gt (distance_to pos site) MAX_DISTANCE_METERS = true ->
      login username companyInput passInput app =
        Returned (pre ++ [alert (msg_access_denied (distance_to pos site)
                                   (Site.name site))]) app /\
      checkIn clk session =
        Returned [alert (msg_too_far (Site.name site) (distance_to pos site))]
          session) /\
  (forall pos site,
      currentPosition app = Some pos ->
      assigned_site app u u = Some site ->
      gt (distance_to pos site) MAX_DISTANCE_METERS = false ->
      login username companyInput passInput app =
        Returned (pre ++ [showView view_employee]) session /\
      exists app', checkIn clk session = Returned [] app').
Proof.
  intros Hname Hu Hrole Hver Hcid Hc Hinput Hpass pre session.
  pose proof (login_employee_cases username companyInput passInput app u c
                Hname Hu Hrole Hver Hcid Hc Hinput Hpass) as Hlogin.
  fold pre in Hlogin.
  assert (Hcheck := checkIn_cases clk session username u u eq_refl Hu).
  change (currentPosition session) with (currentPosition app) in Hcheck.
  change (company_of session (User.companyId u))
    with (company_of app (User.companyId u)) in Hcheck.
  unfold assigned_site. rewrite Hcid in *.
  split; [|split].
  - intros Hpos. rewrite Hlogin, Hpos. reflexivity.
  - intros pos site Hpos Hsite Hfar.
    rewrite Hpos in Hlogin, Hcheck.
    destruct (company_of app (Some c)) as [company|]; [|discriminate].
    simpl in Hsite. rewrite Hsite in Hlogin, Hcheck.
    rewrite Hfar in Hlogin, Hcheck.
    split; [rewrite Hlogin; reflexivity | exact Hcheck].
  - intros pos site Hpos Hsite Hnear.
    rewrite Hpos in Hlogin, Hcheck.
    destruct (company_of app (Some c)) as [company|]; [|discriminate].
    simpl in Hsite. rewrite Hsite in Hlogin, Hcheck.
    rewrite Hnear in Hlogin, Hcheck.
    split; [rewrite Hlogin; reflexivity | eexists; exact Hcheck].
Qed.

(** C3. An employee at the antipode of the assigned site, half the
    circumference of the Earth away, logs in: the distance is computed as
    [NaN], the test [dist > MAX_DISTANCE_METERS] is false, and [login]
    opens the session instead of denying access. *)
Theorem login_admits_antipode :
  antipode_values ->
  (spec_haversine_meters 8 0 (-8) 180 > 100)%R /\
  login "bob" "" "" (antipode_app None (Some antipode_position)) =
    Returned [alert (msg_found_company "ACME1234"); showView view_employee]
      (antipode_app (Some ("bob", bob)) (Some antipode_position)).
Proof.
  intros Hv. split.
  { rewrite spec_haversine_antipode. pose proof PI_bounds. lra. }
  pose proof (login_gate_matches_checkIn demo_clock "bob" "" ""
                (antipode_app None (Some antipode_position)) bob "ACME1234"
                eq_refl eq_refl eq_refl eq_refl eq_refl eq_refl
                (or_introl eq_refl)
                (fun H => False_ind _ (Bool.diff_false_true H)))
    as (_ & _ & Hopen).
  destruct (Hopen antipode_position antipode_site eq_refl eq_refl) as [H _].
  - unfold distance_to. simpl. rewrite (distance_antipode_nan Hv). reflexivity.
  - exact H.
Qed.

End LoginGateOutcome.

(** The theorem with the recorded library. *)
Lemma login_admits_antipode_witness :
  antipode_values /\
  login "bob" "" "" (antipode_app None (Some antipode_position)) =
    Returned [alert (msg_found_company "ACME1234"); showView view_employee]
      (antipode_app (Some ("bob", bob)) (Some antipode_position)).
Proof.
  split; [repeat split; reflexivity|].
  apply login_admits_antipode.
  repeat split; reflexivity.
Defined.

(** ** Referential gaps *)

Section ReferentialGaps.
Context {M : JSMath}.


(** [login] reports an assigned site that is not in the site list. *)
Lemma login_site_gap_reported username companyInput passInput app u c company pos :
  truthy username = true ->
  users (mockDB app) !! username = Some u ->
  User.role u = employee ->
  User.verified u = true ->
  User.companyId u = Some c ->
  truthy c = true ->
  companyInput = "" \/ companyInput = c ->
  (truthy_opt (User.passcode u) = true -> Some passInput = User.passcode u) ->
  currentPosition app = Some pos ->
  company_of app (Some c) = Some company ->
  find_site (User.assignedSiteId u) (Company.sites company) = None ->
  login username companyInput passInput app =
  Returned ((if truthy companyInput then [] else [alert (msg_found_company c)])
            ++ [alert msg_worksite_not_found]) app.
Proof.
  intros Hname Hu Hrole Hver Hcid Hc Hinput Hpass Hpos Hcomp Hsite.
  rewrite (login_employee_cases username companyInput passInput app u c)
    by assumption.
  now rewrite Hpos, Hcomp, Hsite.
Qed.


(** [checkOut] with the company record missing: the user record is
    already changed when [addLog] stops on a [TypeError]. *)
Lemma checkOut_company_gap_throws clk reason app username cu u :
  currentUser app = Some (username, cu) ->
  users (mockDB app) !! username = Some u ->
  company_of app (User.companyId cu) = None ->
  checkOut clk reason app =
  Threw []
    (set_trackingInterval false
       (set_users
          <[username := with_checkInTime None
                          (with_status (Some checked_out) u)]> app)).
Proof.
  intros Hcu Hu Hc. unfold checkOut. rewrite Hcu, Hu. unfold andThen.
  now rewrite addLog_throws by exact Hc.
Qed.


End ReferentialGaps.


(** ** Removing an employee *)

Section RemoveEmployee.
Context {M : JSMath}.

Lemma filter_not_named username (roster : list Employee.t) e :
  In e (List.filter
          (fun e => negb (bool_decide (Employee.username e = username))) roster)
  <-> In e roster /\ Employee.username e <> username.
Proof.
  rewrite filter_In. split; intros [Hin Hne]; split; try assumption.
  - intros Heq. rewrite bool_decide_eq_true_2 in Hne by exact Heq. discriminate.
  - now rewrite bool_decide_eq_false_2 by exact Hne.
Qed.

(** C10. A confirmed [removeEmployee(username)] in a session whose company
    record exists returns after filtering [username] out of that company's
    roster and deleting [users[username]], for any [username] at all: no
    test of the record's [companyId] or [role] stands in the way.  Every
    other user record and every other company is as before, and so are
    the session company's sites, logs and name. *)
Theorem removeEmployee_deletes_any_user username app me cu c :
  currentUser app = Some (me, cu) ->
  company_of app (User.companyId cu) = Some c ->
  exists app' c',
    removeEmployee username true app =
      Returned [alert msg_employee_removed] app' /\
    users (mockDB app') = delete username (users (mockDB app)) /\
    users (mockDB app') !! username = None /\
    (forall k, k <> username ->
               users (mockDB app') !! k = users (mockDB app) !! k) /\
    company_of app' (User.companyId cu) = Some c' /\
    (forall e, In e (Company.employees c') <->
               In e (Company.employees c) /\ Employee.username e <> username) /\
    Company.sites c' = Company.sites c /\
    Company.logs c' = Company.logs c /\
    Company.name c' = Company.name c /\
    (forall k, k <> key_of (User.companyId cu) ->
               companies (mockDB app') !! k = companies (mockDB app) !! k).
Proof.
  intros Hcu Hc. unfold removeEmployee. cbn [negb]. rewrite Hcu, Hc.
  set (roster := List.filter _ _).
  set (c' := with_employees roster c).
  set (app' := set_users _ _).
  exists app', c'.
  assert (Hc' : company_of app' (User.companyId cu) = Some c').
  { subst app'. unfold company_of, set_users, set_companies; simpl.
    apply lookup_insert_eq. }
  split.
  { unfold andThen.
    rewrite (refreshDashboard_company app' me cu c') by assumption.
    reflexivity. }
  split; [reflexivity|].
  split; [subst app'; unfold set_users; simpl; apply lookup_delete_eq|].
  split.
  { intros k Hk. subst app'. unfold set_users; simpl.
    now apply lookup_delete_ne. }
  split; [exact Hc'|].
  split; [intros e; apply filter_not_named|].
  split; [reflexivity|]. split; [reflexivity|]. split; [reflexivity|].
  intros k Hk. subst app'. unfold set_users, set_companies; simpl.
  now apply lookup_insert_ne.
Qed.

End RemoveEmployee.

(** The theorem at the demo state: the manager of "ACME1234" removes
    "eve", an employee of "OTHR5678"; her record is deleted and her own
    company's roster still lists her. *)
Lemma removeEmployee_deletes_any_user_witness :
  users (mockDB (demo_app (Some ("boss", boss)) None)) !! "eve" = Some eve /\
  User.companyId eve <> User.companyId boss /\
  exists app',
    removeEmployee "eve" true (demo_app (Some ("boss", boss)) None) =
      Returned [alert msg_employee_removed] app' /\
    users (mockDB app') !! "eve" = None /\
    companies (mockDB app') !! "OTHR5678" = Some other_company.
Proof.
  split; [reflexivity|]. split; [discriminate|].
  destruct (removeEmployee_deletes_any_user "eve"
              (demo_app (Some ("boss", boss)) None) "boss" boss demo_company
              eq_refl eq_refl)
    as (app' & c' & Hrun & _ & Hgone & _ & _ & _ & _ & _ & _ & Hother).
  exists app'. split; [exact Hrun|]. split; [exact Hgone|].
  rewrite (Hother "OTHR5678") by discriminate. reflexivity.
Defined.

(** ** The attendance invariant *)

Section Invariant.
Context {M : JSMath}.

Lemma state_of_after out o : state_of (after out o) = state_of o.
Proof. now destruct o. Qed.

Lemma db_inv_set_companies f app : db_inv app -> db_inv (set_companies f app).
Proof. exact (fun H => H). Qed.

Lemma db_inv_set_currentUser cu app : db_inv app -> db_inv (set_currentUser cu app).
Proof. exact (fun H => H). Qed.

Lemma db_inv_set_currentPosition p app :
  db_inv app -> db_inv (set_currentPosition p app).
Proof. exact (fun H => H). Qed.

Lemma db_inv_set_pendingUser pu app : db_inv app -> db_inv (set_pendingUser pu app).
Proof. exact (fun H => H). Qed.

Lemma db_inv_set_trackingInterval b app :
  db_inv app -> db_inv (set_trackingInterval b app).
Proof. exact (fun H => H). Qed.

Lemma db_inv_insert k u app :
  user_inv u -> db_inv app -> db_inv (set_users <[k := u]> app).
Proof.
  intros Hu Hinv k' u'. unfold set_users; simpl.
  destruct (decide (k = k')) as [->|Hne].
  - rewrite lookup_insert_eq. intros [= <-]. exact Hu.
  - rewrite lookup_insert_ne by exact Hne. apply Hinv.
Qed.

Lemma db_inv_delete k app : db_inv app -> db_inv (set_users (delete k) app).
Proof.
  intros Hinv k' u'. unfold set_users; simpl.
  destruct (decide (k = k')) as [->|Hne].
  - rewrite lookup_delete_eq. discriminate.
  - rewrite lookup_delete_ne by exact Hne. apply Hinv.
Qed.

(** A record keeps the invariant when its status and check-in time are
    not touched. *)
Lemma user_inv_same u u' :
  User.status u' = User.status u ->
  User.checkInTime u' = User.checkInTime u ->
  user_inv u -> user_inv u'.
Proof. unfold user_inv. intros -> ->. exact (fun H => H). Qed.

Lemma user_inv_checked_in t u :
  user_inv (with_lastPing (Some t)
              (with_checkInTime (Some t) (with_status (Some checked_in) u))).
Proof. split; simpl; [eauto|discriminate]. Qed.

Lemma user_inv_checked_out u :
  user_inv (with_checkInTime None (with_status (Some checked_out) u)).
Proof. split; simpl; [discriminate|reflexivity]. Qed.

Lemma user_inv_fresh r cid em ph pc site st ver code h :
  st <> Some checked_in ->
  user_inv (User.mk r cid em ph pc site st None None ver code h).
Proof. intros Hst. split; simpl; [intros H; contradiction|reflexivity]. Qed.

Lemma preserves_andThen m1 m2 :
  preserves m1 -> preserves m2 -> preserves (m1 ;> m2).
Proof.
  intros H1 H2 app Hinv. unfold andThen.
  specialize (H1 app Hinv).
  destruct (m1 app) as [out app1|out app1]; simpl in *.
  - rewrite state_of_after. now apply H2.
  - exact H1.
Qed.

Lemma preserves_emit e : preserves (emit e).
Proof. intros app Hinv. exact Hinv. Qed.

Lemma preserves_refreshDashboard : preserves refreshDashboard.
Proof. intros app Hinv. now rewrite refreshDashboard_state. Qed.

Lemma preserves_logout : preserves logout.
Proof. intros app Hinv. exact Hinv. Qed.

Lemma preserves_arm : preserves (fun a => Returned [] (set_trackingInterval true a)).
Proof. intros app Hinv. exact Hinv. Qed.

Lemma preserves_addLog cid username action time :
  preserves (addLog cid username action time).
Proof.
  intros app Hinv. unfold addLog.
  destruct (company_of app cid); exact Hinv.
Qed.

Lemma preserves_trackLocation clk siteId : preserves (trackLocation clk siteId).
Proof.
  intros app Hinv. unfold trackLocation.
  destruct (currentPosition app) as [pos|]; [|exact Hinv].
  destruct (currentUser app) as [[username cu]|]; [|exact Hinv].
  destruct (users (mockDB app) !! username) as [u|] eqn:Hu; [|exact Hinv].
  cbn [state_of]. apply db_inv_insert; [|exact Hinv].
  apply (user_inv_same u); [reflexivity..|]. exact (Hinv _ _ Hu).
Qed.

Create HintDb pres.

#[local] Hint Resolve preserves_andThen preserves_emit
  preserves_refreshDashboard preserves_logout preserves_arm
  preserves_addLog preserves_trackLocation : pres.

(** The invariant goes through a call made on an intermediate state. *)
Ltac through_call :=
  lazymatch goal with
  | |- db_inv (state_of (?m ?a)) =>
    let H := fresh "Hpres" in
    assert (H : preserves m) by eauto 10 with pres;
    apply H; clear H
  end.

Ltac inv_leaf :=
  repeat first
    [ assumption
    | rewrite state_of_after
    | rewrite refreshDashboard_state
    | progress cbn [state_of]
    | apply db_inv_set_companies
    | apply db_inv_set_currentUser
    | apply db_inv_set_currentPosition
    | apply db_inv_set_pendingUser
    | apply db_inv_set_trackingInterval
    | apply db_inv_delete
    | through_call ].

Lemma preserves_checkOut clk reason : preserves (checkOut clk reason).
Proof.
  intros app Hinv. unfold checkOut.
  destruct (currentUser app) as [[username cu]|]; [|exact Hinv].
  destruct (users (mockDB app) !! username) as [u|] eqn:Hu; [|exact Hinv].
  inv_leaf. apply db_inv_insert; [apply user_inv_checked_out|exact Hinv].
Qed.

#[local] Hint Resolve preserves_checkOut : pres.

Lemma preserves_checkIn clk : preserves (checkIn clk).
Proof.
  intros app Hinv. unfold checkIn.
  repeat case_match; inv_leaf;
    (apply db_inv_insert; [apply user_inv_checked_in|exact Hinv]).
Qed.

Lemma preserves_monitorGeofence clk : preserves (monitorGeofence clk).
Proof.
  intros app Hinv. unfold monitorGeofence.
  repeat case_match; inv_leaf.
Qed.

#[local] Hint Resolve preserves_monitorGeofence : pres.

Lemma preserves_monitor_if_employee clk : preserves (monitor_if_employee clk).
Proof.
  intros app Hinv. unfold monitor_if_employee.
  repeat case_match; inv_leaf.
Qed.

#[local] Hint Resolve preserves_monitor_if_employee : pres.

Lemma preserves_checkGeofence : preserves checkGeofence.
Proof.
  intros app Hinv. unfold checkGeofence.
  repeat case_match; inv_leaf.
Qed.

#[local] Hint Resolve preserves_checkGeofence : pres.

Lemma preserves_login username companyInput passInput :
  preserves (login username companyInput passInput).
Proof.
  intros app Hinv. unfold login.
  repeat case_match; inv_leaf.
Qed.

Lemma preserves_verifyAccount codeInput : preserves (verifyAccount codeInput).
Proof.
  intros app Hinv. unfold verifyAccount.
  destruct (pendingUser app) as [[pname pu]|]; [|exact Hinv].
  destruct (users (mockDB app) !! pname) as [u|] eqn:Hu; [|exact Hinv].
  assert (Hu' : user_inv (with_verified true u)).
  { apply (user_inv_same u); [reflexivity..|]. exact (Hinv _ _ Hu). }
  repeat case_match; inv_leaf; apply db_inv_insert; assumption.
Qed.

Lemma preserves_registerNewCompany companyName managerName companyId verifyCode :
  preserves (registerNewCompany companyName managerName companyId verifyCode).
Proof.
  intros app Hinv. unfold registerNewCompany.
  repeat case_match; inv_leaf;
    (apply db_inv_insert; [apply user_inv_fresh; discriminate|inv_leaf]).
Qed.

Lemma preserves_registerNewEmployeeUser username email phone passcode verifyCode :
  preserves (registerNewEmployeeUser username email phone passcode verifyCode).
Proof.
  intros app Hinv. unfold registerNewEmployeeUser.
  repeat case_match; inv_leaf;
    (apply db_inv_insert; [apply user_inv_fresh; discriminate|exact Hinv]).
Qed.

Lemma preserves_createSite siteName newId : preserves (createSite siteName newId).
Proof.
  intros app Hinv. unfold createSite.
  repeat case_match; inv_leaf.
Qed.

Lemma preserves_updateSiteLocation siteId confirmed :
  preserves (updateSiteLocation siteId confirmed).
Proof.
  intros app Hinv. unfold updateSiteLocation.
  repeat case_match; inv_leaf.
Qed.

Lemma preserves_removeEmployee username confirmed :
  preserves (removeEmployee username confirmed).
Proof.
  intros app Hinv. unfold removeEmployee.
  repeat case_match; inv_leaf.
Qed.

Lemma preserves_registerEmployee username contact siteId passcode :
  preserves (registerEmployee username contact siteId passcode).
Proof.
  intros app Hinv. unfold registerEmployee.
  destruct (currentUser app) as [[me cu]|]; [|exact Hinv].
  destruct (_ || _); [exact Hinv|].
  destruct (js_get (users (mockDB app)) username) as [u| |] eqn:Hu.
  - apply js_get_own_inv in Hu. pose proof (Hinv _ _ Hu) as Hui.
    destruct (User.companyId u) eqn:Hcid.
    + destruct (negb _); [exact Hinv|].
      destruct (company_of app (User.companyId cu)); inv_leaf;
        (apply db_inv_insert; [|exact Hinv]);
        apply (user_inv_same u); auto.
    + destruct (company_of app (User.companyId cu)); inv_leaf;
        (apply db_inv_insert; [|exact Hinv]);
        apply (user_inv_same u); auto.
  - exact Hinv.
  - destruct (company_of app (User.companyId cu)); inv_leaf;
      (apply db_inv_insert; [|exact Hinv]);
      apply user_inv_fresh; discriminate.
Qed.

Lemma preserves_run op : preserves (run op).
Proof.
  destruct op; simpl.
  - apply preserves_registerNewCompany.
  - apply preserves_registerNewEmployeeUser.
  - apply preserves_verifyAccount.
  - apply preserves_login.
  - apply preserves_logout.
  - intros app Hinv. unfold watchPosition_success. inv_leaf.
  - intros app Hinv. unfold useMockLocation. inv_leaf.
  - intros app Hinv. unfold debugSetLocation. inv_leaf.
  - apply preserves_createSite.
  - apply preserves_updateSiteLocation.
  - apply preserves_registerEmployee.
  - apply preserves_removeEmployee.
  - apply preserves_checkIn.
  - apply preserves_trackLocation.
  - apply preserves_checkOut.
Qed.

Lemma db_inv_initial : db_inv initial_app.
Proof.
  intros k u. unfold initial_app, defaultDB; simpl.
  intros [<- <-]%lookup_singleton_Some.
  split; simpl; [discriminate|reflexivity].
Qed.

(** C4. Every operation of the system (the registrations, login,
    verification, check-in, check-out, the position handlers with their
    forced check-out, the removal of an employee, and the rest) leaves the
    invariant standing in every user record, whether it returns or stops
    on an error: a checked-in record has its [checkInTime] set, and a
    checked-out record has none. *)
Theorem attendance_invariant_preserved op app :
  db_inv app ->
  forall k u,
    users (mockDB (state_of (run op app))) !! k = Some u ->
    (User.status u = Some checked_in -> is_Some (User.checkInTime u)) /\
    (User.status u = Some checked_out -> User.checkInTime u = None).
Proof.
  intros Hinv. exact (preserves_run op app Hinv).
Qed.

(** The invariant holds in every state reached from the initial one. *)
Lemma attendance_invariant_reachable ops : db_inv (run_all ops initial_app).
Proof.
  generalize db_inv_initial. generalize initial_app.
  induction ops as [|op rest IH]; intros app Hinv; simpl.
  - exact Hinv.
  - apply IH. now apply preserves_run.
Qed.

Lemma db_inv_demo cu pos : db_inv (demo_app cu pos).
Proof.
  intros k u H. unfold demo_app, demo_db in H; simpl in H.
  repeat (apply lookup_insert_Some in H;
          destruct H as [[<- <-]|[_ H]];
          [split; simpl; [discriminate|reflexivity]|]).
  apply lookup_singleton_Some in H as [<- <-].
  split; simpl; [discriminate|reflexivity].
Qed.

End Invariant.

(** The theorem at the demo state: bob checks in at his site, and his
    record, now checked in, has its check-in time. *)
Lemma attendance_invariant_preserved_witness :
  exists u,
    users (mockDB (state_of
                     (run (op_checkIn demo_clock)
                        (demo_app (Some ("bob", bob)) (Some at_site)))))
      !! "bob" = Some u /\
    User.status u = Some checked_in /\
    is_Some (User.checkInTime u).
Proof.
  assert (Hrun :
    checkIn demo_clock (demo_app (Some ("bob", bob)) (Some at_site)) =
    Returned []
      (checked_in_state demo_clock (demo_app (Some ("bob", bob)) (Some at_site))
         "bob" bob bob at_site demo_company demo_site)).
  { apply checkIn_success; reflexivity. }
  assert (Hbob :
    users (mockDB (state_of
                     (run (op_checkIn demo_clock)
                        (demo_app (Some ("bob", bob)) (Some at_site)))))
      !! "bob" =
    Some (with_history
            (Some (push_capped
                     (HistoryPoint.mk 0 0 (toLocaleString demo_clock) "site_s")
                     []))
            (with_lastPing (Some (Date_now demo_clock))
               (with_checkInTime (Some (Date_now demo_clock))
                  (with_status (Some checked_in) bob))))).
  { simpl run. rewrite Hrun. cbn [state_of].
    unfold checked_in_state, set_companies, set_users; simpl.
    apply lookup_insert_eq. }
  eexists. split; [exact Hbob|].
  split; [reflexivity|].
  refine (proj1 (attendance_invariant_preserved (op_checkIn demo_clock)
                   (demo_app (Some ("bob", bob)) (Some at_site))
                   (db_inv_demo _ _) "bob" _ Hbob) eq_refl).
Defined.

(* ================================================================== *)
(** * Part III. Further properties of the operations *)
(* ================================================================== *)

Section Keeping.
Context {M : JSMath}.

Lemma keeps_andThen I m1 m2 : keeps I m1 -> keeps I m2 -> keeps I (m1 ;> m2).
Proof.
  intros H1 H2 app Hinv. unfold andThen.
  specialize (H1 app Hinv).
  destruct (m1 app) as [out app1|out app1]; simpl in *.
  - rewrite state_of_after. now apply H2.
  - exact H1.
Qed.

Lemma keeps_emit I e : keeps I (emit e).
Proof. intros app Hinv. exact Hinv. Qed.

Lemma keeps_refreshDashboard I : keeps I refreshDashboard.
Proof. intros app Hinv. now rewrite refreshDashboard_state. Qed.

End Keeping.

Create HintDb keeps.

#[export] Hint Resolve keeps_andThen keeps_emit keeps_refreshDashboard : keeps.

Ltac through_kept_call :=
  lazymatch goal with
  | |- ?I (state_of (?m ?a)) =>
    let H := fresh "Hkeeps" in
    assert (H : keeps I m) by eauto 10 with keeps;
    apply H; clear H
  end.

Ltac open_state :=
  map_lookups;
  repeat first
    [ rewrite state_of_after
    | rewrite refreshDashboard_state
    | progress cbn [state_of]
    | through_kept_call ].

Ltac map_hyps :=
  repeat match goal with
  | H : <[_ := _]> _ !! _ = Some _ |- _ =>
    apply lookup_insert_Some in H; destruct H as [[? ?]|[? H]]; subst
  | H : delete _ _ !! _ = Some _ |- _ =>
    apply lookup_delete_Some in H; destruct H as [? H]
  | H : Some _ = Some _ |- _ => injection H as H; subst
  end.

Ltac unfold_setters :=
  unfold set_users, set_companies, set_currentUser, set_currentPosition,
    set_pendingUser, set_trackingInterval, company_of in *;
  simpl in *.

Ltac caps_leaf :=
  open_state;
  match goal with
  | Hinv : caps_inv _ |- caps_inv _ =>
    destruct Hinv as [Hh Hl]; split;
    [ intros k0 u0 h0 Hk0 Hh0 | intros k0 c0 Hk0 ];
    unfold_setters; map_hyps; simpl in *;
    solve [ eauto
          | simplify_eq; simpl; lia
          | simplify_eq; eauto using push_capped_length, unshift_capped_length ]
  end.

Section Caps.
Context {M : JSMath}.

Lemma caps_addLog cid u a t : keeps caps_inv (addLog cid u a t).
Proof. intros app Hinv. unfold addLog. repeat case_match; caps_leaf. Qed.

Lemma caps_trackLocation clk s : keeps caps_inv (trackLocation clk s).
Proof.
  intros app Hinv. unfold trackLocation. repeat case_match; try caps_leaf.
  open_state. destruct Hinv as [Hh Hl]. split; [|exact Hl].
  intros k0 u0 h0 Hk0 Hh0. unfold_setters. map_hyps; [|eauto].
  simpl in *. simplify_eq. apply push_capped_length.
  destruct (User.history _) eqn:Hhist; simpl; [eauto|lia].
Qed.

Lemma caps_logout : keeps caps_inv logout.
Proof. intros app Hinv. exact Hinv. Qed.

Lemma caps_arm : keeps caps_inv (fun a => Returned [] (set_trackingInterval true a)).
Proof. intros app Hinv. exact Hinv. Qed.

#[local] Hint Resolve caps_addLog caps_trackLocation caps_logout caps_arm : keeps.

Lemma caps_checkOut clk r : keeps caps_inv (checkOut clk r).
Proof. intros app Hinv. unfold checkOut. repeat case_match; caps_leaf. Qed.

#[local] Hint Resolve caps_checkOut : keeps.

Lemma caps_monitorGeofence clk : keeps caps_inv (monitorGeofence clk).
Proof. intros app Hinv. unfold monitorGeofence. repeat case_match; caps_leaf. Qed.

#[local] Hint Resolve caps_monitorGeofence : keeps.

Lemma caps_monitor_if_employee clk : keeps caps_inv (monitor_if_employee clk).
Proof. intros app Hinv. unfold monitor_if_employee. repeat case_match; caps_leaf. Qed.

Lemma caps_checkGeofence : keeps caps_inv checkGeofence.
Proof. intros app Hinv. unfold checkGeofence. repeat case_match; caps_leaf. Qed.

#[local] Hint Resolve caps_monitor_if_employee caps_checkGeofence : keeps.

Lemma keeps_caps_run op : keeps caps_inv (run op).
Proof.
  destruct op; simpl; intros app Hinv.
  - unfold registerNewCompany. repeat case_match; caps_leaf.
  - unfold registerNewEmployeeUser. repeat case_match; caps_leaf.
  - unfold verifyAccount. repeat case_match; caps_leaf.
  - unfold login. repeat case_match; caps_leaf.
  - unfold logout. caps_leaf.
  - unfold watchPosition_success. caps_leaf.
  - unfold useMockLocation. caps_leaf.
  - unfold debugSetLocation. caps_leaf.
  - unfold createSite. repeat case_match; caps_leaf.
  - unfold updateSiteLocation. repeat case_match; caps_leaf.
  - unfold registerEmployee. cbv beta zeta. repeat case_match; caps_leaf.
  - unfold removeEmployee. repeat case_match; caps_leaf.
  - unfold checkIn. repeat case_match; caps_leaf.
  - apply caps_trackLocation; assumption.
  - apply caps_checkOut; assumption.
Qed.

End Caps.

(** ** Referential integrity *)

Ltac intact_leaf :=
  open_state;
  match goal with
  | Hinv : intact _ |- intact _ =>
    destruct Hinv as [Hu Hs]; split;
    [ intros k0 u0 Hk0 c0 Hc0 | intros n0 cu0 Hk0 c0 Hc0 ];
    unfold company_known in *;
    unfold_setters; map_hyps; simpl in *;
    rewrite ?lookup_insert_is_Some';
    solve [ eauto
          | simplify_eq; eauto
          | right; simplify_eq; eauto
          | left; simplify_eq; eauto ]
  end.

Section Intact.
Context {M : JSMath}.

Lemma intact_addLog cid u a t : keeps intact (addLog cid u a t).
Proof. intros app Hinv. unfold addLog. repeat case_match; intact_leaf. Qed.

Lemma intact_trackLocation clk s : keeps intact (trackLocation clk s).
Proof. intros app Hinv. unfold trackLocation. repeat case_match; intact_leaf. Qed.

Lemma intact_logout : keeps intact logout.
Proof. intros app Hinv. unfold logout. intact_leaf. Qed.

Lemma intact_arm : keeps intact (fun a => Returned [] (set_trackingInterval true a)).
Proof. intros app Hinv. exact Hinv. Qed.

#[local] Hint Resolve intact_addLog intact_trackLocation intact_logout
  intact_arm : keeps.

Lemma intact_checkOut clk r : keeps intact (checkOut clk r).
Proof. intros app Hinv. unfold checkOut. repeat case_match; intact_leaf. Qed.

#[local] Hint Resolve intact_checkOut : keeps.

Lemma intact_monitorGeofence clk : keeps intact (monitorGeofence clk).
Proof. intros app Hinv. unfold monitorGeofence. repeat case_match; intact_leaf. Qed.

#[local] Hint Resolve intact_monitorGeofence : keeps.

Lemma intact_monitor_if_employee clk : keeps intact (monitor_if_employee clk).
Proof.
  intros app Hinv. unfold monitor_if_employee. repeat case_match; intact_leaf.
Qed.

Lemma intact_checkGeofence : keeps intact checkGeofence.
Proof. intros app Hinv. unfold checkGeofence. repeat case_match; intact_leaf. Qed.

#[local] Hint Resolve intact_monitor_if_employee intact_checkGeofence : keeps.

Lemma intact_run op : keeps intact (run op).
Proof.
  destruct op; simpl; intros app Hinv.
  - unfold registerNewCompany. repeat case_match; intact_leaf.
  - unfold registerNewEmployeeUser. repeat case_match; intact_leaf.
  - unfold verifyAccount. repeat case_match; intact_leaf.
  - unfold login. repeat case_match; intact_leaf.
  - unfold logout. intact_leaf.
  - unfold watchPosition_success. intact_leaf.
  - unfold useMockLocation. intact_leaf.
  - unfold debugSetLocation. intact_leaf.
  - unfold createSite. repeat case_match; intact_leaf.
  - unfold updateSiteLocation. repeat case_match; intact_leaf.
  - unfold registerEmployee. cbv beta zeta. repeat case_match; intact_leaf.
  - unfold removeEmployee. repeat case_match; intact_leaf.
  - unfold checkIn. repeat case_match; intact_leaf.
  - apply intact_trackLocation; assumption.
  - apply intact_checkOut; assumption.
Qed.

End Intact.

(** ** Rosters *)

Section Rosters.
Context {M : JSMath}.

Lemma find_named_None name (roster : list Employee.t) :
  List.find (fun e => bool_decide (Employee.username e = name)) roster = None ->
  ~ In name (map Employee.username roster).
Proof.
  intros Hfind Hin. apply in_map_iff in Hin as (e & He & Hin).
  pose proof (find_none _ _ Hfind e Hin) as Hb. simpl in Hb.
  rewrite bool_decide_eq_true_2 in Hb by exact He. discriminate.
Qed.

Lemma roster_append_distinct name contact site (roster : list Employee.t) :
  List.find (fun e => bool_decide (Employee.username e = name)) roster = None ->
  NoDup (map Employee.username roster) ->
  NoDup (map Employee.username (roster ++ [Employee.mk name contact site])).
Proof.
  intros Hfind Hnd. rewrite map_app. simpl.
  apply NoDup_app. split; [exact Hnd|]. split.
  - intros x Hx Hx'. apply list_elem_of_In in Hx.
    apply list_elem_of_singleton in Hx'. subst x.
    exact (find_named_None _ _ Hfind Hx).
  - apply NoDup_singleton.
Qed.

Lemma roster_update_first_names (p : Employee.t -> bool) site
    (roster : list Employee.t) :
  map Employee.username
    (update_first p
       (fun e => Employee.mk (Employee.username e) (Employee.contact e) site)
       roster) =
  map Employee.username roster.
Proof.
  induction roster as [|e roster IH]; [reflexivity|].
  simpl. destruct (p e); simpl; [reflexivity|]. now rewrite IH.
Qed.

Lemma roster_filter_distinct (p : Employee.t -> bool) (roster : list Employee.t) :
  NoDup (map Employee.username roster) ->
  NoDup (map Employee.username (List.filter p roster)).
Proof.
  induction roster as [|e roster IH]; [trivial|].
  simpl. intros Hnd. apply NoDup_cons in Hnd as [Hnotin Hnd].
  destruct (p e); simpl; [|now apply IH].
  apply NoDup_cons. split; [|now apply IH].
  intros Hin. apply Hnotin.
  apply list_elem_of_In in Hin. apply list_elem_of_In.
  apply in_map_iff in Hin as (e' & He' & Hin).
  apply in_map_iff. exists e'. split; [exact He'|].
  apply filter_In in Hin. tauto.
Qed.

End Rosters.

Ltac rosters_leaf :=
  open_state;
  match goal with
  | Hinv : rosters_distinct _ |- rosters_distinct _ =>
    intros k0 c0 Hk0;
    unfold rosters_distinct in Hinv;
    unfold_setters; map_hyps; simpl in *;
    rewrite ?roster_update_first_names;
    solve [ eauto
          | apply NoDup_nil; exact I
          | constructor
          | eauto using roster_append_distinct, roster_filter_distinct ]
  end.

Section RostersKept.
Context {M : JSMath}.

Lemma rosters_addLog cid u a t : keeps rosters_distinct (addLog cid u a t).
Proof. intros app Hinv. unfold addLog. repeat case_match; rosters_leaf. Qed.

Lemma rosters_trackLocation clk s : keeps rosters_distinct (trackLocation clk s).
Proof.
  intros app Hinv. unfold trackLocation. repeat case_match; rosters_leaf.
Qed.

Lemma rosters_logout : keeps rosters_distinct logout.
Proof. intros app Hinv. exact Hinv. Qed.

Lemma rosters_arm :
  keeps rosters_distinct (fun a => Returned [] (set_trackingInterval true a)).
Proof. intros app Hinv. exact Hinv. Qed.

#[local] Hint Resolve rosters_addLog rosters_trackLocation rosters_logout
  rosters_arm : keeps.

Lemma rosters_checkOut clk r : keeps rosters_distinct (checkOut clk r).
Proof. intros app Hinv. unfold checkOut. repeat case_match; rosters_leaf. Qed.

#[local] Hint Resolve rosters_checkOut : keeps.

Lemma rosters_monitorGeofence clk : keeps rosters_distinct (monitorGeofence clk).
Proof.
  intros app Hinv. unfold monitorGeofence. repeat case_match; rosters_leaf.
Qed.

#[local] Hint Resolve rosters_monitorGeofence : keeps.

Lemma rosters_monitor_if_employee clk :
  keeps rosters_distinct (monitor_if_employee clk).
Proof.
  intros app Hinv. unfold monitor_if_employee. repeat case_match; rosters_leaf.
Qed.

Lemma rosters_checkGeofence : keeps rosters_distinct checkGeofence.
Proof.
  intros app Hinv. unfold checkGeofence. repeat case_match; rosters_leaf.
Qed.

#[local] Hint Resolve rosters_monitor_if_employee rosters_checkGeofence : keeps.

Lemma rosters_run op : keeps rosters_distinct (run op).
Proof.
  destruct op; simpl; intros app Hinv.
  - unfold registerNewCompany. repeat case_match; rosters_leaf.
  - unfold registerNewEmployeeUser. repeat case_match; rosters_leaf.
  - unfold verifyAccount. repeat case_match; rosters_leaf.
  - unfold login. repeat case_match; rosters_leaf.
  - unfold logout. rosters_leaf.
  - unfold watchPosition_success. rosters_leaf.
  - unfold useMockLocation. rosters_leaf.
  - unfold debugSetLocation. rosters_leaf.
  - unfold createSite. repeat case_match; rosters_leaf.
  - unfold updateSiteLocation. repeat case_match; rosters_leaf.
  - unfold registerEmployee. cbv beta zeta. repeat case_match; rosters_leaf.
  - unfold removeEmployee. repeat case_match; rosters_leaf.
  - unfold checkIn. repeat case_match; rosters_leaf.
  - apply rosters_trackLocation; assumption.
  - apply rosters_checkOut; assumption.
Qed.

End RostersKept.

(** ** What stays of an account *)

Section AccountsKept.
Context {M : JSMath}.

Lemma same_account_refl u : same_account u u.
Proof. repeat split; auto. Qed.

Lemma accounts_kept_refl app : accounts_kept app app.
Proof. intros k u Hk. exists u. split; [exact Hk|apply same_account_refl]. Qed.

Lemma companies_kept_refl app : companies_kept app app.
Proof. intros k Hk. exact Hk. Qed.

End AccountsKept.

Ltac same_account_tac :=
  match goal with
  | Hsame : same_account _ _ |- same_account _ _ =>
    destruct Hsame as (Hr & Hv & Hc); unfold same_account; simpl;
    split; [|split];
    [ try congruence
    | intros; try reflexivity; eauto
    | let c := fresh "c" in let Hc0 := fresh "Hc0" in
      intros c Hc0; try (apply Hc in Hc0); try congruence ]
  end.

Ltac accounts_leaf :=
  open_state;
  match goal with
  | Hinv : accounts_kept ?a0 _ |- accounts_kept ?a0 _ =>
    let k0 := fresh "k0" in let u0 := fresh "u0" in let Hk0 := fresh "Hk0" in
    let u1 := fresh "u1" in let Hu1 := fresh "Hu1" in
    let Hsame := fresh "Hsame" in
    intros k0 u0 Hk0;
    destruct (Hinv k0 u0 Hk0) as (u1 & Hu1 & Hsame); clear Hinv;
    unfold_setters;
    try match goal with
    | |- context [<[?k1 := _]> _ !! ?k] =>
      destruct (decide (k1 = k)) as [->|];
      [ rewrite lookup_insert_eq | rewrite lookup_insert_ne by assumption ]
    end;
    solve [ eauto
          | simplify_eq
          | eexists; split; [reflexivity|]; simplify_eq; same_account_tac ]
  end.

Ltac companies_leaf :=
  open_state;
  match goal with
  | Hinv : companies_kept ?a0 _ |- companies_kept ?a0 _ =>
    let k0 := fresh "k0" in let Hk0 := fresh "Hk0" in
    intros k0 Hk0; apply Hinv in Hk0; clear Hinv;
    unfold_setters; rewrite ?lookup_insert_is_Some';
    solve [ eauto ]
  end.

Section AccountsKeptByOps.
Context {M : JSMath}.

Variable app0 : HRApp.

Lemma accounts_addLog cid u a t : keeps (accounts_kept app0) (addLog cid u a t).
Proof. intros app Hinv. unfold addLog. repeat case_match; accounts_leaf. Qed.

Lemma accounts_trackLocation clk s :
  keeps (accounts_kept app0) (trackLocation clk s).
Proof.
  intros app Hinv. unfold trackLocation. repeat case_match; accounts_leaf.
Qed.

Lemma accounts_logout : keeps (accounts_kept app0) logout.
Proof. intros app Hinv. exact Hinv. Qed.

Lemma accounts_arm :
  keeps (accounts_kept app0) (fun a => Returned [] (set_trackingInterval true a)).
Proof. intros app Hinv. exact Hinv. Qed.

#[local] Hint Resolve accounts_addLog accounts_trackLocation accounts_logout
  accounts_arm : keeps.

Lemma accounts_checkOut clk r : keeps (accounts_kept app0) (checkOut clk r).
Proof. intros app Hinv. unfold checkOut. repeat case_match; accounts_leaf. Qed.

#[local] Hint Resolve accounts_checkOut : keeps.

Lemma accounts_monitorGeofence clk :
  keeps (accounts_kept app0) (monitorGeofence clk).
Proof.
  intros app Hinv. unfold monitorGeofence. repeat case_match; accounts_leaf.
Qed.

#[local] Hint Resolve accounts_monitorGeofence : keeps.

Lemma accounts_monitor_if_employee clk :
  keeps (accounts_kept app0) (monitor_if_employee clk).
Proof.
  intros app Hinv. unfold monitor_if_employee. repeat case_match; accounts_leaf.
Qed.

Lemma accounts_checkGeofence : keeps (accounts_kept app0) checkGeofence.
Proof.
  intros app Hinv. unfold checkGeofence. repeat case_match; accounts_leaf.
Qed.

#[local] Hint Resolve accounts_monitor_if_employee accounts_checkGeofence : keeps.

(** Every operation but the removal of an employee keeps the accounts. *)
Lemma accounts_run op :
  (forall name confirmed, op <> op_removeEmployee name confirmed) ->
  keeps (accounts_kept app0) (run op).
Proof.
  intros Hop. destruct op; simpl; intros app Hinv.
  - unfold registerNewCompany. repeat case_match; accounts_leaf.
  - unfold registerNewEmployeeUser. repeat case_match; accounts_leaf.
  - unfold verifyAccount. repeat case_match; accounts_leaf.
  - unfold login. repeat case_match; accounts_leaf.
  - unfold logout. accounts_leaf.
  - unfold watchPosition_success. accounts_leaf.
  - unfold useMockLocation. accounts_leaf.
  - unfold debugSetLocation. accounts_leaf.
  - unfold createSite. repeat case_match; accounts_leaf.
  - unfold updateSiteLocation. repeat case_match; accounts_leaf.
  - unfold registerEmployee. cbv beta zeta. repeat case_match; accounts_leaf.
  - exfalso. now apply (Hop username confirmed).
  - unfold checkIn. repeat case_match; accounts_leaf.
  - apply accounts_trackLocation; assumption.
  - apply accounts_checkOut; assumption.
Qed.

Lemma companies_addLog cid u a t : keeps (companies_kept app0) (addLog cid u a t).
Proof. intros app Hinv. unfold addLog. repeat case_match; companies_leaf. Qed.

Lemma companies_trackLocation clk s :
  keeps (companies_kept app0) (trackLocation clk s).
Proof.
  intros app Hinv. unfold trackLocation. repeat case_match; companies_leaf.
Qed.

Lemma companies_logout : keeps (companies_kept app0) logout.
Proof. intros app Hinv. exact Hinv. Qed.

Lemma companies_arm :
  keeps (companies_kept app0) (fun a => Returned [] (set_trackingInterval true a)).
Proof. intros app Hinv. exact Hinv. Qed.

#[local] Hint Resolve companies_addLog companies_trackLocation companies_logout
  companies_arm : keeps.

Lemma companies_checkOut clk r : keeps (companies_kept app0) (checkOut clk r).
Proof. intros app Hinv. unfold checkOut. repeat case_match; companies_leaf. Qed.

#[local] Hint Resolve companies_checkOut : keeps.

Lemma companies_monitorGeofence clk :
  keeps (companies_kept app0) (monitorGeofence clk).
Proof.
  intros app Hinv. unfold monitorGeofence. repeat case_match; companies_leaf.
Qed.

#[local] Hint Resolve companies_monitorGeofence : keeps.

Lemma companies_monitor_if_employee clk :
  keeps (companies_kept app0) (monitor_if_employee clk).
Proof.
  intros app Hinv. unfold monitor_if_employee. repeat case_match; companies_leaf.
Qed.

Lemma companies_checkGeofence : keeps (companies_kept app0) checkGeofence.
Proof.
  intros app Hinv. unfold checkGeofence. repeat case_match; companies_leaf.
Qed.

#[local] Hint Resolve companies_monitor_if_employee companies_checkGeofence
  : keeps.

Lemma companies_run op : keeps (companies_kept app0) (run op).
Proof.
  destruct op; simpl; intros app Hinv.
  - unfold registerNewCompany. repeat case_match; companies_leaf.
  - unfold registerNewEmployeeUser. repeat case_match; companies_leaf.
  - unfold verifyAccount. repeat case_match; companies_leaf.
  - unfold login. repeat case_match; companies_leaf.
  - unfold logout. companies_leaf.
  - unfold watchPosition_success. companies_leaf.
  - unfold useMockLocation. companies_leaf.
  - unfold debugSetLocation. companies_leaf.
  - unfold createSite. repeat case_match; companies_leaf.
  - unfold updateSiteLocation. repeat case_match; companies_leaf.
  - unfold registerEmployee. cbv beta zeta. repeat case_match; companies_leaf.
  - unfold removeEmployee. repeat case_match; companies_leaf.
  - unfold checkIn. repeat case_match; companies_leaf.
  - apply companies_trackLocation; assumption.
  - apply companies_checkOut; assumption.
Qed.

End AccountsKeptByOps.

(** ** Properties kept by every operation *)

Section KeptByEveryOperation.
Context {M : JSMath}.

Lemma caps_initial : caps_inv initial_app.
Proof.
  unfold caps_inv, initial_app, defaultDB; simpl. split.
  - intros k u h [<- <-]%lookup_singleton_Some. discriminate.
  - intros k c [<- <-]%lookup_singleton_Some. simpl. lia.
Qed.

Lemma intact_initial : intact initial_app.
Proof.
  unfold intact, company_known, initial_app, defaultDB; simpl. split.
  - intros k u [<- <-]%lookup_singleton_Some c [= <-].
    rewrite lookup_singleton_eq. eauto.
  - intros name cu H. discriminate H.
Qed.

Lemma rosters_initial : rosters_distinct initial_app.
Proof.
  unfold rosters_distinct, initial_app, defaultDB; simpl.
  intros k c [<- <-]%lookup_singleton_Some. simpl. constructor.
Qed.

(** X1. The caps hold in the whole store after every operation: if no
    history is longer than 50 and no company log longer than 20, the same
    is true after the operation, whether it returns or stops on an error. *)
Theorem buffers_stay_bounded op app :
  caps_inv app -> caps_inv (state_of (run op app)).
Proof. apply keeps_caps_run. Qed.

(** X2. No operation breaks referential integrity: if the company id of
    every user record and of the session names a company of the store,
    the same is true after the operation. *)
Theorem referential_integrity_kept op app :
  intact app -> intact (state_of (run op app)).
Proof. apply intact_run. Qed.

(** X3. In a store with referential integrity [login] always returns: the
    unguarded read of [company.sites] never meets a missing record. *)
Theorem login_returns_when_intact username companyInput passInput app :
  intact app ->
  exists out app', login username companyInput passInput app = Returned out app'.
Proof.
  intros [Hu Hs]. unfold login, refreshDashboard, company_of.
  repeat case_match; simpl; eauto.
  all: exfalso; map_lookups; unfold set_currentUser in *; simpl in *;
       simplify_eq.
  all: match goal with
       | H : users (mockDB _) !! _ = Some ?u |- _ =>
         destruct (User.companyId u) as [c|] eqn:Hc; [|simpl in *; discriminate];
         destruct (Hu _ _ H c Hc) as [x Hx]; simpl in *; congruence
       end.
Qed.

(** X4. No operation makes a roster list a user name twice. *)
Theorem rosters_stay_distinct op app :
  rosters_distinct app -> rosters_distinct (state_of (run op app)).
Proof. apply rosters_run. Qed.

End KeptByEveryOperation.

Lemma buffers_stay_bounded_witness :
  caps_inv (state_of (run (op_registerNewCompany "Acme" "ann" "ACME1234" "4321")
                        initial_app)).
Proof. apply buffers_stay_bounded. apply caps_initial. Defined.

Lemma referential_integrity_kept_witness :
  intact (state_of (run (op_registerNewCompany "Acme" "ann" "ACME1234" "4321")
                      initial_app)).
Proof. apply referential_integrity_kept. apply intact_initial. Defined.

Lemma login_returns_when_intact_witness :
  exists out app', login "manager" "" "" initial_app = Returned out app'.
Proof. apply login_returns_when_intact. apply intact_initial. Defined.

Lemma rosters_stay_distinct_witness :
  rosters_distinct
    (state_of (run (op_registerEmployee "bob" "bob@acme.test" "site_1" "")
                 (set_currentUser
                    (Some ("manager",
                           User.mk manager (Some "DEMO") None None None None
                             None None None true None None))
                    initial_app))).
Proof.
  apply rosters_stay_distinct. apply rosters_initial.
Defined.

Section Persistence.
Context {M : JSMath}.

Lemma state_of_refresh_then_emit e app :
  state_of ((refreshDashboard ;> emit e) app) = app.
Proof.
  unfold andThen. pose proof (refreshDashboard_state app) as Hst.
  destruct (refreshDashboard app); simpl in *; congruence.
Qed.

(** X5. A user record outlives every operation but its own confirmed
    removal, and stays the same account: its role is never changed, a
    company once set is never replaced, and a verified account is never
    set back to unverified. *)
Theorem accounts_persist op app k u :
  users (mockDB app) !! k = Some u ->
  (exists u',
      users (mockDB (state_of (run op app))) !! k = Some u' /\
      same_account u u') \/
  (op = op_removeEmployee k true /\
   users (mockDB (state_of (run op app))) !! k = None).
Proof.
  intros Hk.
  assert (Hcases :
    (forall name confirmed, op <> op_removeEmployee name confirmed) \/
    exists name confirmed, op = op_removeEmployee name confirmed).
  { destruct op; try (left; intros; discriminate). right; eauto. }
  destruct Hcases as [Hop|(name & confirmed & ->)].
  - left. exact (accounts_run app op Hop app (accounts_kept_refl app) k u Hk).
  - simpl run. unfold removeEmployee.
    destruct confirmed; cbn [negb];
      [|left; exists u; split; [exact Hk|apply same_account_refl]].
    repeat case_match; cbn [state_of];
      try (left; exists u; split; [exact Hk|apply same_account_refl]).
    rewrite state_of_refresh_then_emit. unfold set_users; simpl.
    destruct (decide (name = k)) as [->|Hne].
    + right. split; [reflexivity|apply lookup_delete_eq].
    + left. exists u. rewrite lookup_delete_ne by exact Hne.
      split; [exact Hk|apply same_account_refl].
Qed.

(** X6. No operation removes a company from the store. *)
Theorem companies_never_removed op app k :
  is_Some (companies (mockDB app) !! k) ->
  is_Some (companies (mockDB (state_of (run op app))) !! k).
Proof.
  intros Hk. exact (companies_run app op app (companies_kept_refl app) k Hk).
Qed.

End Persistence.

Lemma accounts_persist_witness :
  exists u',
    users (mockDB (state_of (run (op_checkIn demo_clock)
                               (demo_app (Some ("bob", bob)) (Some at_site)))))
      !! "bob" = Some u' /\
    same_account bob u'.
Proof.
  destruct (accounts_persist (op_checkIn demo_clock)
              (demo_app (Some ("bob", bob)) (Some at_site)) "bob" bob eq_refl)
    as [H|[H _]]; [exact H|discriminate H].
Defined.

Lemma companies_never_removed_witness :
  is_Some (companies
             (mockDB (state_of (run (op_removeEmployee "eve" true) boss_app)))
           !! "OTHR5678").
Proof.
  apply companies_never_removed.
  exists other_company. reflexivity.
Defined.

(** ** Login *)

Section Login.
Context {M : JSMath}.

(** X7. [login] never touches the store or the position, and it opens a
    session only for an existing, verified user linked to a company, whose
    company id matches what was typed (if anything was), whose passcode
    (if the account has one) was typed, and for whom, being an employee,
    the position is known, the assigned site exists and the test
    [dist > MAX_DISTANCE_METERS] on the computed distance is false (as it
    is within 100 m, and for a distance computed as [NaN]). *)
Theorem login_opens_session_only_when username companyInput passInput app :
  let app' := state_of (login username companyInput passInput app) in
  mockDB app' = mockDB app /\
  currentPosition app' = currentPosition app /\
  (currentUser app' = currentUser app \/
   exists u,
     users (mockDB app) !! username = Some u /\
     currentUser app' = Some (username, u) /\
     User.verified u = true /\
     truthy_opt (User.companyId u) = true /\
     (truthy companyInput = true -> User.companyId u = Some companyInput) /\
     (truthy_opt (User.passcode u) = true -> User.passcode u = Some passInput) /\
     (User.role u = employee ->
      exists pos c site,
        currentPosition app = Some pos /\
        company_of app (User.companyId u) = Some c /\
        find_site (User.assignedSiteId u) (Company.sites c) = Some site /\
        gt (distance_to pos site) MAX_DISTANCE_METERS = false)).
Proof.
  cbv zeta. unfold login.
  repeat case_match; rewrite ?state_of_after, ?refreshDashboard_state;
    cbn [state_of]; cbn [set_currentUser set_pendingUser mockDB currentUser
                          currentPosition];
    (split; [reflexivity|]); (split; [congruence|]);
    try (left; congruence).
  all: map_lookups.
  all: right; eexists; (split; [first [eassumption|reflexivity]|]).
  all: (split; [reflexivity|]).
  all: repeat match goal with
       | H : negb _ = false |- _ => apply negb_false_iff in H
       | H : _ && _ = false |- _ => apply andb_false_iff in H
       | H : bool_decide _ = true |- _ => apply bool_decide_eq_true in H
       end.
  all: simplify_eq.
  all: split; [first [assumption|reflexivity|congruence]|];
       split; [first [assumption|reflexivity|congruence]|].
  all: split;
       [ intros Ht; try discriminate Ht;
         match goal with
         | H : _ \/ negb (bool_decide (User.companyId _ = _)) = false |- _ =>
           destruct H as [H|H];
           [congruence|apply negb_false_iff, bool_decide_eq_true in H]
         end; congruence
       | ].
  all: split;
       [ intros Ht;
         match goal with
         | H : _ \/ negb (bool_decide (Some _ = User.passcode _)) = false |- _ =>
           destruct H as [H|H];
           [congruence|apply negb_false_iff, bool_decide_eq_true in H]
         end; congruence
       | ].
  all: intros Hrole; try congruence.
  all: match goal with
       | Hs : find_site _ (Company.sites ?c) = Some ?site,
         Hn : gt (distance_to ?pos ?site) _ = false |- _ =>
         exists pos, c, site; repeat split;
         first [assumption|reflexivity|congruence]
       end.
Qed.

(** X8. A verified manager who gives the right company id (or none) and
    the right passcode (if any) is logged in whatever the position is, even
    with none: the location gate is for employees only. *)
Theorem login_manager_not_gated username companyInput passInput app u c company :
  truthy username = true ->
  users (mockDB app) !! username = Some u ->
  User.role u = manager ->
  User.verified u = true ->
  User.companyId u = Some c ->
  truthy c = true ->
  companyInput = "" \/ companyInput = c ->
  (truthy_opt (User.passcode u) = true -> Some passInput = User.passcode u) ->
  company_of app (Some c) = Some company ->
  login username companyInput passInput app =
  Returned ((if truthy companyInput then [] else [alert (msg_found_company c)])
            ++ [showView view_manager])
    (set_currentUser (Some (username, u)) app).
Proof.
  intros Hname Hu Hrole Hver Hcid Hc Hinput Hpass Hcomp.
  unfold login. rewrite Hname, (js_get_own _ _ _ Hu). cbn [negb].
  assert (Hdet :
    (if truthy companyInput then Some (companyInput, [])
     else match User.companyId u with
          | Some c0 =>
            if truthy c0 then Some (c0, [alert (msg_found_company c0)]) else None
          | None => None
          end) =
    Some (c, if truthy companyInput then [] else [alert (msg_found_company c)])).
  { rewrite Hcid, Hc. destruct Hinput as [->| ->].
    - reflexivity.
    - now rewrite Hc. }
  rewrite Hdet. clear Hdet.
  rewrite Hcid. cbn [truthy_opt]. rewrite Hc.
  rewrite bool_decide_eq_true_2 by reflexivity. cbn [negb andb].
  assert (Hp1 : truthy_opt (User.passcode u) && negb (truthy passInput) = false).
  { destruct (truthy_opt (User.passcode u)) eqn:Hp; [|reflexivity].
    specialize (Hpass eq_refl). rewrite <- Hpass in Hp. simpl in Hp.
    now rewrite Hp. }
  assert (Hp2 : truthy_opt (User.passcode u)
                && negb (bool_decide (Some passInput = User.passcode u)) = false).
  { destruct (truthy_opt (User.passcode u)) eqn:Hp; [|reflexivity].
    specialize (Hpass eq_refl).
    now rewrite bool_decide_eq_true_2 by exact Hpass. }
  rewrite Hp1, Hp2, Hver, Hrole. cbn [negb].
  rewrite (refreshDashboard_company _ username u company);
    [reflexivity|reflexivity|].
  rewrite Hcid. exact Hcomp.
Qed.

End Login.

Lemma login_manager_not_gated_witness :
  login "boss" "" "" (demo_app None None) =
  Returned [alert (msg_found_company "ACME1234"); showView view_manager]
    (demo_app (Some ("boss", boss)) None).
Proof.
  apply (login_manager_not_gated "boss" "" "" (demo_app None None) boss
           "ACME1234" demo_company); try reflexivity.
  - now left.
  - intros H; discriminate H.
Defined.

(** ** Verification *)

Section Verification.
Context {M : JSMath}.

(** The state a successful verification leaves. *)
Lemma verifyAccount_accepts codeInput app name pu u :
  pendingUser app = Some (name, pu) ->
  users (mockDB app) !! name = Some u ->
  Some codeInput = User.verifyCode u \/ codeInput = "1234" ->
  exists app',
    verifyAccount codeInput app =
      Returned [alert msg_verified; showView (view_of (User.role u))] app' /\
    currentUser app' = Some (name, with_verified true u) /\
    pendingUser app' = None /\
    currentPosition app' = currentPosition app /\
    users (mockDB app') = <[name := with_verified true u]> (users (mockDB app)) /\
    (forall k c, companies (mockDB app) !! k = Some c ->
                 companies (mockDB app') !! k = Some c).
Proof.
  intros Hp Hu Hcode. unfold verifyAccount. rewrite Hp, Hu.
  assert (Hgate : negb (bool_decide (Some codeInput = User.verifyCode u))
                  && negb (bool_decide (codeInput = "1234")) = false).
  { destruct Hcode as [H|H].
    - now rewrite bool_decide_eq_true_2 by exact H.
    - rewrite (bool_decide_eq_true_2 (codeInput = "1234")) by exact H.
      apply andb_false_r. }
  rewrite Hgate. cbv zeta.
  set (u' := with_verified true u).
  set (app2 := set_pendingUser None _).
  destruct (company_of app2 (User.companyId u')) as [c|] eqn:Hc.
  - exists app2. split; [|repeat split; auto].
    rewrite (refreshDashboard_company app2 name u' c);
      [reflexivity|reflexivity|exact Hc].
  - destruct (User.role u') eqn:Hrole.
    + exists (set_companies
                <[key_of (User.companyId u') := Company.mk None [] [] []]> app2).
      split; [|repeat split].
      * rewrite (refreshDashboard_company _ name u' (Company.mk None [] [] []));
          [ change (User.role u) with (User.role u'); rewrite Hrole; reflexivity
          | reflexivity
          | apply company_of_set_companies_eq ].
      * intros k c Hk. unfold set_companies; simpl.
        rewrite lookup_insert_ne; [exact Hk|].
        intros <-. unfold company_of in Hc. simpl in Hc. congruence.
    + exists app2. split; [|repeat split; auto].
      rewrite (refreshDashboard_employee app2 name u');
        [ change (User.role u) with (User.role u'); rewrite Hrole; reflexivity
        | reflexivity | exact Hrole ].
Qed.

(** [login] sends an unverified user to verification as soon as the
    company id and the passcode are accepted. *)
Lemma login_unverified username companyInput passInput app u c :
  truthy username = true ->
  users (mockDB app) !! username = Some u ->
  User.verified u = false ->
  User.companyId u = Some c ->
  truthy c = true ->
  companyInput = "" \/ companyInput = c ->
  (truthy_opt (User.passcode u) = true -> Some passInput = User.passcode u) ->
  login username companyInput passInput app =
  Returned ((if truthy companyInput then [] else [alert (msg_found_company c)])
            ++ [showView view_verify])
    (set_pendingUser (Some (username, u)) app).
Proof.
  intros Hname Hu Hver Hcid Hc Hinput Hpass.
  unfold login. rewrite Hname, (js_get_own _ _ _ Hu). cbn [negb].
  assert (Hdet :
    (if truthy companyInput then Some (companyInput, [])
     else match User.companyId u with
          | Some c0 =>
            if truthy c0 then Some (c0, [alert (msg_found_company c0)]) else None
          | None => None
          end) =
    Some (c, if truthy companyInput then [] else [alert (msg_found_company c)])).
  { rewrite Hcid, Hc. destruct Hinput as [->| ->].
    - reflexivity.
    - now rewrite Hc. }
  rewrite Hdet. clear Hdet.
  rewrite Hcid. cbn [truthy_opt]. rewrite Hc.
  rewrite bool_decide_eq_true_2 by reflexivity. cbn [negb andb].
  assert (Hp1 : truthy_opt (User.passcode u) && negb (truthy passInput) = false).
  { destruct (truthy_opt (User.passcode u)) eqn:Hp; [|reflexivity].
    specialize (Hpass eq_refl). rewrite <- Hpass in Hp. simpl in Hp.
    now rewrite Hp. }
  assert (Hp2 : truthy_opt (User.passcode u)
                && negb (bool_decide (Some passInput = User.passcode u)) = false).
  { destruct (truthy_opt (User.passcode u)) eqn:Hp; [|reflexivity].
    specialize (Hpass eq_refl).
    now rewrite bool_decide_eq_true_2 by exact Hpass. }
  rewrite Hp1, Hp2, Hver. reflexivity.
Qed.

(** X9. With a pending user whose record exists, [verifyAccount] accepts
    exactly the code stored in the record and the fixed code "1234": it
    then marks the record verified and opens the session, reading neither
    the position nor the company link; any other code leaves the state as
    it was, the pending user included. *)
Theorem verifyAccount_spec codeInput app name pu u :
  pendingUser app = Some (name, pu) ->
  users (mockDB app) !! name = Some u ->
  (Some codeInput = User.verifyCode u \/ codeInput = "1234" ->
   exists app',
     verifyAccount codeInput app =
       Returned [alert msg_verified; showView (view_of (User.role u))] app' /\
     currentUser app' = Some (name, with_verified true u) /\
     pendingUser app' = None /\
     users (mockDB app') !! name = Some (with_verified true u)) /\
  (Some codeInput <> User.verifyCode u -> codeInput <> "1234" ->
   verifyAccount codeInput app = Returned [alert msg_invalid_code] app).
Proof.
  intros Hp Hu. split.
  - intros Hcode.
    destruct (verifyAccount_accepts codeInput app name pu u Hp Hu Hcode)
      as (app' & Hrun & Hcu & Hpend & _ & Husers & _).
    exists app'. repeat split; try assumption.
    rewrite Husers. apply lookup_insert_eq.
  - intros Hn1 Hn2. unfold verifyAccount. rewrite Hp, Hu.
    rewrite (bool_decide_eq_false_2 _ Hn1), (bool_decide_eq_false_2 _ Hn2).
    reflexivity.
Qed.

(** X10. The first login of an unverified employee is not gated by the
    geofence: [login] sends them to verification before it looks at the
    position, and [verifyAccount] opens the session without looking at it.
    So an unverified employee linked to a company gets a session through
    [login] and [verifyAccount] at any position, also where [login] denies
    the same account once it is verified. *)
Theorem verification_skips_geofence username passInput codeInput app u c :
  truthy username = true ->
  users (mockDB app) !! username = Some u ->
  User.role u = employee ->
  User.verified u = false ->
  User.companyId u = Some c ->
  truthy c = true ->
  (truthy_opt (User.passcode u) = true -> Some passInput = User.passcode u) ->
  Some codeInput = User.verifyCode u \/ codeInput = "1234" ->
  exists app1 app2,
    login username c passInput app = Returned [showView view_verify] app1 /\
    verifyAccount codeInput app1 =
      Returned [alert msg_verified; showView view_employee] app2 /\
    currentUser app2 = Some (username, with_verified true u) /\
    currentPosition app2 = currentPosition app.
Proof.
  intros Hname Hu Hrole Hver Hcid Hc Hpass Hcode.
  exists (set_pendingUser (Some (username, u)) app).
  assert (Hlogin : login username c passInput app =
                   Returned [showView view_verify]
                     (set_pendingUser (Some (username, u)) app)).
  { rewrite (login_unverified username c passInput app u c)
      by (assumption || now right).
    now rewrite Hc. }
  destruct (verifyAccount_accepts codeInput
              (set_pendingUser (Some (username, u)) app) username u u
              eq_refl Hu Hcode) as (app2 & Hrun & Hcu & _ & Hpos & _ & _).
  exists app2. rewrite Hrole in Hrun.
  repeat split; assumption.
Qed.

End Verification.

Lemma verifyAccount_spec_witness :
  (exists app',
      verifyAccount "1234" (set_pendingUser (Some ("ann", ann)) (ann_app None)) =
        Returned [alert msg_verified; showView view_employee] app' /\
      currentUser app' = Some ("ann", with_verified true ann)) /\
  verifyAccount "0000" (set_pendingUser (Some ("ann", ann)) (ann_app None)) =
    Returned [alert msg_invalid_code]
      (set_pendingUser (Some ("ann", ann)) (ann_app None)).
Proof.
  destruct (verifyAccount_spec "1234"
              (set_pendingUser (Some ("ann", ann)) (ann_app None)) "ann" ann ann
              eq_refl eq_refl) as [Hok _].
  destruct (verifyAccount_spec "0000"
              (set_pendingUser (Some ("ann", ann)) (ann_app None)) "ann" ann ann
              eq_refl eq_refl) as [_ Hbad].
  split.
  - destruct (Hok (or_intror eq_refl)) as (app' & Hrun & Hcu & _).
    exists app'. split; assumption.
  - apply Hbad; discriminate.
Defined.

(** Ann, unverified, one degree east of her site: she gets a session;
    verified, [login] would deny her there. *)
Lemma verification_skips_geofence_witness :
  exists app1 app2,
    login "ann" "ACME1234" "s3cret" (ann_app (Some one_degree_east)) =
      Returned [showView view_verify] app1 /\
    verifyAccount "7788" app1 =
      Returned [alert msg_verified; showView view_employee] app2 /\
    currentUser app2 = Some ("ann", with_verified true ann) /\
    currentPosition app2 = Some one_degree_east.
Proof.
  exact (verification_skips_geofence "ann" "s3cret" "7788"
           (ann_app (Some one_degree_east)) ann "ACME1234"
           eq_refl eq_refl eq_refl eq_refl eq_refl eq_refl
           (fun _ => eq_refl) (or_introl eq_refl)).
Defined.

(** ** Registering a company *)

Section CompanyRegistration.
Context {M : JSMath}.

(** X11. A new company end to end: [registerNewCompany] with a free
    manager name ([users[managerName]] is [undefined]: no account has the
    name and it is not one that every object inherits) creates the
    company, empty, and its manager, unverified; the manager's [login]
    with no company id typed leads to verification; [verifyAccount] with
    the code issued at registration opens a manager session.  No position
    is needed anywhere on the way. *)
Theorem company_registration_flow companyName managerName companyId verifyCode app :
  truthy companyName = true ->
  truthy managerName = true ->
  truthy companyId = true ->
  js_get (users (mockDB app)) managerName = undefined ->
  exists app1 app2 app3 mgr,
    registerNewCompany companyName managerName companyId verifyCode app =
      Returned [alert (msg_manager_code verifyCode); alert msg_company_created;
                showView view_auth] app1 /\
    companies (mockDB app1) !! companyId =
      Some (Company.mk (Some companyName) [] [] []) /\
    login managerName "" "" app1 =
      Returned [alert (msg_found_company companyId); showView view_verify] app2 /\
    verifyAccount verifyCode app2 =
      Returned [alert msg_verified; showView view_manager] app3 /\
    currentUser app3 = Some (managerName, mgr) /\
    users (mockDB app3) !! managerName = Some mgr /\
    User.role mgr = manager /\
    User.verified mgr = true /\
    User.companyId mgr = Some companyId /\
    companies (mockDB app3) !! companyId =
      Some (Company.mk (Some companyName) [] [] []).
Proof.
  intros Hcn Hmn Hcid Hfree.
  set (mgr := User.mk manager (Some companyId) None None None None None
                None None false (Some verifyCode) (Some [])).
  set (app1 := set_users <[managerName := mgr]>
                 (set_companies
                    <[companyId := Company.mk (Some companyName) [] [] []]> app)).
  assert (Hmgr : users (mockDB app1) !! managerName = Some mgr).
  { subst app1. unfold set_users; simpl. apply lookup_insert_eq. }
  assert (Hcomp : companies (mockDB app1) !! companyId =
                  Some (Company.mk (Some companyName) [] [] [])).
  { subst app1. unfold set_users, set_companies; simpl. apply lookup_insert_eq. }
  set (app2 := set_pendingUser (Some (managerName, mgr)) app1).
  destruct (verifyAccount_accepts verifyCode app2 managerName mgr mgr
              eq_refl Hmgr (or_introl eq_refl))
    as (app3 & Hverify & Hcu & _ & _ & Husers & Hkept).
  exists app1, app2, app3, (with_verified true mgr).
  split.
  { unfold registerNewCompany. rewrite Hcn, Hmn, Hfree. reflexivity. }
  split; [exact Hcomp|].
  split.
  { rewrite (login_unverified managerName "" "" app1 mgr companyId);
      try reflexivity; try assumption.
    - now left.
    - intros H; discriminate H. }
  split; [exact Hverify|].
  split; [exact Hcu|].
  split; [rewrite Husers; apply lookup_insert_eq|].
  repeat (split; [reflexivity|]).
  apply Hkept. exact Hcomp.
Qed.

End CompanyRegistration.

Lemma company_registration_flow_witness :
  exists app1 app2 app3 mgr,
    registerNewCompany "Acme" "ann" "ACME1234" "4321" initial_app =
      Returned [alert (msg_manager_code "4321"); alert msg_company_created;
                showView view_auth] app1 /\
    login "ann" "" "" app1 =
      Returned [alert (msg_found_company "ACME1234"); showView view_verify] app2 /\
    verifyAccount "4321" app2 =
      Returned [alert msg_verified; showView view_manager] app3 /\
    currentUser app3 = Some ("ann", mgr) /\
    User.verified mgr = true.
Proof.
  destruct (company_registration_flow "Acme" "ann" "ACME1234" "4321" initial_app
              eq_refl eq_refl eq_refl eq_refl)
    as (app1 & app2 & app3 & mgr & H1 & _ & H2 & H3 & H4 & _ & _ & H5 & _).
  exists app1, app2, app3, mgr. repeat split; assumption.
Defined.

(** ** Check-out *)

Section CheckOut.
Context {M : JSMath}.

Lemma unshift_capped_cons e logs :
  unshift_capped e logs =
  e :: (if Nat.ltb 20 (S (length logs)) then pop logs else logs).
Proof.
  unfold unshift_capped. cbv zeta. simpl length.
  destruct (Nat.ltb_spec 20 (S (length logs))) as [H|H]; [|reflexivity].
  destruct logs; [simpl in H; lia|reflexivity].
Qed.

Lemma take2_unshift_capped e1 e2 logs :
  take 2 (unshift_capped e2 (unshift_capped e1 logs)) = [e2; e1].
Proof.
  rewrite (unshift_capped_cons e2).
  rewrite (unshift_capped_cons e1).
  set (rest := if Nat.ltb 20 (S (length logs)) then pop logs else logs).
  destruct (Nat.ltb_spec 20 (S (length (e1 :: rest)))) as [H|H];
    [|reflexivity].
  destruct rest; [simpl in H; lia|reflexivity].
Qed.

(** X12. A check-in followed by a check-out: the record is back to
    checked-out with no check-in time, its history holds the one point
    recorded at check-in, the sampler is disarmed, the session is as it
    was, and the company log starts with the check-out entry followed by
    the check-in entry. *)
Theorem checkIn_then_checkOut clk1 clk2 app username cu u pos c site :
  currentUser app = Some (username, cu) ->
  users (mockDB app) !! username = Some u ->
  currentPosition app = Some pos ->
  company_of app (User.companyId cu) = Some c ->
  find_site (User.assignedSiteId u) (Company.sites c) = Some site ->
  gt (distance_to pos site) MAX_DISTANCE_METERS = false ->
  exists app1 app2 u2 c2,
    checkIn clk1 app = Returned [] app1 /\
    checkOut clk2 "Check-Out" app1 = Returned [] app2 /\
    currentUser app2 = Some (username, cu) /\
    trackingInterval app2 = false /\
    users (mockDB app2) !! username = Some u2 /\
    User.status u2 = Some checked_out /\
    User.checkInTime u2 = None /\
    User.history u2 =
      Some (push_capped
              (HistoryPoint.mk (Position.lat pos) (Position.lng pos)
                 (toLocaleString clk1) (Site.id site))
              (default [] (User.history u))) /\
    company_of app2 (User.companyId cu) = Some c2 /\
    take 2 (Company.logs c2) =
      [LogEntry.mk username "Check-Out" (toLocaleTimeString clk2);
       LogEntry.mk username ("Check-In @ " +:+ Site.name site)
         (toLocaleTimeString clk1)].
Proof.
  intros Hcu Hu Hpos Hc Hsite Hnear.
  pose proof (checkIn_success clk1 app username cu u pos c site
                Hcu Hu Hpos Hc Hsite Hnear) as Hin.
  set (app1 := checked_in_state clk1 app username cu u pos c site) in *.
  set (entry1 := LogEntry.mk username ("Check-In @ " +:+ Site.name site)
                   (toLocaleTimeString clk1)).
  set (c1 := with_logs (unshift_capped entry1 (Company.logs c)) c).
  set (u1 := with_history
               (Some (push_capped
                        (HistoryPoint.mk (Position.lat pos) (Position.lng pos)
                           (toLocaleString clk1) (Site.id site))
                        (default [] (User.history u))))
               (with_lastPing (Some (Date_now clk1))
                  (with_checkInTime (Some (Date_now clk1))
                     (with_status (Some checked_in) u)))).
  assert (Hu1 : users (mockDB app1) !! username = Some u1).
  { subst app1. unfold checked_in_state, set_companies, set_users; simpl.
    apply lookup_insert_eq. }
  assert (Hc1 : company_of app1 (User.companyId cu) = Some c1).
  { subst app1. unfold checked_in_state. apply company_of_set_companies_eq. }
  pose proof (checkOut_returns clk2 "Check-Out" app1 username cu u1 c1
                Hcu Hu1 Hc1) as Hout.
  eexists app1, _, _, _. split; [exact Hin|]. split; [exact Hout|].
  split; [exact Hcu|]. split; [reflexivity|].
  split; [unfold set_companies, set_users; simpl; apply lookup_insert_eq|].
  split; [reflexivity|]. split; [reflexivity|]. split; [reflexivity|].
  split; [apply company_of_set_companies_eq|].
  apply take2_unshift_capped.
Qed.

(** X13. [checkOut] does not look at the status: for a user who is
    already checked out (and has no check-in time) it leaves the record
    as it is, yet puts another entry with the reason at the head of the
    company log. *)
Theorem checkOut_ignores_status clk reason app username cu u c :
  currentUser app = Some (username, cu) ->
  users (mockDB app) !! username = Some u ->
  company_of app (User.companyId cu) = Some c ->
  User.status u = Some checked_out ->
  User.checkInTime u = None ->
  exists app' c',
    checkOut clk reason app = Returned [] app' /\
    users (mockDB app') !! username = Some u /\
    company_of app' (User.companyId cu) = Some c' /\
    Company.logs c' =
      unshift_capped (LogEntry.mk username reason (toLocaleTimeString clk))
        (Company.logs c) /\
    head (Company.logs c') =
      Some (LogEntry.mk username reason (toLocaleTimeString clk)).
Proof.
  intros Hcu Hu Hc Hst Htime.
  eexists _, _. split; [apply (checkOut_returns clk reason app username cu u c);
                        assumption|].
  split.
  { unfold set_companies, set_users; simpl. rewrite lookup_insert_eq.
    f_equal. destruct u; simpl in *; subst; reflexivity. }
  split; [apply company_of_set_companies_eq|].
  split; [reflexivity|]. apply head_unshift_capped.
Qed.

(** X14. [checkOut] with the company record of the session missing: the
    record is set to checked-out and the sampler disarmed, then [addLog]
    stops on a [TypeError]; nothing is logged. *)
Theorem checkOut_without_company_record clk reason app username cu u :
  currentUser app = Some (username, cu) ->
  users (mockDB app) !! username = Some u ->
  company_of app (User.companyId cu) = None ->
  exists app',
    checkOut clk reason app = Threw [] app' /\
    users (mockDB app') !! username =
      Some (with_checkInTime None (with_status (Some checked_out) u)) /\
    trackingInterval app' = false /\
    companies (mockDB app') = companies (mockDB app).
Proof.
  intros Hcu Hu Hc. eexists. split.
  - apply (checkOut_company_gap_throws clk reason app username cu u);
      assumption.
  - split; [unfold set_users; simpl; apply lookup_insert_eq|].
    split; reflexivity.
Qed.

End CheckOut.

Lemma checkIn_then_checkOut_witness :
  exists app1 app2 u2,
    checkIn demo_clock (demo_app (Some ("bob", bob)) (Some at_site)) =
      Returned [] app1 /\
    checkOut demo_clock "Check-Out" app1 = Returned [] app2 /\
    users (mockDB app2) !! "bob" = Some u2 /\
    User.status u2 = Some checked_out /\
    User.checkInTime u2 = None.
Proof.
  destruct (checkIn_then_checkOut demo_clock demo_clock
              (demo_app (Some ("bob", bob)) (Some at_site)) "bob" bob bob
              at_site demo_company demo_site eq_refl eq_refl eq_refl eq_refl
              eq_refl at_site_not_far)
    as (app1 & app2 & u2 & c2 & H1 & H2 & _ & _ & H3 & H4 & H5 & _).
  exists app1, app2, u2. repeat split; assumption.
Defined.

Lemma checkOut_ignores_status_witness :
  exists app' c',
    checkOut demo_clock "Check-Out" (demo_app (Some ("bob", bob)) None) =
      Returned [] app' /\
    users (mockDB app') !! "bob" = Some bob /\
    company_of app' (Some "ACME1234") = Some c' /\
    Company.logs c' = [LogEntry.mk "bob" "Check-Out" "09:00:00"].
Proof.
  destruct (checkOut_ignores_status demo_clock "Check-Out"
              (demo_app (Some ("bob", bob)) None) "bob" bob bob demo_company
              eq_refl eq_refl eq_refl eq_refl eq_refl)
    as (app' & c' & H1 & H2 & H3 & H4 & _).
  exists app', c'. repeat split; assumption.
Defined.

Lemma checkOut_without_company_record_witness :
  exists app',
    checkOut demo_clock "Check-Out" dan_app = Threw [] app' /\
    users (mockDB app') !! "dan" =
      Some (with_checkInTime None (with_status (Some checked_out) dan)).
Proof.
  destruct (checkOut_without_company_record demo_clock "Check-Out" dan_app
              "dan" dan dan_checked_in eq_refl eq_refl eq_refl)
    as (app' & H1 & H2 & _).
  exists app'. split; [exact H1|exact H2].
Defined.

(** ** Position samples, logout and the debug teleport *)

Ltac stays :=
  cbn [state_of];
  split; [reflexivity|];
  split; [first [reflexivity|eassumption]|];
  left; split; reflexivity.

Section Samples.
Context {M : JSMath}.

(** X15. What a position sample can do: it always becomes the current
    position and never ends the session; the store and the sampler are
    left alone unless an employee is logged in whose record is checked in
    and the test [dist > MAX_DISTANCE_METERS] holds of the computed
    distance from the sample to the assigned site.  In particular a sample
    at exactly that distance changes nothing, and neither does one whose
    distance is computed as [NaN]. *)
Theorem position_sample_effect clk lat lng app :
  let app' := state_of (watchPosition_success clk lat lng app) in
  currentPosition app' = Some (Position.mk lat lng) /\
  currentUser app' = currentUser app /\
  ((mockDB app' = mockDB app /\ trackingInterval app' = trackingInterval app) \/
   exists name cu u site,
     currentUser app = Some (name, cu) /\
     User.role cu = employee /\
     users (mockDB app) !! name = Some u /\
     User.status u = Some checked_in /\
     assigned_site app cu u = Some site /\
     gt (distance_to (Position.mk lat lng) site) MAX_DISTANCE_METERS = true).
Proof.
  cbv zeta.
  unfold watchPosition_success, monitor_if_employee, monitorGeofence.
  set (app0 := set_currentPosition (Some (Position.mk lat lng)) app).
  change (currentUser app0) with (currentUser app).
  change (users (mockDB app0)) with (users (mockDB app)).
  destruct (currentUser app) as [[name cu]|] eqn:Hcu;
    [|stays].
  destruct (User.role cu) eqn:Hrole;
    [stays|].
  destruct (users (mockDB app) !! name) as [u|] eqn:Hu;
    [|stays].
  destruct (bool_decide (User.status u = Some checked_in)) eqn:Hst; cbn [negb];
    [|stays].
  apply bool_decide_eq_true in Hst.
  change (company_of app0 (User.companyId cu))
    with (company_of app (User.companyId cu)).
  destruct (company_of app (User.companyId cu)) as [c|] eqn:Hc;
    [|stays].
  destruct (find_site (User.assignedSiteId u) (Company.sites c))
    as [site|] eqn:Hsite;
    [|stays].
  cbn [currentPosition app0 set_currentPosition].
  destruct (gt (distance_to (Position.mk lat lng) site) MAX_DISTANCE_METERS)
    eqn:Hfar;
    [|stays].
  unfold andThen, emit. rewrite state_of_after.
  rewrite (checkOut_returns clk "Geofence Exit" app0 name cu u c Hcu Hu Hc).
  cbn [state_of]. split; [reflexivity|]. split; [exact Hcu|].
  right. exists name, cu, u, site.
  repeat split; try assumption.
  unfold assigned_site. rewrite Hc. exact Hsite.
Qed.

(** X16. [logout] ends the session and nothing else: the store is as it
    was (a checked-in user stays checked in) and the sampler stays armed;
    but once nobody is logged in, a tick of the sampler records nothing
    and [checkOut] does nothing. *)
Theorem logout_keeps_attendance clk siteId reason app :
  let app' := state_of (logout app) in
  currentUser app' = None /\
  mockDB app' = mockDB app /\
  trackingInterval app' = trackingInterval app /\
  trackLocation clk siteId app' = Returned [] app' /\
  checkOut clk reason app' = Returned [] app'.
Proof.
  cbv zeta. unfold logout. cbn [state_of].
  repeat split.
  unfold trackLocation. cbn [currentUser set_currentUser].
  now destruct (currentPosition _).
Qed.

(** X17. The debug teleport does not check out: for a checked-in
    employee sent to a position for which the test
    [dist > MAX_DISTANCE_METERS] holds of the computed distance to the
    assigned site, [debugSetLocation] ends the session and leaves the
    store as it was, the record still checked in and nothing logged. *)
Theorem debug_teleport_logs_out lat lng app username cu u site :
  currentUser app = Some (username, cu) ->
  User.role cu = employee ->
  users (mockDB app) !! username = Some u ->
  User.status u = Some checked_in ->
  assigned_site app cu u = Some site ->
  gt (distance_to (Position.mk lat lng) site) MAX_DISTANCE_METERS = true ->
  exists app',
    debugSetLocation lat lng app =
      Returned [alert (msg_debug_logout (Site.name site)); showView view_auth;
                alert (msg_teleported lat lng)] app' /\
    currentUser app' = None /\
    mockDB app' = mockDB app /\
    users (mockDB app') !! username = Some u.
Proof.
  intros Hcu Hrole Hu Hst Hsite Hfar.
  eexists. split.
  - apply (debugSetLocation_logs_out lat lng app username cu u site);
      assumption.
  - repeat split. exact Hu.
Qed.

End Samples.

Lemma debug_teleport_logs_out_witness :
  exists app',
    debugSetLocation 0 1 demo_app_checked_in =
      Returned [alert (msg_debug_logout "S"); showView view_auth;
                alert (msg_teleported 0 1)] app' /\
    currentUser app' = None /\
    users (mockDB app') !! "bob" = Some bob_checked_in.
Proof.
  destruct (debug_teleport_logs_out 0 1 demo_app_checked_in "bob" bob
              bob_checked_in demo_site eq_refl eq_refl eq_refl eq_refl eq_refl
              one_degree_east_far)
    as (app' & H1 & H2 & _ & H3).
  exists app'. repeat split; assumption.
Defined.

(** ** Sites *)

Section Sites.
Context {M : JSMath}.

Lemma null_island_true pos :
  null_island pos = true <->
  (abs (Position.lat pos) <? 0.0001)%float = true /\
  (abs (Position.lng pos) <? 0.0001)%float = true.
Proof. unfold null_island. apply andb_true_iff. Qed.

Lemma find_site_app_fresh id name la lo sites :
  find_site (Some id) sites = None ->
  find_site (Some id) (sites ++ [Site.mk id name la lo]) =
  Some (Site.mk id name la lo).
Proof.
  unfold find_site. induction sites as [|s sites IH]; simpl.
  - intros _. now rewrite bool_decide_eq_true_2.
  - destruct (bool_decide (Some (Site.id s) = Some id)); [discriminate|].
    exact IH.
Qed.

Lemma find_site_app_other id sites s :
  Site.id s <> id ->
  find_site (Some id) (sites ++ [s]) = find_site (Some id) sites.
Proof.
  intros Hne. unfold find_site. induction sites as [|s0 sites IH]; simpl.
  - rewrite bool_decide_eq_false_2; [reflexivity|]. congruence.
  - destruct (bool_decide (Some (Site.id s0) = Some id)); [reflexivity|].
    exact IH.
Qed.

Lemma createSite_returns siteName newId app pos name cu c :
  truthy siteName = true ->
  currentPosition app = Some pos ->
  null_island pos = false ->
  currentUser app = Some (name, cu) ->
  company_of app (User.companyId cu) = Some c ->
  createSite siteName newId app =
  Returned [alert (msg_site_created siteName)]
    (set_companies
       <[key_of (User.companyId cu) :=
           with_sites
             (Company.sites c ++
                [Site.mk newId siteName (Position.lat pos) (Position.lng pos)]) c]>
       app).
Proof.
  intros Hn Hpos Hni Hcu Hc. unfold createSite.
  rewrite Hn, Hpos, Hni, Hcu, Hc. cbn [negb].
  set (c' := with_sites _ c).
  rewrite (refreshDashboard_company _ name cu c');
    [ reflexivity | exact Hcu | apply company_of_set_companies_eq ].
Qed.

(** X18. [createSite] refuses, with its own alert and no change, an empty
    name, a missing position, and a position whose latitude and longitude
    are both closer than 0.0001 to zero.  Otherwise, in a session whose
    company exists, it appends a site at the current position: the sites
    that were there are found as before, the new one is found under its
    id when the id is new, and the geofence test finds the current
    position within reach of it, and when the coordinates are numbers
    (not [NaN], not infinite) the computed distance from the current
    position to it is exactly 0. *)
Theorem createSite_spec siteName newId app :
  (truthy siteName = false ->
   createSite siteName newId app = Returned [alert msg_enter_site_name] app) /\
  (truthy siteName = true -> currentPosition app = None ->
   createSite siteName newId app = Returned [alert msg_waiting_gps_signal] app) /\
  (forall pos,
      truthy siteName = true -> currentPosition app = Some pos ->
      (abs (Position.lat pos) <? 0.0001)%float = true ->
      (abs (Position.lng pos) <? 0.0001)%float = true ->
      createSite siteName newId app = Returned [alert msg_null_island] app) /\
  (forall pos name cu c,
      truthy siteName = true -> currentPosition app = Some pos ->
      ~ ((abs (Position.lat pos) <? 0.0001)%float = true /\
         (abs (Position.lng pos) <? 0.0001)%float = true) ->
      currentUser app = Some (name, cu) ->
      company_of app (User.companyId cu) = Some c ->
      exists app' c' site,
        createSite siteName newId app =
          Returned [alert (msg_site_created siteName)] app' /\
        users (mockDB app') = users (mockDB app) /\
        company_of app' (User.companyId cu) = Some c' /\
        Company.sites c' = Company.sites c ++ [site] /\
        Site.id site = newId /\ Site.name site = siteName /\
        gt (distance_to pos site) MAX_DISTANCE_METERS = false /\
        (numeric pos = true -> distance_to pos site = 0%float) /\
        (forall id, id <> newId ->
                    find_site (Some id) (Company.sites c') =
                    find_site (Some id) (Company.sites c)) /\
        (find_site (Some newId) (Company.sites c) = None ->
         find_site (Some newId) (Company.sites c') = Some site)).
Proof.
  split; [|split; [|split]].
  - intros Hn. unfold createSite. now rewrite Hn.
  - intros Hn Hpos. unfold createSite. now rewrite Hn, Hpos.
  - intros pos Hn Hpos Hlat Hlng. unfold createSite. rewrite Hn, Hpos.
    cbn [negb].
    now rewrite (proj2 (null_island_true pos) (conj Hlat Hlng)).
  - intros pos name cu c Hn Hpos Hni Hcu Hc.
    assert (Hni' : null_island pos = false).
    { destruct (null_island pos) eqn:E; [|reflexivity].
      apply null_island_true in E. contradiction. }
    eexists _, _, _. split;
      [exact (createSite_returns siteName newId app pos name cu c
                Hn Hpos Hni' Hcu Hc)|].
    split; [reflexivity|].
    split; [apply company_of_set_companies_eq|].
    split; [reflexivity|]. split; [reflexivity|]. split; [reflexivity|].
    split; [apply distance_self_not_far|].
    split; [intros [Hlat Hlng]%andb_true_iff; now apply distance_self|].
    split.
    + intros id Hid. simpl. apply find_site_app_other. simpl. congruence.
    + intros Hfresh. simpl. now apply find_site_app_fresh.
Qed.

End Sites.

Lemma createSite_spec_witness :
  exists app' c' site,
    createSite "Depot" "site_9"
      (demo_app (Some ("boss", boss)) (Some one_degree_east)) =
      Returned [alert (msg_site_created "Depot")] app' /\
    company_of app' (Some "ACME1234") = Some c' /\
    Company.sites c' = [demo_site; site] /\
    distance_to one_degree_east site = 0%float.
Proof.
  destruct (createSite_spec "Depot" "site_9"
              (demo_app (Some ("boss", boss)) (Some one_degree_east)))
    as (_ & _ & _ & Hok).
  destruct (Hok one_degree_east "boss" boss demo_company eq_refl eq_refl) as
    (app' & c' & site & H1 & _ & H2 & H3 & _ & _ & _ & H4 & _).
  - intros [_ H]. vm_compute in H. discriminate H.
  - reflexivity.
  - reflexivity.
  - exists app', c', site. repeat split; try assumption.
    apply H4. reflexivity.
Defined.

Section Relocation.
Context {M : JSMath}.

Variables (siteId : string) (lat lng : float).

Lemma find_site_update_first sites :
  find_site (Some siteId) (update_first (has_site_id siteId) (moved_to lat lng) sites) =
  moved_to lat lng <$> find_site (Some siteId) sites.
Proof.
  unfold find_site. induction sites as [|s sites IH]; [reflexivity|].
  simpl. unfold has_site_id in *.
  destruct (bool_decide (Some (Site.id s) = Some siteId)) eqn:E; simpl.
  - now rewrite E.
  - rewrite E. exact IH.
Qed.

Lemma find_site_update_first_other id sites :
  id <> siteId ->
  find_site (Some id) (update_first (has_site_id siteId) (moved_to lat lng) sites) =
  find_site (Some id) sites.
Proof.
  intros Hne. unfold find_site. induction sites as [|s sites IH]; [reflexivity|].
  simpl. unfold has_site_id in *.
  destruct (bool_decide (Some (Site.id s) = Some siteId)) eqn:E; simpl.
  - apply bool_decide_eq_true in E.
    rewrite (bool_decide_eq_false_2 (Some (Site.id s) = Some id)) by congruence.
    reflexivity.
  - destruct (bool_decide (Some (Site.id s) = Some id)); [reflexivity|].
    exact IH.
Qed.

Lemma update_first_ids sites :
  map Site.id (update_first (has_site_id siteId) (moved_to lat lng) sites) = map Site.id sites /\
  map Site.name (update_first (has_site_id siteId) (moved_to lat lng) sites) = map Site.name sites.
Proof.
  induction sites as [|s sites [IH1 IH2]]; [split; reflexivity|].
  simpl. destruct (has_site_id siteId s); simpl; [split; reflexivity|].
  now rewrite IH1, IH2.
Qed.

End Relocation.

Section RelocationOutcome.
Context {M : JSMath}.

(** X19. [updateSiteLocation] returns silently, changing nothing, when
    the company has no site with the id or the manager does not confirm.
    Confirmed, with a usable position, it moves the first site with that
    id to the current position and touches nothing else: ids and names of
    all sites are as before, sites with other ids are found unchanged, the
    user records are untouched, and the geofence test finds the current
    position within reach of the moved site, and when the coordinates are
    numbers (not [NaN], not infinite) the computed distance from the
    current position to it is exactly 0. *)
Theorem updateSiteLocation_spec siteId confirmed app pos name cu c :
  currentPosition app = Some pos ->
  null_island pos = false ->
  currentUser app = Some (name, cu) ->
  company_of app (User.companyId cu) = Some c ->
  (find_site (Some siteId) (Company.sites c) = None ->
   updateSiteLocation siteId confirmed app = Returned [] app) /\
  (confirmed = false ->
   updateSiteLocation siteId confirmed app = Returned [] app) /\
  (forall site,
      find_site (Some siteId) (Company.sites c) = Some site ->
      confirmed = true ->
      exists app' c' site',
        updateSiteLocation siteId confirmed app =
          Returned [alert (msg_location_updated (Site.name site))] app' /\
        users (mockDB app') = users (mockDB app) /\
        company_of app' (User.companyId cu) = Some c' /\
        find_site (Some siteId) (Company.sites c') = Some site' /\
        Site.id site' = Site.id site /\ Site.name site' = Site.name site /\
        gt (distance_to pos site') MAX_DISTANCE_METERS = false /\
        (numeric pos = true -> distance_to pos site' = 0%float) /\
        map Site.id (Company.sites c') = map Site.id (Company.sites c) /\
        map Site.name (Company.sites c') = map Site.name (Company.sites c) /\
        (forall id, id <> siteId ->
                    find_site (Some id) (Company.sites c') =
                    find_site (Some id) (Company.sites c))).
Proof.
  intros Hpos Hni Hcu Hc. split; [|split].
  - intros Hnone. unfold updateSiteLocation.
    now rewrite Hpos, Hni, Hcu, Hc, Hnone.
  - intros ->. unfold updateSiteLocation. rewrite Hpos, Hni, Hcu, Hc.
    now destruct (find_site _ _).
  - intros site Hsite ->.
    unfold updateSiteLocation. rewrite Hpos, Hni, Hcu, Hc, Hsite.
    cbn [negb]. cbv zeta.
    set (sites' := update_first _ _ _).
    set (c' := with_sites sites' c).
    unfold andThen.
    rewrite (refreshDashboard_company _ name cu c');
      [ | exact Hcu | apply company_of_set_companies_eq ].
    unfold emit. cbn [after].
    exists (set_companies <[key_of (User.companyId cu) := c']> app), c',
      (Site.mk (Site.id site) (Site.name site) (Position.lat pos)
         (Position.lng pos)).
    split; [reflexivity|]. split; [reflexivity|].
    split; [apply company_of_set_companies_eq|].
    split.
    { subst c' sites'. simpl.
      rewrite (find_site_update_first siteId (Position.lat pos) (Position.lng pos)).
      now rewrite Hsite. }
    split; [reflexivity|]. split; [reflexivity|].
    split; [apply distance_self_not_far|].
    split; [intros [Hlat Hlng]%andb_true_iff; now apply distance_self|].
    destruct (update_first_ids siteId (Position.lat pos) (Position.lng pos)
                (Company.sites c)) as [Hids Hnames].
    split; [exact Hids|]. split; [exact Hnames|].
    intros id Hid. subst c' sites'. simpl.
    now apply find_site_update_first_other.
Qed.

End RelocationOutcome.

Lemma updateSiteLocation_spec_witness :
  exists app' c' site',
    updateSiteLocation "site_s" true
      (demo_app (Some ("boss", boss)) (Some one_degree_east)) =
      Returned [alert (msg_location_updated "S")] app' /\
    company_of app' (Some "ACME1234") = Some c' /\
    find_site (Some "site_s") (Company.sites c') = Some site' /\
    distance_to one_degree_east site' = 0%float.
Proof.
  destruct (updateSiteLocation_spec "site_s" true
              (demo_app (Some ("boss", boss)) (Some one_degree_east))
              one_degree_east "boss" boss demo_company eq_refl eq_refl
              eq_refl eq_refl)
    as (_ & _ & Hok).
  destruct (Hok demo_site eq_refl eq_refl)
    as (app' & c' & site' & H1 & _ & H2 & H3 & _ & _ & _ & H4 & _).
  exists app', c', site'. repeat split; try assumption.
  apply H4. reflexivity.
Defined.

(** ** Registering employees *)

Section RegisterEmployee.
Context {M : JSMath}.

Lemma fields_filled username contact siteId :
  truthy username = true -> truthy contact = true -> truthy siteId = true ->
  negb (truthy username) || negb (truthy contact) || negb (truthy siteId) = false.
Proof. now intros -> -> ->. Qed.

(** What [registerEmployee] does for a user name that is free. *)
Lemma registerEmployee_new username contact siteId passcode app me cu c :
  currentUser app = Some (me, cu) ->
  company_of app (User.companyId cu) = Some c ->
  truthy username = true -> truthy contact = true -> truthy siteId = true ->
  js_get (users (mockDB app)) username = undefined ->
  registerEmployee username contact siteId passcode app =
  Returned [alert (msg_linked username)]
    (set_companies
       <[key_of (User.companyId cu) :=
           with_employees
             (match List.find
                      (fun e => bool_decide (Employee.username e = username))
                      (Company.employees c) with
              | Some _ => Company.employees c
              | None => Company.employees c ++
                        [Employee.mk username contact siteId]
              end) c]>
       (set_users
          <[username :=
              User.mk employee (User.companyId cu)
                (if includes_at contact then Some contact else None)
                (if includes_at contact then None else Some contact)
                (or_null passcode) (Some siteId) (Some checked_out) None None
                true None None]> app)).
Proof.
  intros Hcu Hc Hn Hct Hs Hfree. unfold registerEmployee.
  rewrite Hcu, (fields_filled _ _ _ Hn Hct Hs), Hfree, Hc. cbv beta zeta.
  set (c' := with_employees _ c).
  set (app1 := set_users _ app).
  rewrite (refreshDashboard_company (set_companies _ app1) me cu c');
    [ reflexivity | exact Hcu | apply company_of_set_companies_eq ].
Qed.


Lemma roster_lists username contact siteId (roster : list Employee.t) :
  In username
    (map Employee.username
       (match List.find (fun e => bool_decide (Employee.username e = username))
                roster with
        | Some _ => roster
        | None => roster ++ [Employee.mk username contact siteId]
        end)).
Proof.
  destruct (List.find _ roster) as [e|] eqn:Hfind.
  - apply find_some in Hfind as [Hin Hname].
    apply bool_decide_eq_true in Hname.
    apply in_map_iff. exists e. split; assumption.
  - rewrite map_app. apply in_or_app. right. now left.
Qed.

(** X20. [registerEmployee] with a free user name ([users[username]] is
    [undefined]: no account has the name and it is not one that every
    object inherits), in a session whose company exists: it creates a
    verified, checked-out employee of the session's company, assigned to
    the given site, with the contact filed as email when it holds an "@"
    and as phone otherwise, and lists the name in the roster; every other
    user record is as it was. *)
Theorem registerEmployee_new_employee username contact siteId passcode app me cu c :
  currentUser app = Some (me, cu) ->
  company_of app (User.companyId cu) = Some c ->
  truthy username = true -> truthy contact = true -> truthy siteId = true ->
  js_get (users (mockDB app)) username = undefined ->
  exists app' u c',
    registerEmployee username contact siteId passcode app =
      Returned [alert (msg_linked username)] app' /\
    users (mockDB app') !! username = Some u /\
    User.role u = employee /\
    User.companyId u = User.companyId cu /\
    User.assignedSiteId u = Some siteId /\
    User.status u = Some checked_out /\
    User.checkInTime u = None /\
    User.verified u = true /\
    User.passcode u = or_null passcode /\
    (User.email u, User.phone u) =
      (if includes_at contact then (Some contact, None)
       else (None, Some contact)) /\
    (forall k, k <> username ->
               users (mockDB app') !! k = users (mockDB app) !! k) /\
    company_of app' (User.companyId cu) = Some c' /\
    In username (map Employee.username (Company.employees c')) /\
    Company.sites c' = Company.sites c /\
    Company.logs c' = Company.logs c.
Proof.
  intros Hcu Hc Hn Hct Hs Hfree.
  eexists _, _, _. split;
    [exact (registerEmployee_new username contact siteId passcode app me cu c
              Hcu Hc Hn Hct Hs Hfree)|].
  split; [unfold set_companies, set_users; simpl; apply lookup_insert_eq|].
  repeat (split; [reflexivity|]).
  split; [simpl; now destruct (includes_at contact)|].
  split.
  { intros k Hk. unfold set_companies, set_users; simpl.
    now apply lookup_insert_ne. }
  split; [apply company_of_set_companies_eq|].
  split; [apply roster_lists|].
  split; reflexivity.
Qed.

(** X21. [registerEmployee] refuses, with an alert and no change, a form
    with an empty user name, contact or site, and a user name whose
    account belongs to another company than the session's; a user name
    that every object inherits from [Object.prototype] is refused with
    the same alert. *)
Theorem registerEmployee_refusals username contact siteId passcode app me cu :
  currentUser app = Some (me, cu) ->
  (truthy username = false \/ truthy contact = false \/ truthy siteId = false ->
   registerEmployee username contact siteId passcode app =
   Returned [alert msg_fill_all] app) /\
  (forall u other,
      truthy username = true -> truthy contact = true -> truthy siteId = true ->
      users (mockDB app) !! username = Some u ->
      User.companyId u = Some other ->
      Some other <> User.companyId cu ->
      registerEmployee username contact siteId passcode app =
      Returned [alert (msg_other_company username)] app) /\
  (truthy username = true -> truthy contact = true -> truthy siteId = true ->
   js_get (users (mockDB app)) username = from_prototype ->
   registerEmployee username contact siteId passcode app =
   Returned [alert (msg_other_company username)] app).
Proof.
  intros Hcu. split; [|split].
  - intros Hempty. unfold registerEmployee. rewrite Hcu.
    assert (H : negb (truthy username) || negb (truthy contact)
                || negb (truthy siteId) = true).
    { destruct Hempty as [->|[->| ->]]; simpl;
        rewrite ?orb_true_r; reflexivity. }
    now rewrite H.
  - intros u other Hn Hct Hs Hu Hother Hne. unfold registerEmployee.
    rewrite Hcu, (fields_filled _ _ _ Hn Hct Hs), (js_get_own _ _ _ Hu), Hother.
    rewrite bool_decide_eq_false_2 by exact Hne. reflexivity.
  - intros Hn Hct Hs Hp. unfold registerEmployee.
    now rewrite Hcu, (fields_filled _ _ _ Hn Hct Hs), Hp.
Qed.


End RegisterEmployee.

Lemma registerEmployee_new_employee_witness :
  exists app' u,
    registerEmployee "carl" "555-0100" "site_s" "" boss_app =
      Returned [alert (msg_linked "carl")] app' /\
    users (mockDB app') !! "carl" = Some u /\
    User.verified u = true /\
    User.phone u = Some "555-0100" /\
    User.email u = None.
Proof.
  destruct (registerEmployee_new_employee "carl" "555-0100" "site_s" "" boss_app
              "boss" boss demo_company eq_refl eq_refl eq_refl eq_refl eq_refl
              eq_refl)
    as (app' & u & c' & H1 & H2 & _ & _ & _ & _ & _ & H3 & _ & H4 & _).
  exists app', u. split; [exact H1|]. split; [exact H2|]. split; [exact H3|].
  simpl in H4. injection H4 as He Hp. split; assumption.
Defined.

Lemma registerEmployee_refusals_witness :
  registerEmployee "eve" "eve@other.test" "site_s" "" boss_app =
  Returned [alert (msg_other_company "eve")] boss_app.
Proof.
  destruct (registerEmployee_refusals "eve" "eve@other.test" "site_s" ""
              boss_app "boss" boss eq_refl) as (_ & H & _).
  apply (H eve "OTHR5678"); try reflexivity. discriminate.
Defined.

(** ** From the creation of a site to the forced check-out *)

Section Scenario.
Context {M : JSMath}.

(** A sample out of range, for a checked-in employee: the equation behind
    the forced check-out. *)
Lemma sample_out_of_range clk lat lng app username cu u c site :
  currentUser app = Some (username, cu) ->
  User.role cu = employee ->
  users (mockDB app) !! username = Some u ->
  User.status u = Some checked_in ->
  company_of app (User.companyId cu) = Some c ->
  find_site (User.assignedSiteId u) (Company.sites c) = Some site ->
  gt (distance_to (Position.mk lat lng) site) MAX_DISTANCE_METERS = true ->
  watchPosition_success clk lat lng app =
  Returned [alert (msg_geofence_alert (distance_to (Position.mk lat lng) site))]
    (set_companies
       <[key_of (User.companyId cu) :=
           with_logs (unshift_capped
                        (LogEntry.mk username "Geofence Exit"
                           (toLocaleTimeString clk))
                        (Company.logs c)) c]>
       (set_trackingInterval false
          (set_users
             <[username := with_checkInTime None
                             (with_status (Some checked_out) u)]>
             (set_currentPosition (Some (Position.mk lat lng)) app)))).
Proof.
  intros Hcu Hrole Hu Hstatus Hc Hsite Hfar.
  set (app0 := set_currentPosition (Some (Position.mk lat lng)) app).
  pose proof (checkOut_returns clk "Geofence Exit" app0 username cu u c
                Hcu Hu Hc) as Hout.
  unfold watchPosition_success, monitor_if_employee. fold app0.
  replace (currentUser app0) with (Some (username, cu)) by (symmetry; exact Hcu).
  rewrite Hrole. unfold monitorGeofence.
  replace (currentUser app0) with (Some (username, cu)) by (symmetry; exact Hcu).
  replace (users (mockDB app0) !! username) with (Some u) by (symmetry; exact Hu).
  rewrite Hstatus.
  rewrite bool_decide_eq_true_2 by reflexivity. cbn [negb].
  replace (company_of app0 (User.companyId cu)) with (Some c)
    by (symmetry; exact Hc).
  rewrite Hsite. cbn [currentPosition app0 set_currentPosition].
  rewrite Hfar.
  unfold andThen, emit. fold app0. rewrite Hout. reflexivity.
Qed.

(** X23. From the creation of a site to the forced check-out.  A manager
    whose company exists creates a site at the current position and registers a
    new employee for it, under a name for which [users[name]] is
    [undefined]; after the manager's logout the employee, at the
    same position, logs in without verification and checks in; a position
    sample for which the computed distance to the site passes the test
    [dist > MAX_DISTANCE_METERS] then forces the check-out.  At the end the employee is still logged in, checked
    out with no check-in time, and the company log starts with
    "Geofence Exit" followed by "Check-In @ <site name>". *)
Theorem site_to_forced_checkout
    clk1 clk2 lat lng app mgr cu cid c pos siteName newId emp contact :
  currentUser app = Some (mgr, cu) ->
  User.companyId cu = Some cid ->
  truthy cid = true ->
  company_of app (Some cid) = Some c ->
  currentPosition app = Some pos ->
  null_island pos = false ->
  truthy siteName = true ->
  truthy newId = true ->
  find_site (Some newId) (Company.sites c) = None ->
  truthy emp = true ->
  truthy contact = true ->
  js_get (users (mockDB app)) emp = undefined ->
  gt (distance_to (Position.mk lat lng)
        (Site.mk newId siteName (Position.lat pos) (Position.lng pos)))
     MAX_DISTANCE_METERS = true ->
  exists app1 app2 app3 app4 app5 app6 rec u5 u6 c6,
    createSite siteName newId app =
      Returned [alert (msg_site_created siteName)] app1 /\
    registerEmployee emp contact newId "" app1 =
      Returned [alert (msg_linked emp)] app2 /\
    logout app2 = Returned [showView view_auth] app3 /\
    login emp "" "" app3 =
      Returned [alert (msg_found_company cid); showView view_employee] app4 /\
    currentUser app4 = Some (emp, rec) /\
    checkIn clk1 app4 = Returned [] app5 /\
    users (mockDB app5) !! emp = Some u5 /\
    User.status u5 = Some checked_in /\
    User.checkInTime u5 = Some (Date_now clk1) /\
    watchPosition_success clk2 lat lng app5 =
      Returned [alert (msg_geofence_alert
                         (distance_to (Position.mk lat lng)
                            (Site.mk newId siteName (Position.lat pos)
                               (Position.lng pos))))] app6 /\
    currentUser app6 = Some (emp, rec) /\
    users (mockDB app6) !! emp = Some u6 /\
    User.status u6 = Some checked_out /\
    User.checkInTime u6 = None /\
    company_of app6 (Some cid) = Some c6 /\
    take 2 (Company.logs c6) =
      [LogEntry.mk emp "Geofence Exit" (toLocaleTimeString clk2);
       LogEntry.mk emp ("Check-In @ " +:+ siteName) (toLocaleTimeString clk1)].
Proof.
  intros Hcu Hcid Htc Hc Hpos Hni Hsn Hid Hfresh Hemp Hct Hfree Hfar.
  set (site := Site.mk newId siteName (Position.lat pos) (Position.lng pos)) in *.
  assert (Hc0 : company_of app (User.companyId cu) = Some c)
    by (rewrite Hcid; exact Hc).
  (* the site *)
  pose proof (createSite_returns siteName newId app pos mgr cu c
                Hsn Hpos Hni Hcu Hc0) as H1.
  fold site in H1.
  set (c1 := with_sites (Company.sites c ++ [site]) c) in *.
  set (app1 := set_companies <[key_of (User.companyId cu) := c1]> app) in *.
  assert (Hc1 : company_of app1 (User.companyId cu) = Some c1)
    by apply company_of_set_companies_eq.
  (* the employee *)
  pose proof (registerEmployee_new emp contact newId "" app1 mgr cu c1
                Hcu Hc1 Hemp Hct Hid Hfree) as H2.
  set (rec := User.mk employee (User.companyId cu) _ _ _ _ _ _ _ _ _ _) in *.
  set (c2 := with_employees _ c1) in *.
  set (app2 := set_companies _ (set_users _ app1)) in *.
  set (app3 := set_currentUser None app2).
  assert (Hrec3 : users (mockDB app3) !! emp = Some rec).
  { subst app3 app2. unfold set_companies, set_users; simpl.
    apply lookup_insert_eq. }
  assert (Hrcid : User.companyId rec = Some cid) by exact Hcid.
  assert (Hc3 : company_of app3 (Some cid) = Some c2).
  { rewrite <- Hcid. subst app3 app2. apply company_of_set_companies_eq. }
  assert (Hsite2 : find_site (User.assignedSiteId rec) (Company.sites c2) =
                   Some site).
  { subst c2 c1 site. simpl. now apply find_site_app_fresh. }
  assert (Hnear : gt (distance_to pos site) MAX_DISTANCE_METERS = false).
  { subst site. unfold distance_to. simpl. apply distance_self_not_far. }
  (* the login *)
  assert (H4 : login emp "" "" app3 =
               Returned [alert (msg_found_company cid); showView view_employee]
                 (set_currentUser (Some (emp, rec)) app3)).
  { rewrite (login_employee_cases emp "" "" app3 rec cid Hemp Hrec3
               eq_refl eq_refl Hrcid Htc (or_introl eq_refl)
               (fun H => False_ind _ (Bool.diff_false_true H))).
    change (currentPosition app3) with (currentPosition app).
    rewrite Hpos, Hc3, Hsite2.
    rewrite Hnear.
    reflexivity. }
  set (app4 := set_currentUser (Some (emp, rec)) app3) in *.
  (* the check-in *)
  assert (Hc4 : company_of app4 (User.companyId rec) = Some c2)
    by (rewrite Hrcid; exact Hc3).
  pose proof (checkIn_success clk1 app4 emp rec rec pos c2 site
                eq_refl Hrec3 Hpos Hc4 Hsite2 Hnear) as H5.
  set (app5 := checked_in_state clk1 app4 emp rec rec pos c2 site) in *.
  set (u5 := with_history
               (Some (push_capped
                        (HistoryPoint.mk (Position.lat pos) (Position.lng pos)
                           (toLocaleString clk1) (Site.id site))
                        (default [] (User.history rec))))
               (with_lastPing (Some (Date_now clk1))
                  (with_checkInTime (Some (Date_now clk1))
                     (with_status (Some checked_in) rec)))).
  assert (Hu5 : users (mockDB app5) !! emp = Some u5).
  { subst app5. unfold checked_in_state, set_companies, set_users; simpl.
    apply lookup_insert_eq. }
  set (e_in := LogEntry.mk emp ("Check-In @ " +:+ siteName)
                 (toLocaleTimeString clk1)).
  set (c5 := with_logs (unshift_capped e_in (Company.logs c2)) c2).
  assert (Hc5 : company_of app5 (User.companyId rec) = Some c5).
  { subst app5. unfold checked_in_state. apply company_of_set_companies_eq. }
  (* the sample *)
  pose proof (sample_out_of_range clk2 lat lng app5 emp rec u5 c5 site
                eq_refl eq_refl Hu5 eq_refl Hc5 Hsite2 Hfar) as H6.
  eexists app1, app2, app3, app4, app5, _, rec, u5, _, _.
  split; [exact H1|]. split; [exact H2|]. split; [reflexivity|].
  split; [exact H4|]. split; [reflexivity|]. split; [exact H5|].
  split; [exact Hu5|]. split; [reflexivity|]. split; [reflexivity|].
  split; [exact H6|]. split; [reflexivity|].
  split; [unfold set_companies, set_users; simpl; apply lookup_insert_eq|].
  split; [reflexivity|]. split; [reflexivity|].
  split; [rewrite <- Hrcid; apply company_of_set_companies_eq|].
  apply take2_unshift_capped.
Qed.

End Scenario.

Lemma origin_far_from_one_degree_east :
  gt (distance_to (Position.mk 0 0) (Site.mk "site_9" "Depot" 0 1))
     MAX_DISTANCE_METERS = true.
Proof. reflexivity. Qed.

Lemma null_island_one_degree_east : null_island one_degree_east = false.
Proof. reflexivity. Qed.

Lemma site_to_forced_checkout_witness :
  exists app4 app5 app6 rec u6,
    checkIn demo_clock app4 = Returned [] app5 /\
    watchPosition_success demo_clock 0 0 app5 =
      Returned [alert (msg_geofence_alert
                         (distance_to (Position.mk 0 0)
                            (Site.mk "site_9" "Depot" 0 1)))] app6 /\
    currentUser app6 = Some ("carl", rec) /\
    users (mockDB app6) !! "carl" = Some u6 /\
    User.status u6 = Some checked_out.
Proof.
  destruct (site_to_forced_checkout demo_clock demo_clock 0 0
              (demo_app (Some ("boss", boss)) (Some one_degree_east))
              "boss" boss "ACME1234" demo_company one_degree_east
              "Depot" "site_9" "carl" "555-0100"
              eq_refl eq_refl eq_refl eq_refl eq_refl
              null_island_one_degree_east eq_refl eq_refl eq_refl eq_refl
              eq_refl eq_refl origin_far_from_one_degree_east)
    as (app1 & app2 & app3 & app4 & app5 & app6 & rec & u5 & u6 & c6 &
        _ & _ & _ & _ & _ & H5 & _ & _ & _ & H6 & H7 & H8 & H9 & _).
  exists app4, app5, app6, rec, u6. repeat split; assumption.
Defined.


(** ** Removal and after *)

Section Removal.
Context {M : JSMath}.

(** X24. Without the confirmation [removeEmployee] does nothing.  After a
    confirmed removal of a user name that is not one of the names every
    object inherits from [Object.prototype], [login] with the removed
    name answers "user not found" and changes nothing, whatever else is
    typed. *)
Theorem removed_user_cannot_login username companyInput passInput app me cu c :
  currentUser app = Some (me, cu) ->
  company_of app (User.companyId cu) = Some c ->
  truthy username = true ->
  inherited username = false ->
  removeEmployee username false app = Returned [] app /\
  exists app',
    removeEmployee username true app =
      Returned [alert msg_employee_removed] app' /\
    login username companyInput passInput app' =
      Returned [alert msg_user_not_found] app'.
Proof.
  intros Hcu Hc Hn Hown. split; [reflexivity|].
  unfold removeEmployee. cbn [negb]. rewrite Hcu, Hc.
  set (c' := with_employees _ c).
  set (app' := set_users _ _).
  exists app'. split.
  - unfold andThen.
    rewrite (refreshDashboard_company app' me cu c');
      [reflexivity|exact Hcu|].
    subst app'. unfold company_of, set_users, set_companies; simpl.
    apply lookup_insert_eq.
  - unfold login. rewrite Hn. cbn [negb].
    replace (js_get (users (mockDB app')) username) with (@undefined User.t);
      [reflexivity|].
    symmetry. apply js_get_undefined. split; [|exact Hown].
    subst app'. unfold set_users; simpl. apply lookup_delete_eq.
Qed.

End Removal.

Lemma removed_user_cannot_login_witness :
  exists app',
    removeEmployee "bob" true boss_app =
      Returned [alert msg_employee_removed] app' /\
    login "bob" "ACME1234" "" app' = Returned [alert msg_user_not_found] app'.
Proof.
  exact (proj2 (removed_user_cannot_login "bob" "ACME1234" "" boss_app "boss"
                  boss demo_company eq_refl eq_refl eq_refl eq_refl)).
Defined.

(** ** The shift timer *)

Section Timer.
Context {M : JSMath}.

Local Open Scope Z_scope.

(** X25. For a non-negative elapsed time the timer shows minutes and
    seconds below 60, a non-negative number of hours, and together they
    are the whole seconds elapsed; the re-check notice shows exactly from
    two hours on. *)
Theorem timer_fields diff :
  0 <= diff ->
  0 <= timer_hours diff /\
  0 <= timer_minutes diff < 60 /\
  0 <= timer_seconds diff < 60 /\
  timer_hours diff * 3600 + timer_minutes diff * 60 + timer_seconds diff
    = diff / 1000 /\
  (timer_recheck diff = true <-> 2 * 60 * 60 * 1000 <= diff).
Proof.
  intros Hd. unfold timer_recheck, timer_hours, timer_minutes, timer_seconds.
  rewrite !Z.rem_mod_nonneg by lia.
  change (1000 * 60 * 60) with 3600000. change (1000 * 60) with 60000.
  pose proof (Z.div_mod diff 3600000 ltac:(lia)) as E1.
  pose proof (Z.mod_pos_bound diff 3600000 ltac:(lia)) as B1.
  pose proof (Z.div_mod diff 60000 ltac:(lia)) as E2.
  pose proof (Z.mod_pos_bound diff 60000 ltac:(lia)) as B2.
  pose proof (Z.div_mod diff 1000 ltac:(lia)) as E3.
  pose proof (Z.mod_pos_bound diff 1000 ltac:(lia)) as B3.
  pose proof (Z.div_mod (diff mod 3600000) 60000 ltac:(lia)) as E4.
  pose proof (Z.mod_pos_bound (diff mod 3600000) 60000 ltac:(lia)) as B4.
  pose proof (Z.div_mod (diff mod 60000) 1000 ltac:(lia)) as E5.
  pose proof (Z.mod_pos_bound (diff mod 60000) 1000 ltac:(lia)) as B5.
  set (h := diff / 3600000) in *.
  set (m := diff mod 3600000 / 60000) in *.
  set (s := diff mod 60000 / 1000) in *.
  set (q := diff / 1000) in *.
  assert (Hmm : (diff mod 3600000) mod 60000 = diff mod 60000).
  { apply Z.mod_mod_divide. exists 60. reflexivity. }
  assert (Hms : (diff mod 60000) mod 1000 = diff mod 1000).
  { apply Z.mod_mod_divide. exists 60. reflexivity. }
  rewrite Hmm in E4. rewrite Hms in E5.
  rewrite Z.leb_le.
  repeat split; lia.
Qed.

End Timer.

Lemma timer_fields_witness :
  (timer_hours 7384000 = 2 /\ timer_minutes 7384000 = 3 /\
   timer_seconds 7384000 = 4)%Z /\ timer_recheck 7384000 = true.
Proof.
  destruct (timer_fields 7384000 ltac:(lia)) as (_ & _ & _ & _ & Hre).
  split; [repeat split|apply Hre; lia].
Defined.

(** ** Buffers longer than their cap *)

Section Overlong.
Context {M : JSMath}.



End Overlong.


(** ** The history view *)

Section HistoryViewed.
Context {M : JSMath}.

Lemma rev_push_capped point h :
  exists older, rev (push_capped point h) = point :: older.
Proof.
  unfold push_capped. cbv zeta.
  destruct (Nat.ltb_spec 50 (length (h ++ [point]))) as [H|H].
  - destruct h as [|x h]; simpl in *; [lia|].
    rewrite rev_app_distr. simpl. eauto.
  - rewrite rev_app_distr. simpl. eauto.
Qed.

(** X27. [viewEmployeeHistory] reports that there is no history for a
    record whose history is absent or empty.
    Right after [trackLocation] recorded a point for the logged-in user,
    the view of that user lists the history last recorded first, the new
    point at the top. *)
Theorem history_view_after_tracking clk siteId app pos username cu u :
  currentPosition app = Some pos ->
  currentUser app = Some (username, cu) ->
  users (mockDB app) !! username = Some u ->
  (default [] (User.history u) = [] ->
   viewEmployeeHistory username app = no_history_found username) /\
  exists app' older,
    trackLocation clk siteId app = Returned [] app' /\
    viewEmployeeHistory username app' =
      history_listing username
        (HistoryPoint.mk (Position.lat pos) (Position.lng pos)
           (toLocaleString clk) siteId :: older) /\
    rev (HistoryPoint.mk (Position.lat pos) (Position.lng pos)
           (toLocaleString clk) siteId :: older) =
      push_capped
        (HistoryPoint.mk (Position.lat pos) (Position.lng pos)
           (toLocaleString clk) siteId)
        (default [] (User.history u)).
Proof.
  intros Hpos Hcu Hu. split.
  - intros Hempty. unfold viewEmployeeHistory. rewrite Hu.
    destruct (User.history u) as [[|x h]|]; try reflexivity.
    simpl in Hempty. discriminate.
  - set (point := HistoryPoint.mk _ _ _ _).
    destruct (rev_push_capped point (default [] (User.history u)))
      as [older Holder].
    eexists _, older.
    split; [apply (trackLocation_returns clk siteId app pos username cu u);
            assumption|].
    fold point. split.
    + unfold viewEmployeeHistory, set_users; simpl.
      rewrite lookup_insert_eq. simpl User.history.
      destruct (push_capped point (default [] (User.history u)))
        as [|x h] eqn:E.
      * simpl in Holder. discriminate.
      * rewrite Holder. reflexivity.
    + rewrite <- Holder. apply rev_involutive.
Qed.

End HistoryViewed.

Lemma history_view_after_tracking_witness :
  viewEmployeeHistory "bob" (demo_app (Some ("bob", bob)) (Some at_site)) =
    no_history_found "bob" /\
  exists app',
    trackLocation demo_clock "site_s"
      (demo_app (Some ("bob", bob)) (Some at_site)) = Returned [] app' /\
    viewEmployeeHistory "bob" app' =
      history_listing "bob"
        [HistoryPoint.mk 0 0 "1/1/2026, 09:00:00" "site_s"].
Proof.
  destruct (history_view_after_tracking demo_clock "site_s"
              (demo_app (Some ("bob", bob)) (Some at_site)) at_site "bob" bob bob
              eq_refl eq_refl eq_refl)
    as (Hnone & app' & older & Hrun & Hview & Holder).
  split; [apply Hnone; reflexivity|].
  exists app'. split; [exact Hrun|].
  rewrite Hview. f_equal.
  destruct older as [|x older]; [reflexivity|].
  apply (f_equal (@length _)) in Holder.
  rewrite length_rev in Holder.
  change (length (push_capped _ _)) with 1 in Holder.
  simpl in Holder. lia.
Defined.

(** ** A company id taken twice *)

Section Collision.
Context {M : JSMath}.

(** X28. [registerNewCompany] does not test whether the company id is in
    use.  When it is, and the manager name is free ([users[name]] is
    [undefined]), the record of that company is replaced by an empty
    one (no sites, no roster, no log) while its user records stay; a
    verified employee of it, whatever the assigned site, is then told at
    [login] that the worksite was not found. *)
Theorem company_id_collision
    companyName managerName companyId verifyCode app old username u pos :
  truthy companyName = true ->
  truthy managerName = true ->
  js_get (users (mockDB app)) managerName = undefined ->
  companies (mockDB app) !! companyId = Some old ->
  truthy username = true ->
  users (mockDB app) !! username = Some u ->
  User.role u = employee ->
  User.verified u = true ->
  User.companyId u = Some companyId ->
  truthy companyId = true ->
  truthy_opt (User.passcode u) = false ->
  currentPosition app = Some pos ->
  exists app',
    registerNewCompany companyName managerName companyId verifyCode app =
      Returned [alert (msg_manager_code verifyCode); alert msg_company_created;
                showView view_auth] app' /\
    companies (mockDB app') !! companyId =
      Some (Company.mk (Some companyName) [] [] []) /\
    users (mockDB app') !! username = Some u /\
    login username companyId "" app' =
      Returned [alert msg_worksite_not_found] app'.
Proof.
  intros Hcn Hmn Hfree Hold Hn Hu Hrole Hver Hcid Htc Hpass Hpos.
  set (mgr := User.mk manager (Some companyId) None None None None None
                None None false (Some verifyCode) (Some [])).
  set (app' := set_users <[managerName := mgr]>
                 (set_companies
                    <[companyId := Company.mk (Some companyName) [] [] []]> app)).
  assert (Hne : managerName <> username).
  { apply js_get_undefined_inv in Hfree. congruence. }
  assert (Hu' : users (mockDB app') !! username = Some u).
  { subst app'. unfold set_users; simpl.
    rewrite lookup_insert_ne by exact Hne. exact Hu. }
  assert (Hc' : company_of app' (Some companyId) =
                Some (Company.mk (Some companyName) [] [] [])).
  { subst app'. unfold company_of, set_users, set_companies; simpl.
    apply lookup_insert_eq. }
  exists app'. split.
  { unfold registerNewCompany. rewrite Hcn, Hmn, Hfree. reflexivity. }
  split; [exact Hc'|]. split; [exact Hu'|].
  rewrite (login_site_gap_reported username companyId "" app' u companyId
             (Company.mk (Some companyName) [] [] []) pos);
    try assumption; try reflexivity.
  - now rewrite Htc.
  - now right.
  - intros H. congruence.
Qed.

End Collision.

Lemma company_id_collision_witness :
  exists app',
    registerNewCompany "Acme" "zed" "ACME1234" "1111"
      (demo_app None (Some at_site)) =
      Returned [alert (msg_manager_code "1111"); alert msg_company_created;
                showView view_auth] app' /\
    login "bob" "ACME1234" "" app' = Returned [alert msg_worksite_not_found] app'.
Proof.
  destruct (company_id_collision "Acme" "zed" "ACME1234" "1111"
              (demo_app None (Some at_site)) demo_company "bob" bob at_site
              eq_refl eq_refl eq_refl eq_refl eq_refl eq_refl eq_refl eq_refl
              eq_refl eq_refl eq_refl eq_refl)
    as (app' & H1 & _ & _ & H2).
  exists app'. split; assumption.
Defined.

(** ** Self-registration *)

Section SelfRegistration.
Context {M : JSMath}.

(** X29. An account created through self-registration, under a name for
    which [users[name]] is [undefined], has no company.
    [login] with the company field empty turns it away; but with anything
    typed as company id the account, having no company to compare with,
    passes on to verification, and [verifyAccount] then opens a session
    for it: an employee session with no company, reached without the
    "not linked" refusal and without a position. *)
Theorem self_registration_flow
    username email phone passcode verifyCode typed app :
  truthy username = true ->
  truthy email = true \/ truthy phone = true ->
  js_get (users (mockDB app)) username = undefined ->
  truthy typed = true ->
  exists app1 app2 app3 u,
    registerNewEmployeeUser username email phone passcode verifyCode app =
      Returned [alert (msg_code_sent (if truthy email then email else phone)
                         verifyCode);
                alert msg_account_created; showView view_auth] app1 /\
    users (mockDB app1) !! username = Some u /\
    User.companyId u = None /\
    User.verified u = false /\
    login username "" passcode app1 = Returned [alert msg_no_company_id] app1 /\
    login username typed passcode app1 = Returned [showView view_verify] app2 /\
    verifyAccount verifyCode app2 =
      Returned [alert msg_verified; showView view_employee] app3 /\
    currentUser app3 = Some (username, with_verified true u) /\
    User.companyId (with_verified true u) = None.
Proof.
  intros Hn Hcontact Hfree Htyped.
  set (u := User.mk employee None (Some email) (Some phone) (or_null passcode)
              None (Some checked_out) None None false (Some verifyCode)
              (Some [])).
  set (app1 := set_users <[username := u]> app).
  assert (Hu : users (mockDB app1) !! username = Some u).
  { subst app1. unfold set_users; simpl. apply lookup_insert_eq. }
  set (app2 := set_pendingUser (Some (username, u)) app1).
  assert (Hpass1 : truthy_opt (or_null passcode) && negb (truthy passcode) = false).
  { unfold or_null. destruct (truthy passcode) eqn:E; simpl; [|reflexivity].
    now rewrite E. }
  assert (Hpass2 : truthy_opt (or_null passcode)
                   && negb (bool_decide (Some passcode = or_null passcode))
                   = false).
  { unfold or_null. destruct (truthy passcode) eqn:E; simpl; [|reflexivity].
    rewrite E. now rewrite bool_decide_eq_true_2. }
  destruct (verifyAccount_accepts verifyCode app2 username u u eq_refl Hu
              (or_introl eq_refl))
    as (app3 & Hverify & Hcu3 & _).
  exists app1, app2, app3, u.
  split.
  { unfold registerNewEmployeeUser. rewrite Hn, Hfree. cbn [negb].
    destruct Hcontact as [He|Hp]; [rewrite He|rewrite Hp];
      cbn [negb andb]; rewrite ?andb_false_r; reflexivity. }
  split; [exact Hu|]. split; [reflexivity|]. split; [reflexivity|].
  split.
  { unfold login. rewrite Hn, (js_get_own _ _ _ Hu). reflexivity. }
  split.
  { unfold login. rewrite Hn, (js_get_own _ _ _ Hu), Htyped. cbn [negb].
    change (User.companyId u) with (@None string).
    change (User.passcode u) with (or_null passcode).
    cbn [truthy_opt andb]. rewrite Hpass1, Hpass2. reflexivity. }
  split; [exact Hverify|].
  split; [exact Hcu3|reflexivity].
Qed.

End SelfRegistration.

Lemma self_registration_flow_witness :
  exists app1 app2 app3 u,
    login "gus" "" "" app1 = Returned [alert msg_no_company_id] app1 /\
    login "gus" "NOSUCH99" "" app1 = Returned [showView view_verify] app2 /\
    verifyAccount "1357" app2 =
      Returned [alert msg_verified; showView view_employee] app3 /\
    currentUser app3 = Some ("gus", with_verified true u) /\
    User.companyId u = None.
Proof.
  destruct (self_registration_flow "gus" "gus@mail.test" "" "" "1357" "NOSUCH99"
              initial_app eq_refl (or_introl eq_refl) eq_refl eq_refl)
    as (app1 & app2 & app3 & u & _ & _ & H1 & _ & H2 & H3 & H4 & H5 & _).
  exists app1, app2, app3, u. repeat split; assumption.
Defined.
